(** * OOK raw data receiver: the categorizer and its library

    A shallow embedding of [categorizer.h], [categorizer_lib.cpp] and
    [categorizer.cpp].  The target is an 8-bit AVR: [uint8_t], [uint16_t]
    and [uint32_t] values are integers in [Z] whose wrap-around is written
    out with [u8], [u16] and [u32]; C arrays are lists read with [rd] and
    updated with [wr]. *)

From Stdlib Require Import ZArith Lia Bool List Sorted.
From stdpp Require Import base list.
Import ListNotations.
Local Open Scope Z_scope.

(** ** Machine integers and arrays *)

Definition u8 (x : Z) : Z := x mod 256.
Definition u16 (x : Z) : Z := x mod 65536.
Definition u32 (x : Z) : Z := x mod 4294967296.

(** [a[i]] for an index the code computed; an index past the end of the
    list reads 0. *)
Definition rd (a : list Z) (i : Z) : Z := nth (Z.to_nat i) a 0.

(** [a[i]= x]. *)
Definition wr (a : list Z) (i : Z) (x : Z) : list Z :=
  if 0 <=? i then <[Z.to_nat i := x]> a else a.

(** ** Constants of categorizer.h *)

Definition NC : Z := 8.
Definition NA : Z := 8.
Definition NO : Z := 16.
Definition NM : Z := 2 * NO.
Definition NB : Z := 32.
Definition NH : Z := 2 * NB.
Definition DIM_64 : Z := 64.
Definition LSB : Z := 1.
Definition MSB : Z := 65534.
Definition CEIL_U : Z := 65000.
Definition CEIL : Z := 65000.
Definition RELIABLE : Z := 0.
Definition UNRELIABLE : Z := 1.
Definition BORDER_WIDTH : Z := 8.
Definition START_VAL : Z := 50.
Definition MAX_HOLES : Z := 1.
Definition FIRST_HITS : Z := 2.
Definition MIN_SIZE : Z := 3.
Definition C_OPT_2 : Z := 2.
Definition C_OPT_3 : Z := 3.
Definition C_OPT_4 : Z := 4.
(** Arduino.h *)
Definition HIGH : Z := 1.
Definition LOW : Z := 0.

Definition CRC_0 : Z := 0.
Definition CRC_2 : Z := 2.
Definition CRC_3 : Z := 3.
Definition CRC_4 : Z := 4.
Definition CRC_5 : Z := 5.
Definition CRC_6 : Z := 6.
Definition CRC_7 : Z := 7.
Definition CRC_10 : Z := 10.
Definition CRC_11 : Z := 11.
Definition CRC_12 : Z := 12.
Definition CRC_13 : Z := 13.
Definition CRC_16 : Z := 16.
Definition CRC_17 : Z := 17.
Definition CRC_18 : Z := 18.

(** ** The category set of one polarity (struct [categories]) *)

Record categories : Type := mkCategories {
  cluster_size : Z;
  cluster_count : list Z;
  cluster_ceil : list Z;
  cluster_center : list Z;
  cluster_floor : list Z;
  outlier_size : Z;
  outlier_ind : list Z;
  aggreg_size_1 : Z;
  aggreg_size_2 : Z;
  aggreg_center : list Z;
  separator_barrier : Z;
  inlier_count : Z
}.

Definition set_outliers (z : categories) (n : Z) (o : list Z) : categories :=
  mkCategories (cluster_size z) (cluster_count z) (cluster_ceil z)
    (cluster_center z) (cluster_floor z) n o (aggreg_size_1 z)
    (aggreg_size_2 z) (aggreg_center z) (separator_barrier z) (inlier_count z).

Definition set_aggregs (z : categories) (n2 : Z) (a : list Z) : categories :=
  mkCategories (cluster_size z) (cluster_count z) (cluster_ceil z)
    (cluster_center z) (cluster_floor z) (outlier_size z) (outlier_ind z)
    (aggreg_size_1 z) n2 a (separator_barrier z) (inlier_count z).

Definition set_aggreg_size_1 (z : categories) (n1 : Z) : categories :=
  mkCategories (cluster_size z) (cluster_count z) (cluster_ceil z)
    (cluster_center z) (cluster_floor z) (outlier_size z) (outlier_ind z)
    n1 (aggreg_size_2 z) (aggreg_center z) (separator_barrier z)
    (inlier_count z).

Definition set_barrier (z : categories) (b : Z) : categories :=
  mkCategories (cluster_size z) (cluster_count z) (cluster_ceil z)
    (cluster_center z) (cluster_floor z) (outlier_size z) (outlier_ind z)
    (aggreg_size_1 z) (aggreg_size_2 z) (aggreg_center z) b (inlier_count z).

(** ** 3.4 classifier *)

(** [for (cat_ind= 0; cat_ind < z.cluster_size; cat_ind++)
      if (v_val < z.cluster_ceil[cat_ind]) goto HIGHER_CEIL_FOUND;]
    [n] counts the iterations left. *)
Fixpoint scan_ceil (ceil : list Z) (v_val : Z) (n : nat) (cat_ind : Z)
  : option Z :=
  match n with
  | O => None
  | S n' =>
      if v_val <? rd ceil cat_ind then Some cat_ind
      else scan_ceil ceil v_val n' (cat_ind + 1)
  end.

(** Part (A) up to the label CONTINUE_WITH_AGGREGATIONS: either the matching
    cluster ([inl]) or the nearest cluster with its [delta] ([inr]). *)
Definition nearest_cluster (z : categories) (v_val : Z) : Z + (Z * Z) :=
  match scan_ceil (cluster_ceil z) v_val (Z.to_nat (cluster_size z)) 0 with
  | None =>
      let cat_ind := u8 (cluster_size z - 1) in
      inr (cat_ind, u16 (v_val - rd (cluster_center z) cat_ind))
  | Some cat_ind =>
      if rd (cluster_floor z) cat_ind <=? v_val then inl cat_ind
      else if cat_ind =? 0 then
        inr (cat_ind, u16 (rd (cluster_center z) cat_ind - v_val))
      else
        let d1 := u16 (rd (cluster_center z) cat_ind - v_val) in
        let d2 := u16 (v_val - rd (cluster_center z) (cat_ind - 1)) in
        if d1 <? d2 then inr (cat_ind, d1) else inr (cat_ind - 1, d2)
  end.

(** Part (B): the loop over the aggregations; the state is
    [(cat_ind, cat_val, delta)]. *)
Fixpoint scan_aggreg (z : categories) (v_val : Z) (n : nat) (a_ind : Z)
    (st : Z * Z * Z) : Z * Z * Z :=
  match n with
  | O => st
  | S n' =>
      let '(cat_ind, cat_val, delta) := st in
      let d1 := rd (aggreg_center z) a_ind in
      let d2 := if d1 <? v_val then v_val - d1 else d1 - v_val in
      scan_aggreg z v_val n' (a_ind + 1)
        (if d2 <? delta then (u8 (cluster_size z + a_ind), d1, d2) else st)
  end.

(** [classifier (z, v_val, cat_ind, cat_val, option)]: the returned flag and
    the two output parameters. *)
Definition classifier (z : categories) (v_val option : Z) : bool * Z * Z :=
  match nearest_cluster z v_val with
  | inl cat_ind => (true, cat_ind, rd (cluster_center z) cat_ind)
  | inr (cat_ind, delta) =>
      let cat_val := rd (cluster_center z) cat_ind in
      if delta <? Z.shiftr cat_val option then (true, cat_ind, cat_val)
      else
        let '(cat_ind', cat_val', delta') :=
          scan_aggreg z v_val (Z.to_nat (aggreg_size_2 z)) 0
            (cat_ind, cat_val, delta) in
        (delta' <? Z.shiftr cat_val' option, cat_ind', cat_val')
  end.

(** ** The nearest category, as the specification words it

    The distance of [v_val] to a center, and the nearest center of a table
    found by visiting the entries in index order and adopting an entry only
    at a strictly smaller distance.  [base] is the category index of entry 0;
    the state is [(cat_ind, cat_val, delta)]. *)
Definition dist (v_val c : Z) : Z := Z.abs (v_val - c).

Fixpoint scan_nearest (centers : list Z) (base v_val : Z) (n : nat) (i : Z)
    (st : Z * Z * Z) : Z * Z * Z :=
  match n with
  | O => st
  | S n' =>
      let c := rd centers i in
      scan_nearest centers base v_val n' (i + 1)
        (if dist v_val c <? snd st then (base + i, c, dist v_val c) else st)
  end.

(** The clusters come first, an aggregation [k] follows as category
    [cluster_size + k]. *)
Definition nearest_category (z : categories) (v_val : Z) : Z * Z * Z :=
  let c0 := rd (cluster_center z) 0 in
  scan_nearest (aggreg_center z) (cluster_size z) v_val
    (Z.to_nat (aggreg_size_2 z)) 0
    (scan_nearest (cluster_center z) 0 v_val
       (Z.to_nat (cluster_size z - 1)) 1 (0, c0, dist v_val c0)).

(** The nearest cluster alone: the first cluster center of least
    distance. *)
Definition nearest_center (z : categories) (v_val : Z) : Z * Z * Z :=
  let c0 := rd (cluster_center z) 0 in
  scan_nearest (cluster_center z) 0 v_val
    (Z.to_nat (cluster_size z - 1)) 1 (0, c0, dist v_val c0).

(** The center of category [ind], if there is one. *)
Definition category_center (z : categories) (ind : Z) : option Z :=
  if (0 <=? ind) && (ind <? cluster_size z)
  then Some (rd (cluster_center z) ind)
  else if (cluster_size z <=? ind) && (ind <? cluster_size z + aggreg_size_2 z)
  then Some (rd (aggreg_center z) (ind - cluster_size z))
  else None.

(** A category set as the clusterer emits it: at least one cluster, the
    table bounds, clusters ascending and disjoint, each center inside its
    cluster's range, all durations 16-bit. *)
Definition wf_categories (z : categories) : Prop :=
  1 <= cluster_size z <= NC /\
  0 <= aggreg_size_2 z <= NA /\
  (forall i j, 0 <= i -> i < j -> j < cluster_size z ->
     rd (cluster_ceil z) i <= rd (cluster_floor z) j) /\
  (forall k, 0 <= k < cluster_size z ->
     0 <= rd (cluster_floor z) k <= rd (cluster_center z) k /\
     rd (cluster_center z) k < rd (cluster_ceil z) k < 65536).

(** [v_val] lies in no cluster's [floor, ceil) range. *)
Definition outside_clusters (z : categories) (v_val : Z) : Prop :=
  forall k, 0 <= k < cluster_size z ->
    ~ (rd (cluster_floor z) k <= v_val < rd (cluster_ceil z) k).

(** [st] is the first entry of least distance among the entries [lo..hi-1]
    of [centers]. *)
Definition least_argmin (centers : list Z) (base v lo hi : Z)
    (st : Z * Z * Z) : Prop :=
  exists k, lo <= k < hi /\ st = (base + k, rd centers k, dist v (rd centers k)) /\
    (forall j, lo <= j < hi -> dist v (rd centers k) <= dist v (rd centers j)) /\
    (forall j, lo <= j < k -> dist v (rd centers k) < dist v (rd centers j)).

(** ** 3.1 extractor *)

Definition unreliable (x : Z) : bool := Z.land x LSB =? UNRELIABLE.
Definition reliable (x : Z) : bool := Z.land x LSB =? RELIABLE.

(** First index [>= v_ind] among the next [n] whose value satisfies [p]. *)
Fixpoint find_from (p : Z -> bool) (v : list Z) (n : nat) (v_ind : Z)
  : option Z :=
  match n with
  | O => None
  | S n' => if p (rd v v_ind) then Some v_ind
            else find_from p v n' (v_ind + 1)
  end.

(** [extractor (v, v_stop_ind, v_ind, ss_start_ind, ss_stop_ind)]: the
    returned flag, then [v_ind], [ss_start_ind] and [ss_stop_ind] as the
    call leaves them.  The bound [v_stop_ind - 2] is a 16-bit difference. *)
Definition extractor (v : list Z) (v_stop_ind v_ind : Z)
  : bool * Z * Z * Z :=
  let hi := u16 (v_stop_ind - 2) in
  match find_from unreliable v (Z.to_nat (hi - v_ind + 1)) v_ind with
  | None => (false, Z.max v_ind (hi + 1), 0, 0)
  | Some i =>
      let ss_start_ind := u16 (i - 1) in
      match find_from reliable v (Z.to_nat (v_stop_ind - i + 1)) i with
      | None => (false, Z.max i (v_stop_ind + 1), ss_start_ind, 0)
      | Some j => (true, j + 1, ss_start_ind, j)
      end
  end.

(** ** 3.7 Helper *)

(** The [do ... while (j > 0 && key(v[j-1]) > key(tmp))] loop of the two
    insertion sorts, followed by [v[j]= tmp].  [key] is the identity for
    [sort] and the indexed value for [index_sort]. *)
Fixpoint insert_shift (key : Z -> Z) (s : list Z) (tmp : Z) (n : nat) (j : Z)
  : list Z :=
  match n with
  | O => wr s j tmp
  | S n' =>
      let s := wr s j (rd s (j - 1)) in
      let j := j - 1 in
      if (0 <? j) && (key tmp <? key (rd s (j - 1)))
      then insert_shift key s tmp n' j
      else wr s j tmp
  end.

(** [for (i= 1; i < n; i++)] with [m] iterations left. *)
Fixpoint insertion_sort_from (key : Z -> Z) (s : list Z) (m : nat) (i : Z)
  : list Z :=
  match m with
  | O => s
  | S m' =>
      let tmp := rd s i in
      let s := if key tmp <? key (rd s (i - 1))
               then insert_shift key s tmp (Z.to_nat i) i else s in
      insertion_sort_from key s m' (i + 1)
  end.

(** 3.7.1 [sort (v, n)] *)
Definition sort (s : list Z) (n : Z) : list Z :=
  insertion_sort_from (fun x => x) s (Z.to_nat (n - 1)) 1.

(** 3.7.2 [index_sort (v, v_ind, n)] *)
Definition index_sort (v v_ind : list Z) (n : Z) : list Z :=
  insertion_sort_from (fun i => rd v i) v_ind (Z.to_nat (n - 1)) 1.

(** 3.7.3 [merge (a, na, b, nb, c, nc)]: the three loops, with [n] an upper
    bound of the number of elements still to store. *)
Fixpoint merge_from (a : list Z) (na : Z) (b : list Z) (nb : Z) (c : list Z)
    (n : nat) (i j k : Z) : list Z :=
  match n with
  | O => c
  | S n' =>
      if (i <? na) && (j <? nb) then
        if rd a i <? rd b j
        then merge_from a na b nb (wr c k (rd a i)) n' (i + 1) j (k + 1)
        else merge_from a na b nb (wr c k (rd b j)) n' i (j + 1) (k + 1)
      else if i <? na
        then merge_from a na b nb (wr c k (rd a i)) n' (i + 1) j (k + 1)
      else if j <? nb
        then merge_from a na b nb (wr c k (rd b j)) n' i (j + 1) (k + 1)
      else c
  end.

Definition merge (a : list Z) (na : Z) (b : list Z) (nb : Z) (c : list Z)
  : list Z * Z :=
  (merge_from a na b nb c (Z.to_nat (na + nb)) 0 0 0, u8 (na + nb)).

(** ** 3.3 aggregator *)

(** [center= v_sum / v_count;
     if (v_count > v_min_count) z.aggreg_center[z.aggreg_size_2++]= center & MSB;] *)
Definition close_aggregation (z : categories) (v_sum v_count v_min_count : Z)
  : categories :=
  let center := u16 (Z.quot v_sum v_count) in
  if v_min_count <? v_count
  then set_aggregs z (u8 (aggreg_size_2 z + 1))
         (wr (aggreg_center z) (aggreg_size_2 z) (Z.land center MSB))
  else z.

(** The two nested [do ... while] loops and the code up to the label ENDE,
    entered in the inner loop at outlier [o_ind] with the running [v_sum]
    and [v_count]; [n] bounds the outliers still to visit.  The test
    [v_below + (v_above >> 3) > v_above] is a 16-bit sum. *)
Fixpoint aggregate_from (n : nat) (z : categories) (v : list Z)
    (v_min_count o_last_ind o_ind v_sum v_count : Z) : categories * Z :=
  match n with
  | O => (z, CRC_17)
  | S n' =>
      let v_below := rd v (rd (outlier_ind z) o_ind) in
      let v_sum := v_sum + v_below in
      let v_count := u8 (v_count + 1) in
      if o_last_ind <=? o_ind
      then (close_aggregation z v_sum v_count v_min_count, CRC_0)
      else
        let o_ind := u8 (o_ind + 1) in
        let v_above := rd v (rd (outlier_ind z) o_ind) in
        if v_above <? u16 (v_below + Z.shiftr v_above 3)
        then aggregate_from n' z v v_min_count o_last_ind o_ind v_sum v_count
        else
          let z := close_aggregation z v_sum v_count v_min_count in
          if o_ind <? o_last_ind then
            if NC <=? aggreg_size_2 z then (z, CRC_4)
            else aggregate_from n' z v v_min_count o_last_ind o_ind 0 0
          else if o_ind =? o_last_ind then
            if NC <=? aggreg_size_2 z then (z, CRC_4)
            else (close_aggregation z (rd v (rd (outlier_ind z) o_ind)) 1
                    v_min_count, CRC_0)
          else (z, CRC_17)
  end.

(** [aggregator (z, v, v_min_count, rc)]: [z] and [rc] as the call leaves
    them ([v] is only read). *)
Definition aggregator (z : categories) (v : list Z) (v_min_count : Z)
  : categories * Z :=
  let z := set_aggregs z (aggreg_size_1 z) (aggreg_center z) in
  if outlier_size z <? 1 then (z, CRC_0)
  else
    let z := set_outliers z (outlier_size z)
               (index_sort v (outlier_ind z) (outlier_size z)) in
    if NC <=? aggreg_size_2 z then (z, CRC_4)
    else aggregate_from (Z.to_nat (outlier_size z)) z v v_min_count
           (u8 (outlier_size z - 1)) 0 0 0.

(** ** 3.2 resorber *)

(** [for (v_ind= i; ...; v_ind++) v_sum+= v[v_ind];] over [n] elements
    ([v_sum] is an [int32_t]). *)
Fixpoint sum_v (v : list Z) (i : Z) (n : nat) : Z :=
  match n with
  | O => 0
  | S n' => rd v i + sum_v v (i + 1) n'
  end.

(** The tightness chosen from the best-fit residual. *)
Definition resorber_option (rel_delta_bestfit : Z) : Z :=
  if 100 <? rel_delta_bestfit then C_OPT_3 else C_OPT_4.

(** The triple sum with the contributions of the front and the back element.
    The three middle terms are [uint16_t] operands: on the AVR their sum is
    formed in 16 bits before it is widened to [int32_t]. *)
Definition triple_sum (v ss_cat : list Z) (ss_start_ind : Z) : Z :=
  (rd v ss_start_ind - rd ss_cat 0)
  + u16 (rd v (ss_start_ind + 1) + rd v (ss_start_ind + 2)
         + rd v (ss_start_ind + 3))
  + (rd v (ss_start_ind + 4) - rd ss_cat 4).

(** The relative delta (per thousand) of the resorbed window; [cat_sum] is a
    sum of three [uint16_t]. *)
Definition resorber_rel_delta (v ss_cat : list Z) (ss_start_ind cat_val : Z)
  : Z :=
  let v_sum := sum_v v ss_start_ind 5 in
  let cat_sum := u16 (rd ss_cat 0 + cat_val + rd ss_cat 4) in
  u16 (Z.quot (1000 * Z.abs (v_sum - cat_sum)) v_sum).

(** The five assignments to the window. *)
Definition resorb_window (v ss_cat : list Z) (ss_start_ind cat_val : Z)
  : list Z :=
  let v := wr v ss_start_ind (rd ss_cat 0) in
  let v := wr v (ss_start_ind + 1) cat_val in
  let v := wr v (ss_start_ind + 2) 0 in
  let v := wr v (ss_start_ind + 3) 0 in
  wr v (ss_start_ind + 4) (rd ss_cat 4).

(** [resorber (z, v, ss_cat, ss_start_ind, ss_stop_ind, rel_delta, rc)]:
    the returned flag, then [z], [v], [rel_delta] and [rc] as the call
    leaves them.  [None] is the division by a zero [v_sum], which C leaves
    undefined. *)
Definition resorber (z : categories) (v ss_cat : list Z)
    (ss_start_ind ss_stop_ind rel_delta : Z)
  : option (bool * categories * list Z * Z * Z) :=
  if negb (u16 (ss_stop_ind - ss_start_ind) =? 4)
  then Some (false, z, v, rel_delta, CRC_0)
  else
    let rel_delta_bestfit := rel_delta in
    let option := resorber_option rel_delta_bestfit in
    let v_sum := triple_sum v ss_cat ss_start_ind in
    if CEIL <? v_sum then Some (false, z, v, rel_delta, CRC_18)
    else
      let triple_val := u16 v_sum in
      let '(near, cat_ind, cat_val) := classifier z triple_val option in
      if negb near then Some (false, z, v, rel_delta, CRC_0)
      else if sum_v v ss_start_ind 5 =? 0 then None
      else
        let rel_delta := resorber_rel_delta v ss_cat ss_start_ind cat_val in
        if rel_delta_bestfit <? rel_delta
        then Some (false, z, v, rel_delta_bestfit, CRC_0)
        else
          let v := resorb_window v ss_cat ss_start_ind cat_val in
          if cluster_size z <=? cat_ind then
            if NO <=? outlier_size z
            then Some (false, z, v, rel_delta, CRC_5)
            else Some (true,
                       set_outliers z (u8 (outlier_size z + 1))
                         (wr (outlier_ind z) (outlier_size z)
                             (u16 (ss_start_ind + 1))),
                       v, rel_delta, CRC_0)
          else Some (true, z, v, rel_delta, CRC_0).

(** The category the resorber assigns to the virtual triple. *)
Definition triple_category (z : categories) (v ss_cat : list Z)
    (ss_start_ind rel_delta : Z) : bool * Z * Z :=
  classifier z (u16 (triple_sum v ss_cat ss_start_ind))
    (resorber_option rel_delta).

(** The five elements of [v] from [i] on. *)
Definition window5 (v : list Z) (i : Z) : list Z :=
  [rd v i; rd v (i + 1); rd v (i + 2); rd v (i + 3); rd v (i + 4)].

(** ** 2.1 clusterer: 2.1.1 histogram clustering *)

(** A value is trusted when it and its two neighbours are reliable. *)
Definition trusted (v : list Z) (v_ind : Z) : bool :=
  negb (unreliable (rd v v_ind)) && negb (unreliable (rd v (v_ind + 1)))
  && negb (unreliable (rd v (v_ind - 1))).

(** The bin of a value: [b_ind] is a [uint8_t]. *)
Definition bin_of (v_val h_floor_val bin_width_2log : Z) : Z :=
  u8 (Z.shiftr (u16 (v_val - h_floor_val)) bin_width_2log).

(** The state of the bin filling: the bins, the hit list with its length
    and the floor of the next histogram. *)
Record fill_state : Type := mkFill {
  f_bins : list Z;
  f_hits : list Z;
  f_h_count : Z;
  f_next_floor : Z
}.

(** One iteration of the bin filling loop (2.1.1.2.1); the code on the left
    is the return code.  [v_count], which is only printed, is left out. *)
Definition fill_step (v : list Z) (h_floor_val h_ceil_val bin_width_2log : Z)
    (st : fill_state) (v_ind : Z) : Z * fill_state :=
  let v_val := rd v v_ind in
  if v_val <? h_floor_val then (CRC_0, st)
  else if negb (trusted v v_ind) then (CRC_0, st)
  else if h_ceil_val <=? v_val then
    (CRC_0, if v_val <? f_next_floor st
            then mkFill (f_bins st) (f_hits st) (f_h_count st) v_val else st)
  else
    let b_ind := bin_of v_val h_floor_val bin_width_2log in
    if NB <=? b_ind then (CRC_10, st)
    else if 255 <=? rd (f_bins st) b_ind then (CRC_0, st)
    else
      let bins := wr (f_bins st) b_ind (rd (f_bins st) b_ind + 1) in
      if f_h_count st <? NH then
        if rd bins b_ind <=? FIRST_HITS
        then (CRC_0, mkFill bins (wr (f_hits st) (f_h_count st) v_ind)
                       (u8 (f_h_count st + 1)) (f_next_floor st))
        else (CRC_0, mkFill bins (f_hits st) (f_h_count st) (f_next_floor st))
      else (CRC_6, mkFill bins (f_hits st) (f_h_count st) (f_next_floor st)).

(** [for (v_ind= ...; v_ind <= v_stop_ind - BORDER_WIDTH; v_ind+= 2)] with
    [n] iterations left. *)
Fixpoint fill_bins (n : nat) (v : list Z)
    (h_floor_val h_ceil_val bin_width_2log : Z) (st : fill_state) (v_ind : Z)
  : Z * fill_state :=
  match n with
  | O => (CRC_0, st)
  | S n' =>
      let '(rc, st') :=
        fill_step v h_floor_val h_ceil_val bin_width_2log st v_ind in
      if rc =? CRC_0
      then fill_bins n' v h_floor_val h_ceil_val bin_width_2log st' (v_ind + 2)
      else (rc, st')
  end.

(** The number of iterations of [for (i= lo; i <= hi; i+= 2)]. *)
Definition steps2 (lo hi : Z) : nat := Z.to_nat ((hi - lo) / 2 + 1).

(** [while ((b_ind < NB) && (bin_count[b_ind++] == 0));] returns [b_ind]. *)
Fixpoint skip_empty (bins : list Z) (n : nat) (b_ind : Z) : Z :=
  match n with
  | O => b_ind
  | S n' => if rd bins b_ind =? 0 then skip_empty bins n' (b_ind + 1)
            else b_ind + 1
  end.

(** The search of the stop bin: returns [b_ind], [bin_stop_ind] and
    [z.inlier_count]. *)
Fixpoint find_stop (bins : list Z) (n : nat) (b_ind c_hole_count inlier : Z)
  : Z * Z * Z :=
  match n with
  | O => (b_ind, NB, inlier)
  | S n' =>
      if 0 <? rd bins b_ind
      then find_stop bins n' (b_ind + 1) 0
             (if 0 <? c_hole_count then u8 (inlier + 1) else inlier)
      else
        let c_hole_count := u8 (c_hole_count + 1) in
        if MAX_HOLES <? c_hole_count
        then (b_ind, u8 (b_ind - MAX_HOLES), inlier)
        else find_stop bins n' (b_ind + 1) c_hole_count inlier
  end.

(** The check for overlapping clusters: [Some] of the new [bin_stop_ind]
    when the three-bin sum turns from descending back to ascending. *)
Fixpoint overlap_scan (bins : list Z) (n : nat) (b_ind : Z)
    (ascending : bool) (c_prev_count c_count : Z) : option Z :=
  match n with
  | O => None
  | S n' =>
      let c_count := u16 (c_count + rd bins b_ind) in
      let next asc :=
        overlap_scan bins n' (b_ind + 1) asc c_count
          (u16 (c_count - rd bins (b_ind - 2))) in
      if ascending then next (negb (u16 (c_count + 3) <? c_prev_count))
      else if u16 (c_prev_count + 3) <? c_count then Some (u8 (b_ind - 2))
      else next false
  end.

(** [c_count] and [bin_mean] of the bins [b_ind ..], [n] of them. *)
Fixpoint count_bins (bins : list Z) (n : nat) (b_ind k c_count bin_mean : Z)
  : Z * Z :=
  match n with
  | O => (c_count, bin_mean)
  | S n' =>
      count_bins bins n' (b_ind + 1) (u8 (k + 1))
        (u16 (c_count + rd bins b_ind)) (u32 (bin_mean + k * rd bins b_ind))
  end.

(** [for (...; b_ind < ...; b_ind++) bin_count[b_ind]= 0;] *)
Fixpoint zero_bins (bins : list Z) (n : nat) (b_ind : Z) : list Z :=
  match n with
  | O => bins
  | S n' => zero_bins (wr bins b_ind 0) n' (b_ind + 1)
  end.

(** The value at the lower edge of a bin, a [uint16_t]. *)
Definition bin_base (b_ind bin_width_2log h_floor_val : Z) : Z :=
  u16 (Z.shiftl b_ind bin_width_2log + h_floor_val).

Definition cluster_center_of (bin_start_ind bin_width_2log h_floor_val
    bin_width bin_mean c_count : Z) : Z :=
  Z.land
    (u16 (Z.shiftl bin_start_ind bin_width_2log
          + Z.quot (u32 (Z.shiftl bin_mean bin_width_2log)) c_count
          + h_floor_val - Z.shiftr bin_width 1))
    MSB.

Definition record_cluster (z : categories) (c_ind c_count center floor ceil : Z)
  : categories :=
  mkCategories (cluster_size z) (wr (cluster_count z) c_ind c_count)
    (wr (cluster_ceil z) c_ind ceil) (wr (cluster_center z) c_ind center)
    (wr (cluster_floor z) c_ind floor) (outlier_size z) (outlier_ind z)
    (aggreg_size_1 z) (aggreg_size_2 z) (aggreg_center z)
    (separator_barrier z) (inlier_count z).

Definition set_cluster_size (z : categories) (n : Z) : categories :=
  mkCategories n (cluster_count z) (cluster_ceil z) (cluster_center z)
    (cluster_floor z) (outlier_size z) (outlier_ind z) (aggreg_size_1 z)
    (aggreg_size_2 z) (aggreg_center z) (separator_barrier z) (inlier_count z).

Definition set_inlier_count (z : categories) (n : Z) : categories :=
  mkCategories (cluster_size z) (cluster_count z) (cluster_ceil z)
    (cluster_center z) (cluster_floor z) (outlier_size z) (outlier_ind z)
    (aggreg_size_1 z) (aggreg_size_2 z) (aggreg_center z)
    (separator_barrier z) n.

(** The state of the bin clustering (2.1.1.2.2). *)
Record bin_state : Type := mkBins {
  b_z : categories;
  b_c_ind : Z;
  b_bins : list Z;
  b_next_floor : Z;
  b_overlap : bool;
  b_outlier_presence : bool
}.

(** [while (b_ind < NB) { ... }] with [fuel] iterations allowed: the return
    code and the state at the end of the bin clustering, or [None] when the
    fuel is used up. *)
Fixpoint cluster_bins (fuel : nat) (h_floor_val bin_width_2log bin_width : Z)
    (st : bin_state) (b_ind : Z) : option (Z * bin_state) :=
  match fuel with
  | O => None
  | S fuel' =>
    if negb (b_ind <? NB) then Some (CRC_0, st)
    else
      let b_ind := skip_empty (b_bins st) (Z.to_nat (NB - b_ind)) b_ind in
      let bin_start_ind := u8 (b_ind - 1) in
      if NB <=? b_ind then
        (* histogram end: the start bin is handed to the next histogram *)
        if 0 <? rd (b_bins st) bin_start_ind
        then Some (CRC_0,
                   mkBins (b_z st) (b_c_ind st) (wr (b_bins st) bin_start_ind 0)
                     (bin_base bin_start_ind bin_width_2log h_floor_val)
                     (b_overlap st) (b_outlier_presence st))
        else Some (CRC_0, st)
      else if NB <=? bin_start_ind then Some (CRC_11, st)
      else
        let '(b_ind, bin_stop_ind, inlier) :=
          find_stop (b_bins st) (Z.to_nat (NB - b_ind)) b_ind 0
            (inlier_count (b_z st)) in
        let z := set_inlier_count (b_z st) inlier in
        if b_ind =? NB then
          if bin_stop_ind =? NB
          then Some (CRC_0,
                     mkBins z (b_c_ind st)
                       (zero_bins (b_bins st) (Z.to_nat (NB - bin_start_ind))
                          bin_start_ind)
                       (bin_base bin_start_ind bin_width_2log h_floor_val)
                       (b_overlap st) (b_outlier_presence st))
          else Some (CRC_12, mkBins z (b_c_ind st) (b_bins st)
                               (b_next_floor st) (b_overlap st)
                               (b_outlier_presence st))
        else if NB <=? bin_stop_ind
        then Some (CRC_13, mkBins z (b_c_ind st) (b_bins st) (b_next_floor st)
                             (b_overlap st) (b_outlier_presence st))
        else
          (* check overlapping clusters *)
          let cut :=
            if 6 <=? bin_stop_ind - bin_start_ind
            then overlap_scan (b_bins st)
                   (Z.to_nat (bin_stop_ind - (bin_start_ind + 2)))
                   (bin_start_ind + 2) true 0
                   (rd (b_bins st) bin_start_ind
                    + rd (b_bins st) (bin_start_ind + 1))
            else None in
          let bin_stop_ind := match cut with Some s => s | None => bin_stop_ind end in
          let overlap := match cut with Some _ => true | None => b_overlap st end in
          let '(c_count, bin_mean) :=
            count_bins (b_bins st) (Z.to_nat (bin_stop_ind - bin_start_ind))
              bin_start_ind 1 0 0 in
          if c_count <? MIN_SIZE then
            cluster_bins fuel' h_floor_val bin_width_2log bin_width
              (mkBins z (b_c_ind st) (b_bins st) (b_next_floor st) overlap true)
              (Z.max bin_start_ind bin_stop_ind)
          else
            let bins :=
              zero_bins (b_bins st) (Z.to_nat (bin_stop_ind - bin_start_ind))
                bin_start_ind in
            let z :=
              record_cluster z (b_c_ind st) c_count
                (cluster_center_of bin_start_ind bin_width_2log h_floor_val
                   bin_width bin_mean c_count)
                (bin_base bin_start_ind bin_width_2log h_floor_val)
                (bin_base bin_stop_ind bin_width_2log h_floor_val) in
            let c_ind := u8 (b_c_ind st + 1) in
            if NC <=? c_ind
            then Some (CRC_3,
                       mkBins (set_cluster_size z NC) c_ind bins
                         (b_next_floor st) overlap (b_outlier_presence st))
            else
              cluster_bins fuel' h_floor_val bin_width_2log bin_width
                (mkBins z c_ind bins (b_next_floor st) overlap
                   (b_outlier_presence st))
                bin_stop_ind
  end.

(** The outlier sieving (2.1.1.2.3) over the hit list, [n] hits left. *)
Fixpoint sieve (n : nat) (v hits : list Z) (h_floor_val bin_width_2log : Z)
    (z : categories) (bins : list Z) (h_ind : Z)
  : Z * categories * list Z :=
  match n with
  | O => (CRC_0, z, bins)
  | S n' =>
      let v_ind := rd hits h_ind in
      let b_ind := bin_of (rd v v_ind) h_floor_val bin_width_2log in
      if 0 <? rd bins b_ind then
        if NO <=? outlier_size z then (CRC_5, z, bins)
        else
          sieve n' v hits h_floor_val bin_width_2log
            (set_outliers z (u8 (outlier_size z + 1))
               (wr (outlier_ind z) (outlier_size z) v_ind))
            (wr bins b_ind (rd bins b_ind - 1)) (h_ind + 1)
      else sieve n' v hits h_floor_val bin_width_2log z bins (h_ind + 1)
  end.

(** [while (h_next_floor >= h_width) { bin_width_2log++; bin_width<<= 1;
    h_width+= NB * (uint32_t)bin_width; }] *)
Fixpoint widen (fuel : nat) (h_next_floor h_width bin_width_2log bin_width : Z)
  : option (Z * Z) :=
  match fuel with
  | O => None
  | S fuel' =>
      if h_width <=? h_next_floor then
        let bin_width := u16 (Z.shiftl bin_width 1) in
        widen fuel' h_next_floor (u32 (h_width + NB * bin_width))
          (u8 (bin_width_2log + 1)) bin_width
      else Some (bin_width_2log, bin_width)
  end.

(** The state carried from one histogram to the next. *)
Record histo_state : Type := mkHisto {
  h_z : categories;
  h_c_ind : Z;
  h_bins : list Z;
  h_hits : list Z;
  h_next_floor : Z;
  h_bin_width_2log : Z;
  h_bin_width : Z;
  h_overlap : bool
}.

Definition h_ceil_of (h_floor_val bin_width : Z) : Z :=
  let h_width := u32 (h_floor_val + u32 (NB * bin_width)) in
  if CEIL_U <? h_width then CEIL_U else h_width.

(** One pass of the histogram loop (2.1.1.2) up to the test
    [h_next_floor == CEIL_U]: bin filling, bin clustering, outlier sieving.
    The result is the return code, the state, and the ceil of the histogram;
    [None] only if the bin clustering runs out of fuel. *)
Definition histogram_pass (v : list Z) (v_start_ind v_stop_ind : Z)
    (st : histo_state) : option (Z * histo_state * Z) :=
  let h_floor_val := h_next_floor st in
  let h_ceil_val := h_ceil_of h_floor_val (h_bin_width st) in
  let lo := v_start_ind + BORDER_WIDTH in
  let hi := u16 (v_stop_ind - BORDER_WIDTH) in
  let '(rc, fs) :=
    fill_bins (steps2 lo hi) v h_floor_val h_ceil_val (h_bin_width_2log st)
      (mkFill (h_bins st) (h_hits st) 0 CEIL_U) lo in
  let st1 := mkHisto (h_z st) (h_c_ind st) (f_bins fs) (f_hits fs)
               (f_next_floor fs) (h_bin_width_2log st) (h_bin_width st)
               (h_overlap st) in
  if negb (rc =? CRC_0) then Some (rc, st1, h_ceil_val)
  else
    match cluster_bins 33 h_floor_val (h_bin_width_2log st) (h_bin_width st)
            (mkBins (h_z st) (h_c_ind st) (f_bins fs) (f_next_floor fs)
               (h_overlap st) false) 0 with
    | None => None
    | Some (rc, bs) =>
        let st2 := mkHisto (b_z bs) (b_c_ind bs) (b_bins bs) (f_hits fs)
                     (b_next_floor bs) (h_bin_width_2log st) (h_bin_width st)
                     (b_overlap bs) in
        if negb (rc =? CRC_0) then Some (rc, st2, h_ceil_val)
        else if b_outlier_presence bs then
          let '(rc, z, bins) :=
            sieve (Z.to_nat (f_h_count fs)) v (f_hits fs) h_floor_val
              (h_bin_width_2log st) (b_z bs) (b_bins bs) 0 in
          Some (rc, mkHisto z (b_c_ind bs) bins (f_hits fs) (b_next_floor bs)
                      (h_bin_width_2log st) (h_bin_width st) (b_overlap bs),
                h_ceil_val)
        else Some (CRC_0, st2, h_ceil_val)
    end.

(** The histogram main loop, [while (true) { ... }], with [fuel] passes
    allowed. *)
Fixpoint histogram_loop (fuel : nat) (v : list Z) (v_start_ind v_stop_ind : Z)
    (st : histo_state) : option (Z * histo_state) :=
  match fuel with
  | O => None
  | S fuel' =>
      match histogram_pass v v_start_ind v_stop_ind st with
      | None => None
      | Some (rc, st, h_ceil_val) =>
          if negb (rc =? CRC_0) then Some (rc, st)
          else if h_next_floor st =? CEIL_U then Some (CRC_0, st)
          else
            let h_next_floor := u16 (h_next_floor st - h_bin_width st) in
            match widen 17 h_next_floor h_ceil_val (h_bin_width_2log st)
                    (h_bin_width st) with
            | None => None
            | Some (w, bw) =>
                histogram_loop fuel' v v_start_ind v_stop_ind
                  (mkHisto (h_z st) (h_c_ind st) (h_bins st) (h_hits st)
                     h_next_floor w bw (h_overlap st))
            end
      end
  end.

(** The initialisation of the clusterer: the sizes are reset, the tables
    keep what they held. *)
Definition init_categories (z : categories) : categories :=
  mkCategories 0 (cluster_count z) (cluster_ceil z) (cluster_center z)
    (cluster_floor z) 0 (outlier_ind z) 0 0 (aggreg_center z)
    (separator_barrier z) 0.

(** 2.1.1 Histogram clustering: return code, [z], the overlap flag and the
    hit buffer. *)
Definition histogram_clustering (fuel : nat) (z : categories) (v : list Z)
    (v_start_ind v_stop_ind : Z) (overlap_flag : bool) (h_hit_ind : list Z)
  : option (Z * categories * bool * list Z) :=
  match histogram_loop fuel v v_start_ind v_stop_ind
          (mkHisto (init_categories z) 0 (repeat 0 (Z.to_nat NB)) h_hit_ind
             START_VAL 4 (Z.shiftl 1 4) overlap_flag) with
  | None => None
  | Some (rc, st) =>
      if negb (rc =? CRC_0)
      then Some (rc, h_z st, h_overlap st, h_hits st)
      else
        let z := set_cluster_size (h_z st) (h_c_ind st) in
        if cluster_size z =? 0
        then Some (CRC_7, z, h_overlap st, h_hits st)
        else Some (CRC_0, z, h_overlap st, h_hits st)
  end.

(** ** 2.1.2 Post-clustering *)

Definition push_outlier (z : categories) (v_ind : Z) : categories :=
  set_outliers z (u8 (outlier_size z + 1))
    (wr (outlier_ind z) (outlier_size z) v_ind).

(** 2.1.2.1.1 border values classification:
    [for (v_ind= v_start_ind; v_ind <= v_stop_ind; v_ind+= 2)] with the jump
    over the values between the borders; [fuel] iterations allowed. *)
Fixpoint border_loop (fuel : nat) (z : categories) (v : list Z)
    (v_start_ind v_stop_ind v_ind : Z) : option (Z * categories) :=
  match fuel with
  | O => None
  | S fuel' =>
      if v_stop_ind <? v_ind then Some (CRC_0, z)
      else
        let v_ind := if v_ind =? v_start_ind + BORDER_WIDTH
                     then u16 (v_stop_ind - BORDER_WIDTH + 2) else v_ind in
        let next z := border_loop fuel' z v v_start_ind v_stop_ind (v_ind + 2) in
        if unreliable (rd v v_ind) then next z
        else if (v_ind <? v_stop_ind) && unreliable (rd v (v_ind + 1))
        then next z
        else if (v_start_ind <? v_ind) && unreliable (rd v (v_ind - 1))
        then next z
        else if (classifier z (rd v v_ind) C_OPT_3).1.1 then next z
        else if 1 <? v_ind then
          if NO <=? outlier_size z then Some (CRC_5, z)
          else next (push_outlier z v_ind)
        else next z
  end.

(** The elimination of the aggregated outliers: the outliers [k ..] that
    are still not classifiable are moved down to [o_ind ..]; returns the
    table and [o_ind]. *)
Fixpoint prune_outliers (n : nat) (z : categories) (v : list Z)
    (outliers : list Z) (k o_ind : Z) : list Z * Z :=
  match n with
  | O => (outliers, o_ind)
  | S n' =>
      let v_ind := rd outliers k in
      if (classifier z (rd v v_ind) C_OPT_3).1.1
      then prune_outliers n' z v outliers (k + 1) o_ind
      else prune_outliers n' z v (wr outliers o_ind (rd outliers k)) (k + 1)
             (u8 (o_ind + 1))
  end.

(** 2.1.2.2 the separator barrier.  [separator_of v_old_barrier] is the
    value assigned to [z.separator_barrier]. *)
Definition separator_of (v_old_barrier : Z) : Z :=
  if v_old_barrier <? CEIL_U / 10 then u16 (10 * v_old_barrier) else CEIL_U.

(** The inner [for] loop: the highest outlier value below the separator
    barrier, starting from [v_new_barrier]. *)
Fixpoint highest_below (n : nat) (v outliers : list Z) (barrier : Z)
    (o_ind v_new_barrier : Z) : Z :=
  match n with
  | O => v_new_barrier
  | S n' =>
      let v_val := rd v (rd outliers o_ind) in
      highest_below n' v outliers barrier (o_ind + 1)
        (if (v_val <? barrier) && (v_new_barrier <? v_val)
         then v_val else v_new_barrier)
  end.

(** [while (v_new_barrier > v_old_barrier) { ... }] with [fuel] iterations
    allowed. *)
Fixpoint barrier_loop (fuel : nat) (z : categories) (v : list Z)
    (v_old_barrier v_new_barrier : Z) : option categories :=
  match fuel with
  | O => None
  | S fuel' =>
      if v_old_barrier <? v_new_barrier then
        let v_old_barrier := v_new_barrier in
        let z := set_barrier z (separator_of v_old_barrier) in
        barrier_loop fuel' z v v_old_barrier
          (highest_below (Z.to_nat (outlier_size z)) v (outlier_ind z)
             (separator_barrier z) 0 0)
      else Some z
  end.

Definition find_barrier (z : categories) (v : list Z) : option categories :=
  barrier_loop (Z.to_nat (outlier_size z) + 2) z v 0
    (rd (cluster_ceil z) (u8 (cluster_size z - 1))).

(** 2.1.2 Post-clustering as a whole: return code and [z]. *)
Definition post_clustering (z : categories) (v : list Z)
    (v_start_ind v_stop_ind : Z) : option (Z * categories) :=
  match border_loop (S (Z.to_nat v_stop_ind)) z v v_start_ind v_stop_ind
          v_start_ind with
  | None => None
  | Some (rc, z) =>
      if negb (rc =? CRC_0) then Some (rc, z)
      else
        let '(z, rc) := aggregator z v MIN_SIZE in
        let z := set_aggreg_size_1 z (aggreg_size_2 z) in
        if CRC_0 <? rc then Some (rc, z)
        else
          let '(outliers, o_ind) :=
            prune_outliers (Z.to_nat (outlier_size z)) z v (outlier_ind z) 0 0 in
          let z := set_outliers z o_ind outliers in
          match find_barrier z v with
          | None => None
          | Some z =>
              Some (CRC_0,
                    set_outliers z (outlier_size z)
                      (sort (outlier_ind z) (outlier_size z)))
          end
  end.

(** [clusterer (z, v, v_start_ind, v_stop_ind, overlap_flag, rc, bin_count,
    h_hit_ind)]: the return code, [z], the overlap flag and the hit buffer
    as the call leaves them; [v] is only read.  [None]: the histogram loop
    did not end within [fuel] passes. *)
Definition clusterer (fuel : nat) (z : categories) (v : list Z)
    (v_start_ind v_stop_ind : Z) (overlap_flag : bool) (h_hit_ind : list Z)
  : option (Z * categories * bool * list Z) :=
  match histogram_clustering fuel z v v_start_ind v_stop_ind overlap_flag
          h_hit_ind with
  | None => None
  | Some (rc, z, overlap_flag, h_hit_ind) =>
      if negb (rc =? CRC_0) then Some (rc, z, overlap_flag, h_hit_ind)
      else
        match post_clustering z v v_start_ind v_stop_ind with
        | None => None
        | Some (rc, z) => Some (rc, z, overlap_flag, h_hit_ind)
        end
  end.

(** ** 2.2 corrector *)

(** What C leaves undefined, and the end of the fuel of the model. *)
Inductive fault : Type :=
  | OutOfFuel
  | DivisionByZero
  | OutOfBounds (index : Z).

(** The two category sets [z[LOW]] and [z[HIGH]], selected by the least
    significant bit of a value index. *)
Definition category_pair : Type := categories * categories.

Definition zget (zz : category_pair) (v_ind : Z) : categories :=
  if Z.land v_ind LSB =? HIGH then zz.2 else zz.1.

Definition zset (zz : category_pair) (v_ind : Z) (z : categories)
  : category_pair :=
  if Z.land v_ind LSB =? HIGH then (zz.1, z) else (z, zz.2).

(** [1000 * abs (v_sum - cat_sum) / v_sum], stored in a [uint16_t]. *)
Definition rel_delta_of (v_sum cat_sum : Z) : Z :=
  u16 (Z.quot (1000 * Z.abs (v_sum - cat_sum)) v_sum).

(** The state of the scan of the merged outliers. *)
Record scan_state : Type := mkScan {
  s_v : list Z;
  s_m : list Z
}.

(** The body of [for (m_ind= m_outlier_size - 1; m_ind >= 0; m_ind--)]
    (2.2.1.1 and 2.2.1.2) at position [m_ind]: the state and the [m_ind] the
    body leaves.  The read of [m_outlier_ind[m_ind - 1]] is checked against
    the buffer. *)
Definition scan_outlier (zz : category_pair) (v_start_ind v_stop_ind : Z)
    (st : scan_state) (m_ind : Z) : scan_state * Z + fault :=
  let v := s_v st in
  let curr_v_ind := rd (s_m st) m_ind in
  if separator_barrier (zget zz curr_v_ind) <? rd v curr_v_ind
  then inl (st, m_ind)                               (* top-outlier *)
  else
    let prev_v_ind := u16 (curr_v_ind - 1) in
    let next_v_ind := u16 (curr_v_ind + 1) in
    let has_prev := v_start_ind <=? prev_v_ind in
    let has_next := next_v_ind <=? v_stop_ind in
    let cp := classifier (zget zz prev_v_ind) (rd v prev_v_ind) C_OPT_2 in
    let cn := classifier (zget zz next_v_ind) (rd v next_v_ind) C_OPT_2 in
    let cc := classifier (zget zz curr_v_ind) (rd v curr_v_ind) C_OPT_2 in
    let prev_center := if has_prev then cp.2 else 0 in
    let next_center := if has_next then cn.2 else 0 in
    let curr_center := cc.2 in
    let flag := if has_prev then cp.1.1 else false in
    let flag := if has_next then cn.1.1 && flag else flag in
    let flag := cc.1.1 || flag in
    let t_center_sum := (if has_prev then prev_center else 0)
                        + (if has_next then next_center else 0) in
    let v_sum := rd v curr_v_ind
                 + (if has_prev then rd v prev_v_ind else 0)
                 + (if has_next then rd v next_v_ind else 0) in
    if v_sum =? 0 then inr DivisionByZero
    else
      let rel_delta := rel_delta_of v_sum (t_center_sum + rd v curr_v_ind) in
      let rel_delta_cor := rel_delta_of v_sum (t_center_sum + curr_center) in
      if negb flag || (rel_delta <? rel_delta_cor)
      then inl (st, m_ind)                           (* resistant outlier *)
      else
        (* correctable outlier: modify raw data *)
        let v := if has_prev then wr v prev_v_ind (Z.land prev_center MSB)
                 else v in
        let v := wr v curr_v_ind (Z.land curr_center MSB) in
        let v := if has_next then wr v next_v_ind (Z.land next_center MSB)
                 else v in
        let m := wr (s_m st) m_ind 0 in
        (* check if the preceding value is also an outlier *)
        if (m_ind - 1 <? 0) || (DIM_64 <=? m_ind - 1)
        then inr (OutOfBounds (m_ind - 1))
        else if rd m (m_ind - 1) =? prev_v_ind
        then inl (mkScan (wr v prev_v_ind prev_center) (wr m (m_ind - 1) 0),
                  m_ind - 1)
        else inl (mkScan v m, m_ind).

(** The scan loop with [fuel] iterations allowed. *)
Fixpoint scan_outliers (fuel : nat) (zz : category_pair)
    (v_start_ind v_stop_ind : Z) (st : scan_state) (m_ind : Z)
  : scan_state + fault :=
  match fuel with
  | O => if m_ind <? 0 then inl st else inr OutOfFuel
  | S fuel' =>
      if m_ind <? 0 then inl st
      else
        match scan_outlier zz v_start_ind v_stop_ind st m_ind with
        | inr f => inr f
        | inl (st, m_ind) =>
            scan_outliers fuel' zz v_start_ind v_stop_ind st (m_ind - 1)
        end
  end.

(** The split of the remaining merged outliers; a store past the end of an
    outlier table is a fault. *)
Fixpoint split_outliers (n : nat) (zz : category_pair) (m : list Z)
    (m_ind : Z) : category_pair + fault :=
  match n with
  | O => inl zz
  | S n' =>
      let curr_v_ind := rd m m_ind in
      if curr_v_ind =? 0 then split_outliers n' zz m (m_ind + 1)
      else
        let z := zget zz curr_v_ind in
        if NO <=? outlier_size z then inr (OutOfBounds (outlier_size z))
        else split_outliers n' (zset zz curr_v_ind (push_outlier z curr_v_ind))
               m (m_ind + 1)
  end.

(** 2.2.1 Outlier correction: return code, category sets, [v] and the
    merged-outlier buffer; the flag tells that the corrector returned from
    inside this part. *)
Definition outlier_correction (zz : category_pair) (v : list Z)
    (v_start_ind v_stop_ind : Z) (m_outlier_ind : list Z)
  : Z * category_pair * list Z * list Z * bool + fault :=
  let zh := zz.2 in
  let zl := zz.1 in
  if NM <? outlier_size zh + outlier_size zl
  then inl (CRC_16, zz, v, m_outlier_ind, true)
  else
    let '(m, m_outlier_size) :=
      merge (outlier_ind zh) (outlier_size zh) (outlier_ind zl)
        (outlier_size zl) m_outlier_ind in
    if m_outlier_size =? 0 then inl (CRC_0, zz, v, m, true)
    else
      match scan_outliers (Z.to_nat m_outlier_size) zz v_start_ind v_stop_ind
              (mkScan v m) (m_outlier_size - 1) with
      | inr f => inr f
      | inl st =>
          let zz0 := (set_outliers zl 0 (outlier_ind zl),
                      set_outliers zh 0 (outlier_ind zh)) in
          match split_outliers (Z.to_nat m_outlier_size) zz0 (s_m st) 0 with
          | inr f => inr f
          | inl zz =>
              let '(zh, rc) := aggregator zz.2 (s_v st) 0 in
              if CRC_0 <? rc then inl (rc, (zz.1, zh), s_v st, s_m st, true)
              else
                let '(zl, rc) := aggregator zz.1 (s_v st) 0 in
                inl (rc, (zl, zh), s_v st, s_m st, false)
          end
      end.

(** 2.2.2.1 unreliable top-values preprocessing over the window, [n]
    elements left: return code, category sets, and whether the corrector
    returned with [CRC_5]. *)
Fixpoint promote_top (n : nat) (zz : category_pair) (v : list Z)
    (v_ind rc : Z) : Z * category_pair * bool :=
  match n with
  | O => (rc, zz, false)
  | S n' =>
      let z := zget zz v_ind in
      if separator_barrier z <? rd v v_ind then
        if NO <=? outlier_size z then (CRC_5, zz, true)
        else
          let '(z', rc') := aggregator (push_outlier z v_ind) v 0 in
          promote_top n' (zset zz v_ind z') v (v_ind + 1) rc'
      else promote_top n' zz v (v_ind + 1) rc
  end.

(** The state of the best-fit evaluation (2.2.2.2). *)
Record fit_state : Type := mkFit {
  fit_flag : bool;
  fit_v_sum : Z;
  fit_cat_sum : Z;
  fit_ss_cat : list Z
}.

Fixpoint best_fit (n : nat) (zz : category_pair) (v : list Z)
    (v_ind ss_ind : Z) (st : fit_state) : fit_state :=
  match n with
  | O => st
  | S n' =>
      let '(near, _, cat_val) :=
        classifier (zget zz v_ind) (rd v v_ind) C_OPT_3 in
      best_fit n' zz v (v_ind + 1) (u8 (ss_ind + 1))
        (mkFit (near && fit_flag st) (fit_v_sum st + rd v v_ind)
           (fit_cat_sum st + cat_val) (wr (fit_ss_cat st) ss_ind cat_val))
  end.

(** [for (...) v[v_ind]= ss_cat[ss_ind++];] *)
Fixpoint overwrite (n : nat) (v ss_cat : list Z) (v_ind ss_ind : Z) : list Z :=
  match n with
  | O => v
  | S n' => overwrite n' (wr v v_ind (rd ss_cat ss_ind)) ss_cat (v_ind + 1)
              (u8 (ss_ind + 1))
  end.

(** What one pass of the loop over the untrusted windows leaves. *)
Record window_result : Type := mkWindow {
  w_rc : Z;
  w_zz : category_pair;
  w_v : list Z;
  w_ss_cat : list Z;
  w_returned : bool
}.

(** The body of [while (extractor (...)) { ... }] for the window
    [ss_start_ind .. ss_stop_ind]. *)
Definition process_window (zz : category_pair) (v ss_cat : list Z)
    (ss_start_ind ss_stop_ind rc : Z) : window_result + fault :=
  let ss_len := u16 (ss_stop_ind - ss_start_ind + 1) in
  if (ss_len <? 4) || (5 <? ss_len)
  then inl (mkWindow CRC_2 zz v ss_cat true)
  else
    let n := Z.to_nat (ss_stop_ind - ss_start_ind + 1) in
    let '(rc, zz, returned) := promote_top n zz v ss_start_ind rc in
    if returned then inl (mkWindow rc zz v ss_cat true)
    else
      let fit := best_fit n zz v ss_start_ind 0 (mkFit true 0 0 ss_cat) in
      let ss_cat := fit_ss_cat fit in
      if fit_v_sum fit =? 0 then inr DivisionByZero
      else
        let rel_delta := rel_delta_of (fit_v_sum fit) (fit_cat_sum fit) in
        if fit_flag fit
        then inl (mkWindow rc zz (overwrite n v ss_cat ss_start_ind 0) ss_cat
                    false)
        else
          match resorber (zget zz (ss_start_ind + 1)) v ss_cat ss_start_ind
                  ss_stop_ind rel_delta with
          | None => inr DivisionByZero
          | Some (true, z, v, _, rc) =>
              inl (mkWindow rc (zset zz (ss_start_ind + 1) z) v ss_cat false)
          | Some (false, z, v, _, rc) =>
              let zz := zset zz (ss_start_ind + 1) z in
              if CRC_0 <? rc then inl (mkWindow rc zz v ss_cat true)
              else inl (mkWindow rc zz (overwrite n v ss_cat ss_start_ind 0)
                          ss_cat false)
          end.

(** 2.2.2 the loop over the untrusted windows, [fuel] windows allowed.
    [log] is the list of the windows the loop printed after "indices :". *)
Fixpoint untrusted_loop (fuel : nat) (zz : category_pair) (v ss_cat : list Z)
    (v_stop_ind extractor_ind rc : Z) (log : list (Z * Z))
  : Z * category_pair * list Z * list (Z * Z) + fault :=
  match fuel with
  | O => inr OutOfFuel
  | S fuel' =>
      let '(found, extractor_ind, ss_start_ind, ss_stop_ind) :=
        extractor v v_stop_ind extractor_ind in
      if negb found then inl (rc, zz, v, log)
      else
        let log := log ++ [(ss_start_ind, ss_stop_ind)] in
        match process_window zz v ss_cat ss_start_ind ss_stop_ind rc with
        | inr f => inr f
        | inl w =>
            if w_returned w then inl (w_rc w, w_zz w, w_v w, log)
            else untrusted_loop fuel' (w_zz w) (w_v w) (w_ss_cat w) v_stop_ind
                   extractor_ind (w_rc w) log
        end
  end.

(** [corrector (z, v, v_length, unreliable_count, rc, m_outlier_ind)]: the
    return code, the category sets, [v], the buffer and the windows
    printed. *)
Definition corrector (zz : category_pair) (v : list Z)
    (v_length unreliable_count : Z) (m_outlier_ind : list Z)
  : Z * category_pair * list Z * list Z * list (Z * Z) + fault :=
  if (cluster_size zz.2 =? 0) || (cluster_size zz.2 =? 0)
  then inl (CRC_7, zz, v, m_outlier_ind, [])
  else
    let v_start_ind := 1 in
    let v_stop_ind := v_length in
    let part1 :=
      if (0 <? outlier_size zz.2) || (0 <? outlier_size zz.1)
      then outlier_correction zz v v_start_ind v_stop_ind m_outlier_ind
      else inl (CRC_0, zz, v, m_outlier_ind, false) in
    match part1 with
    | inr f => inr f
    | inl (rc, zz, v, m, returned) =>
        if returned || (CRC_0 <? rc) then inl (rc, zz, v, m, [])
        else if 0 <? unreliable_count then
          match untrusted_loop (S (Z.to_nat v_stop_ind)) zz v (repeat 0 5)
                  v_stop_ind (v_start_ind + BORDER_WIDTH) rc [] with
          | inr f => inr f
          | inl (rc, zz, v, log) => inl (rc, zz, v, m, log)
          end
        else inl (rc, zz, v, m, [])
    end.

(** ** 3.5 sequence_printer: the rows of the categorized sequence *)

(** [_pd] and [_pc] are both [Serial.print]: for an integer it prints the
    decimal digits, here as character codes.  [fuel] bounds the number of
    digits: an [int] has at most 5. *)
Fixpoint print_digits (fuel : nat) (n : Z) (acc : list Z) : list Z :=
  match fuel with
  | O => acc
  | S fuel' =>
      let acc := (48 + n mod 10) :: acc in
      if n / 10 =? 0 then acc else print_digits fuel' (n / 10) acc
  end.

Definition Serial_print (n : Z) : list Z := print_digits 5 n [].

(** The characters printed for one value, as character codes: a category
    index below 10 is printed as its digit, and [_pc (87 + cat_ind)] prints
    the decimal digits of the [int] [87 + cat_ind]. *)
Definition category_char (z : categories) (v_val : Z) : list Z :=
  if v_val =? 0 then [32]                                       (* " " *)
  else if separator_barrier z <=? v_val then [42]               (* "*" *)
  else
    let '(near, cat_ind, cat_val) := classifier z v_val C_OPT_3 in
    if near then
      (if cat_ind <? 10 then Serial_print cat_ind
       else Serial_print (87 + cat_ind))
    else if (cat_ind =? 0) && (v_val <? cat_val) then [45]       (* "-" *)
    else [63].                                                  (* "?" *)

Definition marking_char (v_val : Z) : list Z :=
  if v_val =? 0 then [32] else if reliable v_val then [32] else [33]. (* "!" *)

(** [for (v_ind= ...; v_ind <= v_length; v_ind+= 2)] collecting what [f]
    prints for each value. *)
Fixpoint row (n : nat) (f : Z -> list Z) (v : list Z) (v_ind : Z)
  : list (list Z) :=
  match n with
  | O => []
  | S n' => f (rd v v_ind) :: row n' f v (v_ind + 2)
  end.

(** End handling: the two values after [v_length] are (0, 0) or (x, CEIL);
    in the second case they are printed too. *)
Definition printed_length (v : list Z) (v_length : Z) : Z :=
  if negb (rd v (v_length + 1) =? 0) && negb (rd v (v_length + 2) =? 0)
  then v_length + 2 else v_length.

(** The four rows: HIGH marking, HIGH categories, LOW categories, LOW
    marking. *)
Definition sequence_printer (zz : category_pair) (v : list Z) (v_length : Z)
  : list (list (list Z)) :=
  let v_length := printed_length v v_length in
  let r z_ind f := row (steps2 (2 - z_ind) v_length) f v (2 - z_ind) in
  [ r HIGH marking_char; r HIGH (category_char zz.2);
    r LOW (category_char zz.1); r LOW marking_char ].


(** ** categorizer *)

(** What the categorizer leaves: the return code, the two category sets,
    the signal sequence, the 16-bit buffer and the printed rows (none when
    it returns before the printer). *)
Record categorized : Type := mkCategorized {
  c_rc : Z;
  c_zz : category_pair;
  c_v : list Z;
  c_buf : list Z;
  c_corrected : bool;
  c_rows : list (list (list Z))
}.

(** [c_corrected] records whether the corrector was invoked. *)
Definition categorizer (fuel : nat) (zz : category_pair)
    (signal_duration : list Z) (sequence_length unreliable_count : Z)
    (uint16buf64 : list Z) : categorized + fault :=
  match clusterer fuel zz.2 signal_duration (2 - HIGH)
          (u16 (sequence_length - HIGH)) false uint16buf64 with
  | None => inr OutOfFuel
  | Some (rc, zh, cluster_overlap, buf) =>
      if negb (rc =? CRC_0)
      then inl (mkCategorized rc (zz.1, zh) signal_duration buf false [])
      else
        match clusterer fuel zz.1 signal_duration (2 - LOW)
                (u16 (sequence_length - LOW)) cluster_overlap buf with
        | None => inr OutOfFuel
        | Some (rc, zl, cluster_overlap, buf) =>
            if negb (rc =? CRC_0)
            then inl (mkCategorized rc (zl, zh) signal_duration buf false [])
            else if negb cluster_overlap then
              match corrector (zl, zh) signal_duration sequence_length
                      unreliable_count buf with
              | inr f => inr f
              | inl (rc, zz, v, buf, _) =>
                  if negb (rc =? CRC_0)
                  then inl (mkCategorized rc zz v buf true [])
                  else inl (mkCategorized CRC_0 zz v buf true
                              (sequence_printer zz v sequence_length))
              end
            else
              inl (mkCategorized CRC_0 (zl, zh) signal_duration buf false
                     (sequence_printer (zl, zh) signal_duration
                        sequence_length))
        end
  end.

(** The record the resorber leaves when it accepts category [cat_ind]: an
    aggregation is entered in the outlier list. *)
Definition resorber_categories (z : categories) (ss_start_ind cat_ind : Z)
  : categories :=
  if cluster_size z <=? cat_ind
  then set_outliers z (u8 (outlier_size z + 1))
         (wr (outlier_ind z) (outlier_size z) (u16 (ss_start_ind + 1)))
  else z.

(** ** Sample data: a spike inside a quintuple *)

(** One cluster [900, 1000) with center 950, no aggregation. *)
Definition spike_z : categories :=
  mkCategories 1 [5;0;0;0;0;0;0;0] [1000;0;0;0;0;0;0;0] [950;0;0;0;0;0;0;0]
    [900;0;0;0;0;0;0;0] 0 (repeat 0 16) 0 0 (repeat 0 8) 10000 0.

(** The window [v[1..5]] and the nearest centers of its borders. *)
Definition spike_v : list Z := [0; 400; 461; 51; 451; 1200; 400; 0; 0].
Definition spike_cat : list Z := [400; 950; 950; 950; 1200].

(** The same cluster with an aggregation at 2000 and a full outlier table. *)
Definition full_z : categories :=
  mkCategories 1 [5;0;0;0;0;0;0;0] [1000;0;0;0;0;0;0;0] [950;0;0;0;0;0;0;0]
    [900;0;0;0;0;0;0;0] 16 (repeat 2 16) 0 1 [2000;0;0;0;0;0;0;0] 10000 0.
Definition full_v : list Z := [0; 400; 901; 201; 901; 1200; 400; 0; 0].

(** The statement that acceptance needs a strictly smaller relative delta. *)
Definition accepts_iff_strictly_smaller (z : categories) (v ss_cat : list Z)
    (ss_start_ind ss_stop_ind rel_delta : Z) : Prop :=
  forall cat_ind cat_val r,
    triple_category z v ss_cat ss_start_ind rel_delta = (true, cat_ind, cat_val) ->
    resorber z v ss_cat ss_start_ind ss_stop_ind rel_delta = Some r ->
    (r.1.1.1.1 = true
     <-> resorber_rel_delta v ss_cat ss_start_ind cat_val < rel_delta).

(** Two clusters, [386, 418) around 400 and [1186, 1218) around 1200, and
    one aggregation at 640. *)
Definition two_level_z : categories :=
  mkCategories 2 [9;7;0;0;0;0;0;0] [418;1218;0;0;0;0;0;0]
    [400;1200;0;0;0;0;0;0] [386;1186;0;0;0;0;0;0] 0 (repeat 0 16) 0 1
    [640;0;0;0;0;0;0;0] 12180 0.

(** A window of the untrusted pass has a legal length: 4 or 5. *)
Definition legal_length (w : Z * Z) : Prop :=
  u16 (w.2 - w.1 + 1) = 4 \/ u16 (w.2 - w.1 + 1) = 5.

(** ** Sample traces *)

(** Category sets and buffer before the first trace. *)
Definition blank_categories : categories :=
  mkCategories 0 (repeat 0 8) (repeat 0 8) (repeat 0 8) (repeat 0 8) 0
    (repeat 0 16) 0 0 (repeat 0 8) 0 0.
Definition blank_buffer : list Z := repeat 0 (Z.to_nat DIM_64).

(** A recorded trace: position 0 is unused, then the (HIGH, LOW) pairs, then
    the end record [(x, CEIL)]. *)
Definition trace_of (pairs : list (Z * Z)) : list Z :=
  0 :: flat_map (fun p => [p.1; p.2]) pairs ++ [400; CEIL; 0].

(** Twenty pairs (400, 1200) with one HIGH of 450 between two LOWs of 1160
    at the indices 20, 21 and 22. *)
Definition single_outlier_trace : list Z :=
  trace_of (repeat (400, 1200) 9 ++ [(400, 1160); (450, 1160)]
            ++ repeat (400, 1200) 9).


(** One cluster per polarity: LOW around 1200, HIGH around 400. *)
Definition level_z (floor center ceil : Z) : categories :=
  mkCategories 1 [12;0;0;0;0;0;0;0] [ceil;0;0;0;0;0;0;0]
    [center;0;0;0;0;0;0;0] [floor;0;0;0;0;0;0;0] 0 (repeat 0 16) 0 0
    (repeat 0 8) (10 * ceil) 0.
Definition levels_zz : category_pair :=
  (level_z 1184 1200 1216, level_z 386 394 402).

(** Twenty pairs (400, 1200) with a single flagged HIGH at index 21. *)
Definition lone_unreliable_trace : list Z :=
  trace_of (repeat (400, 1200) 10 ++ [(401, 1200)] ++ repeat (400, 1200) 9).

(** A category set as a previous trace left it, with a separator barrier
    of 4020. *)
Definition stale_categories : categories :=
  mkCategories 1 [12;0;0;0;0;0;0;0] [402;0;0;0;0;0;0;0] [394;0;0;0;0;0;0;0]
    [386;0;0;0;0;0;0;0] 0 (repeat 0 16) 0 0 (repeat 0 8) 4020 0.

(** Twenty pairs whose HIGHs are all long: 64600, and 64528 at index 9. *)
Definition long_high_trace : list Z :=
  trace_of (repeat (64600, 1200) 4 ++ [(64528, 1200)]
            ++ repeat (64600, 1200) 15).

(** The clusters of [z] are in ascending order and do not overlap. *)
Definition clusters_ascending (z : categories) : Prop :=
  forall i j, 0 <= i -> i < j -> j < cluster_size z ->
    rd (cluster_ceil z) i <= rd (cluster_floor z) j.

(** The statement that the classifier always reports the nearest category:
    with at least one cluster, the clusters ascending and [v_val] inside
    none of them, [cat_ind] and [cat_val] are the nearest category, and
    the flag tells whether its distance is below [cat_val >> option]. *)
Definition reports_nearest_category (z : categories) (v_val option : Z)
  : Prop :=
  1 <= cluster_size z -> clusters_ascending z -> outside_clusters z v_val ->
  let '(near, cat_ind, cat_val) := classifier z v_val option in
  let '(n_ind, n_val, n_delta) := nearest_category z v_val in
  (near = true <-> n_delta < Z.shiftr cat_val option) /\
  cat_ind = n_ind /\ cat_val = n_val.

(** One cluster [150, 170) around 160 and one aggregation at 100. *)
Definition near_cluster_z : categories :=
  mkCategories 1 [5;0;0;0;0;0;0;0] [170;0;0;0;0;0;0;0] [160;0;0;0;0;0;0;0]
    [150;0;0;0;0;0;0;0] 0 (repeat 0 16) 0 1 [100;0;0;0;0;0;0;0] 1700 0.

(** The HIGH category set of [long_high_trace]: one cluster with floor
    64512 and center 65024, whose ceil 65536 is stored as 0. *)
Definition wrapped_ceil_z : categories :=
  mkCategories 1 [12;0;0;0;0;0;0;0] [0;0;0;0;0;0;0;0] [65024;0;0;0;0;0;0;0]
    [64512;0;0;0;0;0;0;0] 7 [3;5;7;33;35;37;39;0;0;0;0;0;0;0;0;0] 0 0
    (repeat 0 8) 4020 0.

(** ** Invariants of the clusterer *)

(** ** Invariants of the bin filling *)

(** The value indices the bin filling visits: [lo], [lo + 2], ... *)
Fixpoint indices (lo : Z) (n : nat) : list Z :=
  match n with
  | O => []
  | S n' => lo :: indices (lo + 2) n'
  end.

(** A visited value that is dropped into a bin of the histogram. *)
Definition binned (v : list Z) (h_floor_val h_ceil_val i : Z) : Prop :=
  trusted v i = true /\ h_floor_val <= rd v i < h_ceil_val.

(** The number of the hits [h_ind ..], [n] of them, that map to bin [b]. *)
Fixpoint hits_in (v hits : list Z) (h_floor_val bin_width_2log b : Z)
    (n : nat) (h_ind : Z) : Z :=
  match n with
  | O => 0
  | S n' =>
      (if bin_of (rd v (rd hits h_ind)) h_floor_val bin_width_2log =? b
       then 1 else 0)
      + hits_in v hits h_floor_val bin_width_2log b n' (h_ind + 1)
  end.

(** What the bin filling has established after the indices [seen]. *)
Record fill_inv (v : list Z) (h_floor_val h_ceil_val bin_width_2log : Z)
    (seen : list Z) (st : fill_state) : Prop := mkFillInv {
  fi_len : length (f_bins st) = 32%nat;
  fi_range : forall b, 0 <= b < 32 -> 0 <= rd (f_bins st) b <= 255;
  fi_occ : forall b, 0 <= b < 32 ->
    (0 < rd (f_bins st) b <->
     exists i, In i seen /\ binned v h_floor_val h_ceil_val i /\
       bin_of (rd v i) h_floor_val bin_width_2log = b);
  fi_hcount : 0 <= f_h_count st <= 64;
  fi_hlen : length (f_hits st) = 64%nat;
  fi_hits : forall b, 0 <= b < 32 ->
    hits_in v (f_hits st) h_floor_val bin_width_2log b
      (Z.to_nat (f_h_count st)) 0
    = Z.min (rd (f_bins st) b) 2;
  fi_hbin : forall j, 0 <= j < f_h_count st ->
    0 <= bin_of (rd v (rd (f_hits st) j)) h_floor_val bin_width_2log < 32;
  fi_nf_le : f_next_floor st <= CEIL_U;
  fi_nf_min : forall i, In i seen -> trusted v i = true ->
    h_floor_val <= rd v i -> h_ceil_val <= rd v i -> f_next_floor st <= rd v i;
  fi_nf_some : f_next_floor st < CEIL_U ->
    exists i, In i seen /\ trusted v i = true /\ rd v i = f_next_floor st /\
      h_ceil_val <= rd v i /\ h_floor_val <= rd v i
}.

(** ** Invariants of the bin clustering *)

(** The bins of one histogram: 32 counters of 8 bits. *)
Definition bins_ok (bins : list Z) : Prop :=
  length bins = 32%nat /\ forall k, 0 <= k < 32 -> 0 <= rd bins k <= 255.

(** No two consecutive empty bins from bin [from] on. *)
Definition no_gap (bins : list Z) (from : Z) : Prop :=
  forall k, from <= k -> k + 1 <= 31 ->
    0 < rd bins k \/ 0 < rd bins (k + 1).

(** The clusters [0 .. c - 1] recorded in [z]: fewer than [NC], each with at
    least [MIN_SIZE] values, ascending and disjoint, no ceil above [B]. *)
Record clusters_good (z : categories) (c B : Z) : Prop := mkGood {
  cg_c : 0 <= c < NC;
  cg_len_count : length (cluster_count z) = 8%nat;
  cg_len_ceil : length (cluster_ceil z) = 8%nat;
  cg_len_floor : length (cluster_floor z) = 8%nat;
  cg_len_center : length (cluster_center z) = 8%nat;
  cg_count : forall i, 0 <= i < c -> MIN_SIZE <= rd (cluster_count z) i;
  cg_asc : forall i j, 0 <= i -> i < j -> j < c ->
    rd (cluster_ceil z) i <= rd (cluster_floor z) j;
  cg_bound : forall i, 0 <= i < c -> rd (cluster_ceil z) i <= B
}.

(** [z] has the cluster tables of [z0]. *)
Definition same_cl (z0 z : categories) : Prop :=
  cluster_count z = cluster_count z0 /\ cluster_ceil z = cluster_ceil z0 /\
  cluster_floor z = cluster_floor z0 /\ cluster_center z = cluster_center z0.

(** [z] has the outliers, aggregations and barrier of [z0]. *)
Definition same_rest (z0 z : categories) : Prop :=
  outlier_size z = outlier_size z0 /\ outlier_ind z = outlier_ind z0 /\
  aggreg_size_1 z = aggreg_size_1 z0 /\ aggreg_size_2 z = aggreg_size_2 z0 /\
  aggreg_center z = aggreg_center z0 /\
  separator_barrier z = separator_barrier z0.

(** The invariant of the bin clustering loop at bin [b]: [fb] are the bins
    as they were filled, [z0], [c0] and [nf0] the categories, the cluster
    index and the next floor at the start of the loop. *)
Record cb_inv (f bw : Z) (fb : list Z) (z0 : categories) (c0 nf0 : Z)
    (st : bin_state) (b : Z) : Prop := mkCbInv {
  cb_b : 0 <= b <= 31;
  cb_len : length (b_bins st) = 32%nat;
  cb_above : forall k, b <= k < 32 -> rd (b_bins st) k = rd fb k;
  cb_below : forall k, 0 <= k < b ->
    rd (b_bins st) k = 0 \/
    (rd (b_bins st) k = rd fb k /\ rd fb k <= 2 /\
     b_outlier_presence st = true);
  cb_nf : b_next_floor st = nf0;
  cb_good : clusters_good (b_z st) (b_c_ind st) (f + b * bw);
  cb_rest : same_rest z0 (b_z st);
  cb_g : (b = 0 /\ b_c_ind st = c0 /\ same_cl z0 (b_z st)) \/
         (exists e, b <= e <= 30 /\ rd fb e = 0 /\ rd fb (e + 1) = 0)
}.

(** How the bin clustering ends: without a hand-over, or with the bins from
    [s] on handed to the next histogram. *)
Inductive cb_out (f bw : Z) (fb : list Z) (z0 : categories) (c0 nf0 : Z)
    (st' : bin_state) : Prop :=
  | out_exit :
      b_next_floor st' = nf0 -> rd fb 30 = 0 -> rd fb 31 = 0 ->
      clusters_good (b_z st') (b_c_ind st') (f + 30 * bw) ->
      cb_out f bw fb z0 c0 nf0 st'
  | out_requeue (s : Z) :
      0 <= s <= 31 -> b_next_floor st' = f + s * bw -> 0 < rd fb s ->
      (2 <= s /\ rd fb (s - 1) = 0 /\ rd fb (s - 2) = 0 /\
       clusters_good (b_z st') (b_c_ind st') (f + (s - 1) * bw))
      \/ (s = 1 /\ rd fb 0 = 0 /\ b_c_ind st' = c0 /\ same_cl z0 (b_z st') /\
          clusters_good (b_z st') (b_c_ind st') f)
      \/ (s = 0 /\ b_c_ind st' = c0 /\ same_cl z0 (b_z st') /\
          clusters_good (b_z st') (b_c_ind st') f /\ no_gap fb 1) ->
      cb_out f bw fb z0 c0 nf0 st'.

(** The bins at the end of the bin clustering: emptied, or a bin of a low
    density cluster, left for the outlier sieving. *)
Definition cb_final (f bw : Z) (fb : list Z) (z0 : categories) (c0 nf0 : Z)
    (st' : bin_state) : Prop :=
  length (b_bins st') = 32%nat /\
  (forall k, 0 <= k < 32 ->
     rd (b_bins st') k = 0 \/
     (rd (b_bins st') k = rd fb k /\ rd fb k <= 2 /\
      b_outlier_presence st' = true)) /\
  same_rest z0 (b_z st') /\
  cb_out f bw fb z0 c0 nf0 st'.

(** ** Invariants of the histogram loop *)

(** All bins empty. *)
Definition clean_bins (bins : list Z) : Prop :=
  length bins = 32%nat /\ forall k, 0 <= k < 32 -> rd bins k = 0.

(** The outliers fit their table; the clusterer has no aggregation yet. *)
Definition outliers_ok (z : categories) : Prop :=
  0 <= outlier_size z <= NO /\ aggreg_size_1 z = 0 /\ aggreg_size_2 z = 0.

(** Some trusted value visited by the bin filling lies in bin [k] of the
    histogram with floor [f], bin width [bw] and ceil [hc]. *)
Definition occupied (v : list Z) (lo : Z) (n : nat) (f bw hc k : Z) : Prop :=
  exists i, In i (indices lo n) /\ trusted v i = true /\
    f + k * bw <= rd v i < f + (k + 1) * bw /\ rd v i < hc.

(** No trusted value visited by the bin filling lies in [a, c). *)
Definition empty_range (v : list Z) (lo : Z) (n : nat) (a c : Z) : Prop :=
  forall i, In i (indices lo n) -> trusted v i = true ->
    ~ (a <= rd v i < c).

(** From bin [from] on, no two neighbouring bins are both without a value. *)
Definition no_gap_v (v : list Z) (lo : Z) (n : nat) (f bw hc from : Z) : Prop :=
  forall k, from <= k -> k + 1 <= 31 ->
    occupied v lo n f bw hc k \/ occupied v lo n f bw hc (k + 1).

(** What a pass of the histogram loop needs. *)
Record pass_pre (st : histo_state) : Prop := mkPassPre {
  pp_bins : clean_bins (h_bins st);
  pp_hits : length (h_hits st) = 64%nat;
  pp_w : 0 <= h_bin_width_2log st;
  pp_bw : h_bin_width st = 2 ^ h_bin_width_2log st;
  pp_bw_lt : h_bin_width st < 65536;
  pp_f : 0 <= h_next_floor st < 65536
}.

(** How a pass with return code 0 ends, in terms of the values: [z], [c]
    before and [z'], [c'], [nf'] after the pass over the histogram with
    floor [f], bin width [bw] and ceil [hc]. *)
Inductive pass_out (v : list Z) (lo : Z) (n : nat) (f bw hc : Z)
    (z : categories) (c : Z) (z' : categories) (c' nf' : Z) : Prop :=
  | pass_exit :
      clusters_good z' c' (f + 30 * bw) -> nf' <= CEIL_U ->
      ~ occupied v lo n f bw hc 30 -> ~ occupied v lo n f bw hc 31 ->
      (nf' < CEIL_U ->
       f + 32 * bw <= nf' /\ empty_range v lo n (f + 30 * bw) nf') ->
      ((forall k, 0 <= k < 32 -> ~ occupied v lo n f bw hc k) -> c' = c) ->
      pass_out v lo n f bw hc z c z' c' nf'
  | pass_requeue (s : Z) :
      0 <= s <= 31 -> nf' = f + s * bw -> f + s * bw < hc ->
      occupied v lo n f bw hc s ->
      (2 <= s /\ empty_range v lo n (f + (s - 2) * bw) (f + s * bw) /\
       clusters_good z' c' (f + (s - 1) * bw))
      \/ (s = 1 /\ c' = c /\ same_cl z z')
      \/ (s = 0 /\ c' = c /\ same_cl z z' /\ no_gap_v v lo n f bw hc 1) ->
      pass_out v lo n f bw hc z c z' c' nf'.

(** The ceil of the histogram with floor [f] and bin width [bw]. *)
Definition hceil (f bw : Z) : Z := Z.min (f + 32 * bw) CEIL_U.

(** Bin 1 holds a value and from there on no two neighbouring bins are both
    without one: the bin clustering hands the histogram on, whatever it
    does. *)
Definition chained (v : list Z) (lo : Z) (n : nat) (f bw : Z) : Prop :=
  occupied v lo n f bw (hceil f bw) 1 /\ no_gap_v v lo n f bw (hceil f bw) 1.

(** A histogram the loop gets to with the clusters in order: the stored
    ceils are not above the floor, and either the bin below the floor is
    without a value, or it is the first histogram before any cluster. *)
Record regular (v : list Z) (lo : Z) (n : nat) (st : histo_state) : Prop :=
  mkRegular {
  rg_pre : pass_pre st;
  rg_out : outliers_ok (h_z st);
  rg_good : clusters_good (h_z st) (h_c_ind st) (h_next_floor st);
  rg_case :
    (h_bin_width st <= h_next_floor st /\
     empty_range v lo n (h_next_floor st - h_bin_width st) (h_next_floor st))
    \/ (h_next_floor st = START_VAL /\ h_bin_width_2log st = 4 /\
        h_c_ind st = 0)
}.

(** A histogram that is handed on with its floor unchanged, forever. *)
Record stuck (v : list Z) (lo : Z) (n : nat) (st : histo_state) : Prop :=
  mkStuck {
  sk_pre : pass_pre st;
  sk_empty : ~ occupied v lo n (h_next_floor st) (h_bin_width st)
               (hceil (h_next_floor st) (h_bin_width st)) 0;
  sk_chain : chained v lo n (h_next_floor st) (h_bin_width st)
}.

(** A histogram below the first one, or after the floor has wrapped: no
    cluster has been recorded and none will be. *)
Record doomed (v : list Z) (lo : Z) (n : nat) (st : histo_state) : Prop :=
  mkDoomed {
  dm_pre : pass_pre st;
  dm_out : outliers_ok (h_z st);
  dm_good : clusters_good (h_z st) 0 0;
  dm_c : h_c_ind st = 0;
  dm_case :
    (h_bin_width_2log st = 4 /\ h_next_floor st <= 34 /\
     chained v lo n (h_next_floor st) (h_bin_width st))
    \/ CEIL_U <= h_next_floor st
}.

(** ** The invariant of the emitted category sets *)

(** The sizes of the outlier and aggregation tables are within bounds. *)
Definition sizes_ok (z : categories) : Prop :=
  0 <= outlier_size z <= NO /\ 0 <= aggreg_size_1 z <= NC /\
  0 <= aggreg_size_2 z <= NC.

(** If the sizes of [z] are within bounds, [z'] has the clusters of [z] and
    sizes within bounds. *)
Definition kept (z z' : categories) : Prop :=
  sizes_ok z ->
  cluster_size z' = cluster_size z /\ same_cl z z' /\ sizes_ok z'.

Definition kept2 (zz zz' : category_pair) : Prop :=
  kept zz.1 zz'.1 /\ kept zz.2 zz'.2.

(** Clusters ascending and disjoint, each with at least [MIN_SIZE] values,
    and the three sizes within the dimensions of the tables. *)
Definition category_invariant (z : categories) : Prop :=
  clusters_ascending z /\
  (forall i, 0 <= i < cluster_size z -> MIN_SIZE <= rd (cluster_count z) i) /\
  cluster_size z <= NC /\ aggreg_size_2 z <= NC /\ outlier_size z <= NO.

(** The cluster tables have their [NC] elements. *)
Definition tables_ok (z : categories) : Prop :=
  length (cluster_count z) = 8%nat /\ length (cluster_ceil z) = 8%nat /\
  length (cluster_floor z) = 8%nat /\ length (cluster_center z) = 8%nat.

(** Ten pairs (400, 1200) followed by ten pairs (800, 1200): two HIGH
    levels. *)
Definition two_high_trace : list Z :=
  trace_of (repeat (400, 1200) 10 ++ repeat (800, 1200) 10).

(** Twenty pairs (400, 1200) with a HIGH of 460 in the border, at index 3,
    and a HIGH of 450 at index 21. *)
Definition two_outlier_trace : list Z :=
  trace_of ([(400, 1200); (460, 1200)] ++ repeat (400, 1200) 8
            ++ [(450, 1200)] ++ repeat (400, 1200) 9).

(** ** reporting: the checksum of the printed trace *)

(** [sum1= (sum1 + rs.duration[ind]) % 255; sum2= (sum2 + sum1) % 255;]
    with [unsigned int] sums: the additions are 16-bit. *)
Definition checksum_add (sums : Z * Z) (d : Z) : Z * Z :=
  let sum1 := u16 (sums.1 + d) mod 255 in
  let sum2 := u16 (sums.2 + sum1) mod 255 in
  (sum1, sum2).

(** The loop over the durations [ind], [ind + 1], ..., [n] of them. *)
Fixpoint checksum_from (duration : list Z) (n : nat) (ind : Z)
    (sums : Z * Z) : Z * Z :=
  match n with
  | O => sums
  | S n' =>
      checksum_from duration n' (ind + 1)
        (checksum_add sums (rd duration ind))
  end.

(** The checksum printed in the checkout record of a trace with a positive
    [rs.count]: the durations from index 1 to the end record at
    [rs.count + 2], then [(sum2 << 8) | sum1]. *)
Definition trace_checksum (duration : list Z) (count : Z) : Z :=
  let sums := checksum_from duration (Z.to_nat (count + 2)) 1 (0, 0) in
  Z.lor (u16 (Z.shiftl sums.2 8)) sums.1.

(** ** Specifications of the helpers, the aggregator and the barrier *)

(** The first [n] elements of [s] ascend by [key]. *)
Definition ascending_by (key : Z -> Z) (s : list Z) (n : Z) : Prop :=
  forall i j, 0 <= i -> i <= j -> j < n -> key (rd s i) <= key (rd s j).

(** The aggregations of [z] against those of [z0]: the table has its [NA]
    places, the ones below [aggreg_size_1] are those of [z0], and every
    center from there on is a 16-bit value flagged reliable. *)
Definition aggregs_ok (z0 z : categories) : Prop :=
  length (aggreg_center z) = 8%nat /\
  aggreg_size_1 z = aggreg_size_1 z0 /\
  0 <= aggreg_size_1 z <= aggreg_size_2 z /\ aggreg_size_2 z <= NC /\
  (forall k, 0 <= k < aggreg_size_1 z ->
     rd (aggreg_center z) k = rd (aggreg_center z0) k) /\
  (forall k, aggreg_size_1 z <= k < aggreg_size_2 z ->
     reliable (rd (aggreg_center z) k) = true /\
     0 <= rd (aggreg_center z) k < 65536).

(** The value of outlier [o] of [z]. *)
Definition outlier_value (z : categories) (v : list Z) (o : Z) : Z :=
  rd v (rd (outlier_ind z) o).

(** [b] is a fixed point of the barrier search of [z] started at [c]: it is
    [c] or the value of an outlier, not below [c], and no outlier below the
    separator barrier of [b] is above [b]. *)
Definition barrier_fixed_point (z : categories) (v : list Z) (c b : Z) : Prop :=
  c <= b /\
  (b = c \/ exists o, 0 <= o < outlier_size z /\ b = outlier_value z v o) /\
  forall o, 0 <= o < outlier_size z ->
    outlier_value z v o < separator_of b -> outlier_value z v o <= b.

(** The number of the outliers [o_ind ..], [n] of them, whose value is above
    [b]. *)
Fixpoint outliers_above (n : nat) (v outliers : list Z) (o_ind b : Z) : nat :=
  match n with
  | O => O
  | S n' =>
      let rest := outliers_above n' v outliers (o_ind + 1) b in
      if b <? rd v (rd outliers o_ind) then S rest else rest
  end.

(** [z'] has the cluster tables and the cluster count of [z]. *)
Definition same_clusters (z z' : categories) : Prop :=
  cluster_size z' = cluster_size z /\ cluster_count z' = cluster_count z /\
  cluster_floor z' = cluster_floor z /\ cluster_center z' = cluster_center z /\
  cluster_ceil z' = cluster_ceil z.

(** The number of first hits that the bins below [m] account for: at most
    [FIRST_HITS] each. *)
Fixpoint hit_total (bins : list Z) (m : nat) : Z :=
  match m with
  | O => 0
  | S m' => Z.min (rd bins (Z.of_nat m')) FIRST_HITS + hit_total bins m'
  end.

(** Twenty-four pairs whose sixteen trusted HIGHs between the borders are
    32 apart: 400, 432, ..., 880. *)
Definition spread_trace : list Z :=
  trace_of (repeat (400, 1200) 4
            ++ map (fun j => (400 + 32 * Z.of_nat j, 1200)) (seq 0 16)
            ++ repeat (400, 1200) 4).

Arguments histogram_pass : simpl never.
Arguments post_clustering : simpl never.
Arguments clusterer : simpl never.
Arguments corrector : simpl never.

(** * Theorems *)

Lemma scan_ceil_first ceil v n i0 k :
  scan_ceil ceil v n i0 = Some k ->
  i0 <= k < i0 + Z.of_nat n /\ v < rd ceil k /\
  forall j, i0 <= j < k -> rd ceil j <= v.
Proof.
  revert i0. induction n as [|n IH]; intros i0; simpl; [discriminate|].
  destruct (Z.ltb_spec v (rd ceil i0)) as [Hlt|Hge].
  - intros [= <-]. repeat split; lia.
  - intros H. apply IH in H as (Hr & Hv & Hb).
    repeat split; try lia. intros j Hj.
    destruct (Z.eq_dec j i0) as [->|]; [lia|apply Hb; lia].
Qed.

Lemma scan_ceil_none ceil v n i0 :
  scan_ceil ceil v n i0 = None ->
  forall j, i0 <= j < i0 + Z.of_nat n -> rd ceil j <= v.
Proof.
  revert i0. induction n as [|n IH]; intros i0; simpl; [intros; lia|].
  destruct (Z.ltb_spec v (rd ceil i0)) as [Hlt|Hge]; [discriminate|].
  intros H j Hj. destruct (Z.eq_dec j i0) as [->|]; [lia|].
  apply (IH _ H). lia.
Qed.

(** C3: a value inside [floor, ceil) of cluster [k] classifies as [k], with
    the center of [k], for every option. *)
Theorem classifier_inside_cluster (z : categories) (v_val option k : Z) :
  1 <= cluster_size z ->
  clusters_ascending z ->
  0 <= k < cluster_size z ->
  rd (cluster_floor z) k <= v_val < rd (cluster_ceil z) k ->
  classifier z v_val option = (true, k, rd (cluster_center z) k).
Proof.
  intros Hsz Hasc Hk Hv. unfold classifier, nearest_cluster.
  destruct (scan_ceil _ _ _ _) as [i|] eqn:Hs.
  - apply scan_ceil_first in Hs as (Hr & Hlt & Hb).
    assert (i = k) as ->.
    { destruct (Z_lt_le_dec k i) as [Hki|Hik].
      - specialize (Hb k). lia.
      - destruct (Z.eq_dec i k) as [|Hne]; [done|].
        specialize (Hasc i k). lia. }
    destruct (Z.leb_spec (rd (cluster_floor z) k) v_val); [done|lia].
  - pose proof (scan_ceil_none _ _ _ _ Hs k) as Hn. lia.
Qed.

(** ** The nearest category *)

Lemma least_argmin_unique centers base v lo hi st1 st2 :
  least_argmin centers base v lo hi st1 ->
  least_argmin centers base v lo hi st2 -> st1 = st2.
Proof.
  intros (k1 & Hk1 & -> & Hm1 & Hl1) (k2 & Hk2 & -> & Hm2 & Hl2).
  assert (k1 = k2) as ->; [|done].
  destruct (Z.lt_trichotomy k1 k2) as [Hlt|[Heq|Hgt]]; [|done|].
  - specialize (Hl2 k1). specialize (Hm1 k2). lia.
  - specialize (Hl1 k2). specialize (Hm2 k1). lia.
Qed.

Lemma scan_nearest_least centers base v n lo i st :
  lo < i ->
  least_argmin centers base v lo i st ->
  least_argmin centers base v lo (i + Z.of_nat n)
    (scan_nearest centers base v n i st).
Proof.
  revert i st. induction n as [|n IH]; intros i st Hlo Hst; simpl.
  - by rewrite Z.add_0_r.
  - replace (i + Z.of_nat (S n)) with ((i + 1) + Z.of_nat n) by lia.
    apply IH; [lia|].
    destruct Hst as (k & Hk & -> & Hm & Hl). simpl.
    destruct (Z.ltb_spec (dist v (rd centers i)) (dist v (rd centers k))).
    + exists i. repeat split; try lia.
      * intros j Hj. destruct (Z.eq_dec j i) as [->|]; [lia|].
        specialize (Hm j). lia.
      * intros j Hj. specialize (Hm j). lia.
    + exists k. repeat split; try lia.
      * intros j Hj. destruct (Z.eq_dec j i) as [->|]; [lia|].
        apply Hm. lia.
      * done.
Qed.

(** The distance found is minimal over the whole table, whatever the
    start state. *)
Lemma scan_nearest_min centers base v n i st j :
  i <= j < i + Z.of_nat n ->
  snd (scan_nearest centers base v n i st) <= dist v (rd centers j).
Proof.
  assert (Hmono : forall n i st,
    snd (scan_nearest centers base v n i st) <= snd st).
  { clear. induction n as [|n IH]; intros i st; simpl; [lia|].
    etrans; [apply IH|].
    destruct (Z.ltb_spec (dist v (rd centers i)) (snd st)); simpl; lia. }
  revert i st. induction n as [|n IH]; intros i st Hj; simpl; [lia|].
  destruct (Z.eq_dec j i) as [->|Hne].
  - etrans; [apply Hmono|].
    destruct (Z.ltb_spec (dist v (rd centers i)) (snd st)); simpl; lia.
  - apply IH. lia.
Qed.

Lemma scan_nearest_le_start centers base v n i st :
  snd (scan_nearest centers base v n i st) <= snd st.
Proof.
  revert i st. induction n as [|n IH]; intros i st; simpl; [lia|].
  etrans; [apply IH|].
  destruct (Z.ltb_spec (dist v (rd centers i)) (snd st)); simpl; lia.
Qed.

(** The loop over the aggregations is [scan_nearest] on the aggregation
    table, as long as the category index fits 8 bits. *)
Lemma scan_aggreg_nearest z v n i st :
  0 <= i -> 0 <= cluster_size z ->
  cluster_size z + i + Z.of_nat n <= 256 ->
  scan_aggreg z v n i st
  = scan_nearest (aggreg_center z) (cluster_size z) v n i st.
Proof.
  revert i st. induction n as [|n IH]; intros i st Hi Hc Hb; simpl; [done|].
  destruct st as [[ci cv] d]. simpl.
  rewrite IH by lia. f_equal.
  replace (if rd (aggreg_center z) i <? v
           then v - rd (aggreg_center z) i else rd (aggreg_center z) i - v)
    with (dist v (rd (aggreg_center z) i)).
  2:{ unfold dist. destruct (Z.ltb_spec (rd (aggreg_center z) i) v); lia. }
  unfold u8. rewrite Z.mod_small by lia. done.
Qed.

Lemma centers_ascending z i j :
  wf_categories z -> 0 <= i -> i < j -> j < cluster_size z ->
  rd (cluster_center z) i < rd (cluster_center z) j.
Proof.
  intros (_ & _ & Hasc & Hin) Hi Hij Hj.
  specialize (Hasc i j Hi Hij Hj).
  pose proof (Hin i ltac:(lia)). pose proof (Hin j ltac:(lia)). lia.
Qed.

(** Outside every cluster, part (A) of the classifier ends at the first
    cluster of least distance. *)
Lemma nearest_cluster_outside z v :
  wf_categories z -> 0 <= v < 65536 -> outside_clusters z v ->
  exists ci d, nearest_cluster z v = inr (ci, d) /\
    least_argmin (cluster_center z) 0 v 0 (cluster_size z)
      (ci, rd (cluster_center z) ci, d).
Proof.
  intros Hwf Hv Hout.
  pose proof Hwf as (Hsz & _ & Hasc & Hin). unfold NC in Hsz.
  unfold nearest_cluster.
  destruct (scan_ceil _ _ _ _) as [i|] eqn:Hs.
  - apply scan_ceil_first in Hs as (Hr & Hlt & Hb).
    assert (Hi : 0 <= i < cluster_size z) by lia.
    pose proof (Hout i Hi) as Hoi. pose proof (Hin i Hi) as Hini.
    destruct (Z.leb_spec (rd (cluster_floor z) i) v) as [Hf|Hf]; [lia|].
    assert (Habove : forall j, i < j < cluster_size z ->
              dist v (rd (cluster_center z) i) < dist v (rd (cluster_center z) j)).
    { intros j Hj. pose proof (centers_ascending z i j Hwf). unfold dist. lia. }
    destruct (Z.eqb_spec i 0) as [->|Hi0].
    + exists 0, (u16 (rd (cluster_center z) 0 - v)). split; [done|].
      exists 0. unfold u16. rewrite Z.mod_small by lia.
      repeat split; try lia.
      * simpl. f_equal. unfold dist. lia.
      * intros j Hj. destruct (Z.eq_dec j 0) as [->|]; [lia|].
        specialize (Habove j). lia.
    + assert (Hp : 0 <= i - 1 < cluster_size z) by lia.
      pose proof (Hin (i - 1) Hp) as Hinp.
      pose proof (Hb (i - 1) ltac:(lia)) as Hcp.
      assert (Hbelow : forall j, 0 <= j < i - 1 ->
                dist v (rd (cluster_center z) (i - 1))
                < dist v (rd (cluster_center z) j)).
      { intros j Hj. pose proof (centers_ascending z j (i - 1) Hwf).
        unfold dist. lia. }
      unfold u16. rewrite !Z.mod_small by lia.
      destruct (Z.ltb_spec (rd (cluster_center z) i - v)
                  (v - rd (cluster_center z) (i - 1))) as [Hd|Hd].
      * eexists _, _. split; [done|]. exists i.
        repeat split; try lia.
        -- simpl. f_equal. unfold dist. lia.
        -- intros j Hj. destruct (Z_lt_le_dec i j); [specialize (Habove j); lia|].
           destruct (Z.eq_dec j i) as [->|]; [lia|].
           destruct (Z.eq_dec j (i - 1)) as [->|]; [unfold dist; lia|].
           specialize (Hbelow j). unfold dist in *. lia.
        -- intros j Hj. destruct (Z.eq_dec j (i - 1)) as [->|]; [unfold dist; lia|].
           specialize (Hbelow j). unfold dist in *. lia.
      * eexists _, _. split; [done|]. exists (i - 1).
        repeat split; try lia.
        -- simpl. f_equal. unfold dist. lia.
        -- intros j Hj. destruct (Z_lt_le_dec i j); [specialize (Habove j); unfold dist in *; lia|].
           destruct (Z.eq_dec j i) as [->|]; [unfold dist; lia|].
           destruct (Z.eq_dec j (i - 1)) as [->|]; [lia|].
           specialize (Hbelow j). lia.
        -- intros j Hj. specialize (Hbelow j). lia.
  - pose proof (scan_ceil_none _ _ _ _ Hs) as Hn.
    set (n := cluster_size z) in *.
    assert (Hl : 0 <= n - 1 < n) by lia.
    pose proof (Hin (n - 1) Hl) as Hinl. pose proof (Hn (n - 1) ltac:(lia)).
    unfold u8. rewrite (Z.mod_small (n - 1)) by lia.
    unfold u16. rewrite Z.mod_small by lia.
    eexists _, _. split; [done|]. exists (n - 1).
    assert (Hbelow : forall j, 0 <= j < n - 1 ->
              dist v (rd (cluster_center z) (n - 1))
              < dist v (rd (cluster_center z) j)).
    { intros j Hj. pose proof (centers_ascending z j (n - 1) Hwf).
      unfold dist. lia. }
    repeat split; try lia.
    + simpl. f_equal. unfold dist. lia.
    + intros j Hj. destruct (Z.eq_dec j (n - 1)) as [->|]; [lia|].
      specialize (Hbelow j). lia.
    + intros j Hj. specialize (Hbelow j). lia.
Qed.

Lemma scan_clusters_least z v :
  1 <= cluster_size z ->
  least_argmin (cluster_center z) 0 v 0 (cluster_size z)
    (scan_nearest (cluster_center z) 0 v (Z.to_nat (cluster_size z - 1)) 1
       (0, rd (cluster_center z) 0, dist v (rd (cluster_center z) 0))).
Proof.
  intros Hsz.
  replace (cluster_size z) with (1 + Z.of_nat (Z.to_nat (cluster_size z - 1)))
    at 1 by lia.
  apply scan_nearest_least; [lia|].
  exists 0. repeat split; try lia.
  intros j Hj. assert (j = 0) as -> by lia. lia.
Qed.

(** ** The resorber *)

Lemma rd_wr_eq a i x : 0 <= i < Z.of_nat (length a) -> rd (wr a i x) i = x.
Proof.
  intros Hi. unfold rd, wr. destruct (Z.leb_spec 0 i); [|lia].
  rewrite nth_lookup, list_lookup_insert_eq; [done|lia].
Qed.

Lemma rd_wr_ne a i j x : 0 <= i -> 0 <= j -> i <> j -> rd (wr a i x) j = rd a j.
Proof.
  intros Hi Hj Hne. unfold rd, wr. destruct (Z.leb_spec 0 i); [|done].
  rewrite !nth_lookup, list_lookup_insert_ne; [done|lia].
Qed.

Lemma length_wr a i x : length (wr a i x) = length a.
Proof. unfold wr. destruct (0 <=? i); [apply length_insert|done]. Qed.

Lemma window5_resorb v ss_cat s c :
  0 <= s -> s + 4 < Z.of_nat (length v) ->
  window5 (resorb_window v ss_cat s c) s = [rd ss_cat 0; c; 0; 0; rd ss_cat 4].
Proof.
  intros Hs Hl. unfold window5, resorb_window.
  repeat first
    [ rewrite rd_wr_eq by (rewrite ?length_wr; lia)
    | rewrite rd_wr_ne by lia ].
  done.
Qed.

(** The shape of every [true] return. *)
Lemma resorber_true z v ss_cat s e rel_delta z' v' rel_delta' rc :
  resorber z v ss_cat s e rel_delta = Some (true, z', v', rel_delta', rc) ->
  exists cat_ind cat_val,
    triple_category z v ss_cat s rel_delta = (true, cat_ind, cat_val) /\
    v' = resorb_window v ss_cat s cat_val /\
    rel_delta' = resorber_rel_delta v ss_cat s cat_val /\
    rel_delta' <= rel_delta /\ rc = CRC_0 /\ u16 (e - s) = 4.
Proof.
  unfold resorber, triple_category.
  destruct (Z.eqb_spec (u16 (e - s)) 4) as [He|He]; simpl; [|discriminate].
  destruct (CEIL <? _); [discriminate|].
  destruct (classifier _ _ _) as [[near ci] cv].
  destruct near; simpl; [|discriminate].
  destruct (_ =? 0); [discriminate|].
  destruct (Z.ltb_spec rel_delta (resorber_rel_delta v ss_cat s cv)); [discriminate|].
  destruct (cluster_size z <=? ci).
  - destruct (NO <=? outlier_size z); [discriminate|].
    intros [= <- <- <- <-]. exists ci, cv. repeat split; done.
  - intros [= <- <- <- <-]. exists ci, cv. repeat split; done.
Qed.

(** C2: a resorbed window reads [(ss_cat[0], c, 0, 0, ss_cat[4])] with [c]
    the center of the category of the virtual triple, and the returned
    [rel_delta] does not exceed the best-fit one. *)
Theorem resorber_window_invariant (z : categories) (v ss_cat : list Z)
    (ss_start_ind ss_stop_ind rel_delta : Z)
    (z' : categories) (v' : list Z) (rel_delta' rc : Z) :
  0 <= ss_start_ind -> ss_start_ind + 4 < Z.of_nat (length v) ->
  resorber z v ss_cat ss_start_ind ss_stop_ind rel_delta
    = Some (true, z', v', rel_delta', rc) ->
  exists cat_ind c,
    triple_category z v ss_cat ss_start_ind rel_delta = (true, cat_ind, c) /\
    window5 v' ss_start_ind = [rd ss_cat 0; c; 0; 0; rd ss_cat 4] /\
    rel_delta' <= rel_delta.
Proof.
  intros Hs Hl Hr.
  apply resorber_true in Hr as (ci & cv & Hc & -> & _ & Hle & _).
  exists ci, cv. split; [done|]. split; [|done].
  by apply window5_resorb.
Qed.

(** C5 (amended): on a quintuple whose triple is classifiable, the resorber
    accepts exactly when its relative delta is at most the best-fit one, a
    tie included; otherwise it refuses, leaves [v] and restores the best-fit
    [rel_delta].  The category is a cluster or the outlier table has room. *)
Theorem resorber_accepts_iff (z : categories) (v ss_cat : list Z)
    (ss_start_ind ss_stop_ind rel_delta cat_ind cat_val : Z) :
  u16 (ss_stop_ind - ss_start_ind) = 4 ->
  triple_sum v ss_cat ss_start_ind <= CEIL ->
  triple_category z v ss_cat ss_start_ind rel_delta = (true, cat_ind, cat_val) ->
  sum_v v ss_start_ind 5 <> 0 ->
  cat_ind < cluster_size z \/ outlier_size z < NO ->
  resorber z v ss_cat ss_start_ind ss_stop_ind rel_delta
  = if resorber_rel_delta v ss_cat ss_start_ind cat_val <=? rel_delta
    then Some (true, resorber_categories z ss_start_ind cat_ind,
               resorb_window v ss_cat ss_start_ind cat_val,
               resorber_rel_delta v ss_cat ss_start_ind cat_val, CRC_0)
    else Some (false, z, v, rel_delta, CRC_0).
Proof.
  intros He Hsum Hcat Hv Hroom. unfold resorber.
  unfold triple_category in Hcat. rewrite He, Hcat.
  change (negb (4 =? 4)) with false. cbv iota. cbn [negb].
  destruct (Z.ltb_spec CEIL (triple_sum v ss_cat ss_start_ind)); [lia|].
  destruct (Z.eqb_spec (sum_v v ss_start_ind 5) 0); [done|].
  destruct (Z.ltb_spec rel_delta (resorber_rel_delta v ss_cat ss_start_ind cat_val));
    destruct (Z.leb_spec (resorber_rel_delta v ss_cat ss_start_ind cat_val) rel_delta);
    try lia; [done|].
  unfold resorber_categories.
  destruct (Z.leb_spec (cluster_size z) cat_ind); [|done].
  destruct (Z.leb_spec NO (outlier_size z)); [lia|done].
Qed.

(** C6 (amended): a [false] return with a code other than [CRC_5] leaves
    the duration array and the category set as they were. *)
Theorem resorber_refusal_frame (z : categories) (v ss_cat : list Z)
    (ss_start_ind ss_stop_ind rel_delta : Z)
    (z' : categories) (v' : list Z) (rel_delta' rc : Z) :
  resorber z v ss_cat ss_start_ind ss_stop_ind rel_delta
    = Some (false, z', v', rel_delta', rc) ->
  rc <> CRC_5 ->
  v' = v /\ z' = z /\ (rc = CRC_0 \/ rc = CRC_18).
Proof.
  unfold resorber.
  destruct (negb _); [intros [= <- <- <- <-]; auto|].
  destruct (CEIL <? _); [intros [= <- <- <- <-]; auto|].
  destruct (classifier _ _ _) as [[near ci] cv].
  destruct (negb near); [intros [= <- <- <- <-]; auto|].
  destruct (_ =? 0); [discriminate|].
  destruct (rel_delta <? _); [intros [= <- <- <- <-]; auto|].
  destruct (cluster_size z <=? ci); [|discriminate].
  destruct (NO <=? outlier_size z); [|discriminate].
  intros [= <- <- <- <-]. done.
Qed.

Lemma resorber_window_invariant_witness :
  exists cat_ind c,
    triple_category spike_z spike_v spike_cat 1 9 = (true, cat_ind, c) /\
    window5 [0; 400; 950; 0; 0; 1200; 400; 0; 0] 1
      = [rd spike_cat 0; c; 0; 0; rd spike_cat 4] /\
    5 <= 9.
Proof.
  apply (resorber_window_invariant spike_z spike_v spike_cat 1 5 9
           spike_z [0; 400; 950; 0; 0; 1200; 400; 0; 0] 5 CRC_0);
    [lia | simpl; lia | vm_compute; reflexivity].
Defined.

(** C5, as stated, fails on a tie: the relative delta of the resorber is 5,
    the best-fit one is 5, and the window is resorbed. *)
Lemma resorber_accepts_tie :
  ~ accepts_iff_strictly_smaller spike_z spike_v spike_cat 1 5 5.
Proof.
  intros H.
  specialize (H 0 950 (true, spike_z, [0; 400; 950; 0; 0; 1200; 400; 0; 0], 5, CRC_0)
                eq_refl eq_refl).
  simpl in H. destruct H as [H _]. specialize (H eq_refl).
  vm_compute in H. discriminate.
Qed.

Lemma resorber_accepts_iff_witness :
  resorber spike_z spike_v spike_cat 1 5 5
  = if resorber_rel_delta spike_v spike_cat 1 950 <=? 5
    then Some (true, resorber_categories spike_z 1 0,
               resorb_window spike_v spike_cat 1 950,
               resorber_rel_delta spike_v spike_cat 1 950, CRC_0)
    else Some (false, spike_z, spike_v, 5, CRC_0).
Proof.
  apply (resorber_accepts_iff spike_z spike_v spike_cat 1 5 5 0 950);
    [reflexivity | vm_compute; discriminate | reflexivity
    | vm_compute; discriminate | left; reflexivity].
Defined.

(** C6, as stated, fails when the outlier table is full: the window is
    rewritten before the overflow is detected. *)
Lemma resorber_overflow_rewrites :
  resorber full_z full_v spike_cat 1 5 200
  = Some (false, full_z, [0; 400; 2000; 0; 0; 1200; 400; 0; 0], 0, CRC_5)
  /\ [0; 400; 2000; 0; 0; 1200; 400; 0; 0] <> full_v.
Proof. split; [vm_compute; reflexivity | discriminate]. Qed.

Lemma resorber_refusal_frame_witness :
  spike_v = spike_v /\ spike_z = spike_z /\ (CRC_0 = CRC_0 \/ CRC_0 = CRC_18).
Proof.
  apply (resorber_refusal_frame spike_z spike_v spike_cat 1 5 2
           spike_z spike_v 2 CRC_0);
    [vm_compute; reflexivity | discriminate].
Defined.

Lemma classifier_inside_cluster_witness :
  classifier spike_z 960 C_OPT_4 = (true, 0, rd (cluster_center spike_z) 0).
Proof.
  apply (classifier_inside_cluster spike_z 960 C_OPT_4 0);
    [simpl; lia | intros i j Hi Hij Hj; simpl in Hj; lia
    | simpl; lia | vm_compute; split; [discriminate | reflexivity]].
Defined.

(** The distance [nearest_category] reports is minimal over all categories
    and belongs to the category it names. *)
Lemma nearest_category_minimal z v ind c :
  1 <= cluster_size z -> 0 <= aggreg_size_2 z ->
  category_center z ind = Some c ->
  (nearest_category z v).2 <= dist v c.
Proof.
  intros Hsz Hag. unfold category_center, nearest_category.
  destruct ((0 <=? ind) && (ind <? cluster_size z)) eqn:Hc.
  - apply andb_true_iff in Hc as [H1 H2].
    intros [= <-]. apply Z.leb_le in H1. apply Z.ltb_lt in H2.
    etrans; [apply scan_nearest_le_start|].
    destruct (scan_clusters_least z v Hsz) as (k & Hk & -> & Hm & _).
    simpl. apply Hm. lia.
  - clear Hc.
    destruct ((cluster_size z <=? ind)
              && (ind <? cluster_size z + aggreg_size_2 z)) eqn:Hc;
      [|discriminate].
    apply andb_true_iff in Hc as [H1 H2].
    intros [= <-]. apply Z.leb_le in H1. apply Z.ltb_lt in H2.
    apply scan_nearest_min. lia.
Qed.

(** C4, amended: for a category set with ascending, disjoint clusters, each
    center inside its cluster's range and every ceil a 16-bit value, and a
    value inside no cluster: if the nearest cluster is nearer than its
    center [>> option], the classifier returns true with that cluster, even
    where an aggregation is nearer; otherwise its outputs are the nearest
    category over clusters and aggregations, and it returns true exactly
    when the distance to it is below [cat_val >> option]. *)
Theorem classifier_nearest_category (z : categories) (v_val option : Z) :
  wf_categories z -> 0 <= v_val < 65536 -> outside_clusters z v_val ->
  let '(c_ind, c_val, c_delta) := nearest_center z v_val in
  let '(n_ind, n_val, n_delta) := nearest_category z v_val in
  classifier z v_val option
  = (if c_delta <? Z.shiftr c_val option then (true, c_ind, c_val)
     else (n_delta <? Z.shiftr n_val option, n_ind, n_val)) /\
  (forall k, 0 <= k < cluster_size z ->
     c_delta <= dist v_val (rd (cluster_center z) k)) /\
  (forall ind c, category_center z ind = Some c -> n_delta <= dist v_val c).
Proof.
  intros Hwf Hv Hout.
  destruct (nearest_cluster_outside z v_val Hwf Hv Hout) as (ci & d & Hnc & Hla).
  pose proof Hwf as (Hsz & Hag & _). unfold NC, NA in *.
  pose proof (scan_clusters_least z v_val ltac:(lia)) as Hsp.
  pose proof (least_argmin_unique _ _ _ _ _ _ _ Hla Hsp) as Heq.
  pose proof (fun ind c => nearest_category_minimal z v_val ind c
                ltac:(lia) ltac:(lia)) as Hmin.
  unfold nearest_center. unfold classifier, nearest_category in *.
  rewrite Hnc. rewrite <- Heq in *.
  rewrite <- scan_aggreg_nearest in * by lia.
  destruct (scan_aggreg _ _ _ _ _) as [[ni nv] nd]. cbn [snd] in Hmin.
  split; [|split; [|exact Hmin]].
  - by destruct (d <? Z.shiftr (rd (cluster_center z) ci) option).
  - destruct Hla as (k0 & Hk0 & [= _ _ Hd] & Hm & _). intros k Hk.
    rewrite Hd. by apply Hm.
Qed.

(** C4, as stated, fails twice.  In [near_cluster_z] the value 126 is at
    34 from the cluster 160 and at 26 from the aggregation 100: the
    classifier returns true with the cluster, before it looks at the
    aggregations, and 26 is not below [100 >> 2].  In [wrapped_ceil_z],
    which the clusterer emits for [long_high_trace], the value 64600 is at
    424 from the only center, below [65024 >> 3 = 8128], but the 16-bit
    difference [v_val - center] wraps to 65112 and the classifier returns
    false. *)
Lemma classifier_misses_nearest :
  ~ reports_nearest_category near_cluster_z 126 C_OPT_2 /\
  ~ reports_nearest_category wrapped_ceil_z 64600 C_OPT_3 /\
  classifier near_cluster_z 126 C_OPT_2 = (true, 0, 160) /\
  nearest_category near_cluster_z 126 = (1, 100, 26) /\
  classifier wrapped_ceil_z 64600 C_OPT_3 = (false, 0, 65024) /\
  nearest_category wrapped_ceil_z 64600 = (0, 65024, 424) /\
  exists buf,
    clusterer 10 stale_categories long_high_trace 1 39 false blank_buffer
    = Some (CRC_0, wrapped_ceil_z, false, buf).
Proof.
  assert (Hasc : forall z, cluster_size z = 1 -> clusters_ascending z).
  { intros z Hz i j Hi Hij Hj. lia. }
  assert (Hout : forall z v, cluster_size z = 1 ->
            ~ (rd (cluster_floor z) 0 <= v < rd (cluster_ceil z) 0) ->
            outside_clusters z v).
  { intros z v Hz Hn k Hk. assert (k = 0) as -> by lia. done. }
  split_and!; try (vm_compute; reflexivity).
  - intros H.
    specialize (H ltac:(vm_compute; discriminate)
                  (Hasc near_cluster_z eq_refl)).
    assert (Ho : outside_clusters near_cluster_z 126).
    { apply Hout; [reflexivity|]. vm_compute. intros [H1 _]. by apply H1. }
    specialize (H Ho). vm_compute in H. destruct H as (_ & Hind & _).
    discriminate Hind.
  - intros H.
    specialize (H ltac:(vm_compute; discriminate)
                  (Hasc wrapped_ceil_z eq_refl)).
    assert (Ho : outside_clusters wrapped_ceil_z 64600).
    { apply Hout; [reflexivity|]. vm_compute. intros [_ H2]. discriminate H2. }
    specialize (H Ho). vm_compute in H. destruct H as ([_ Hnear] & _).
    specialize (Hnear eq_refl). discriminate Hnear.
  - eexists. vm_compute. reflexivity.
Qed.

Lemma two_level_wf : wf_categories two_level_z.
Proof.
  unfold wf_categories, NC, NA. simpl. repeat split; try lia.
  - intros i j Hi Hij Hj. assert (i = 0) as -> by lia.
    assert (j = 1) as -> by lia. vm_compute. discriminate.
  - assert (k = 0 \/ k = 1) as [-> | ->] by lia; vm_compute; discriminate.
  - assert (k = 0 \/ k = 1) as [-> | ->] by lia; vm_compute; discriminate.
  - assert (k = 0 \/ k = 1) as [-> | ->] by lia; vm_compute; reflexivity.
  - assert (k = 0 \/ k = 1) as [-> | ->] by lia; vm_compute; reflexivity.
Qed.

Lemma classifier_nearest_category_witness :
  let '(c_ind, c_val, c_delta) := nearest_center two_level_z 800 in
  let '(n_ind, n_val, n_delta) := nearest_category two_level_z 800 in
  classifier two_level_z 800 C_OPT_2
  = (if c_delta <? Z.shiftr c_val C_OPT_2 then (true, c_ind, c_val)
     else (n_delta <? Z.shiftr n_val C_OPT_2, n_ind, n_val)) /\
  (forall k, 0 <= k < cluster_size two_level_z ->
     c_delta <= dist 800 (rd (cluster_center two_level_z) k)) /\
  (forall ind c, category_center two_level_z ind = Some c ->
     n_delta <= dist 800 c).
Proof.
  apply (classifier_nearest_category two_level_z 800 C_OPT_2);
    [exact two_level_wf | lia |].
  intros k Hk. simpl in Hk.
  assert (k = 0 \/ k = 1) as [-> | ->] by lia; vm_compute; intros [H1 H2];
    first [discriminate H2 | exact (H1 eq_refl)].
Defined.

(** ** The corrector: untrusted subsequences *)

Lemma aggregate_from_rc n z v m ol oi vs vc z' rc :
  aggregate_from n z v m ol oi vs vc = (z', rc) ->
  rc = CRC_0 \/ rc = CRC_4 \/ rc = CRC_17.
Proof.
  revert z oi vs vc. induction n as [|n IH]; intros z oi vs vc; simpl.
  - intros [= <- <-]. auto.
  - repeat match goal with
    | |- context [if ?c then _ else _] => destruct c
    end; try (intros [= <- <-]; auto); apply IH.
Qed.

Lemma aggregator_rc z v m z' rc :
  aggregator z v m = (z', rc) -> rc = CRC_0 \/ rc = CRC_4 \/ rc = CRC_17.
Proof.
  unfold aggregator.
  repeat match goal with
  | |- context [if ?c then _ else _] => destruct c
  end; try (intros [= <- <-]; auto); apply aggregate_from_rc.
Qed.

Lemma promote_top_rc n zz v v_ind rc rc' zz' ret :
  promote_top n zz v v_ind rc = (rc', zz', ret) ->
  rc <> CRC_2 -> rc' <> CRC_2.
Proof.
  revert zz v_ind rc. induction n as [|n IH]; intros zz v_ind rc; simpl.
  - intros [= <- <- <-]. done.
  - destruct (_ <? _); [|apply IH].
    destruct (NO <=? _); [intros [= <- <- <-]; discriminate|].
    destruct (aggregator _ _ _) as [z1 rc1] eqn:Ha.
    intros H _. apply (IH _ _ _ H).
    apply aggregator_rc in Ha as [->|[->| ->]]; discriminate.
Qed.

Lemma resorber_rc z v ss_cat s e rel_delta b z' v' rel_delta' rc :
  resorber z v ss_cat s e rel_delta = Some (b, z', v', rel_delta', rc) ->
  rc = CRC_0 \/ rc = CRC_18 \/ rc = CRC_5.
Proof.
  unfold resorber.
  repeat match goal with
  | |- context [if ?c then _ else _] => destruct c
  | |- context [let '(_, _) := ?c in _] => destruct c as [[? ?] ?]
  end; intros [= <- <- <- <- <-] || discriminate; auto.
Qed.

Lemma classic_legal w : legal_length w \/ ~ legal_length w.
Proof.
  unfold legal_length.
  destruct (Z.eq_dec (u16 (w.2 - w.1 + 1)) 4);
    destruct (Z.eq_dec (u16 (w.2 - w.1 + 1)) 5); tauto.
Qed.

(** A window of length 4 is refused by the resorber, which leaves every
    argument as it was. *)
Lemma resorber_quadruple z v ss_cat s e rel_delta :
  u16 (e - s + 1) = 4 ->
  resorber z v ss_cat s e rel_delta = Some (false, z, v, rel_delta, CRC_0).
Proof.
  intros H. unfold resorber.
  destruct (Z.eqb_spec (u16 (e - s)) 4) as [He|He]; [|done].
  exfalso. unfold u16 in *.
  replace (e - s + 1) with ((e - s) + 1) in H by lia.
  rewrite Z.add_mod in H by lia. rewrite He in H. discriminate H.
Qed.

(** The loop body returns [CRC_2] exactly for a window of illegal length. *)
Lemma process_window_rc zz v ss_cat s e rc w :
  process_window zz v ss_cat s e rc = inl w -> rc <> CRC_2 ->
  (w_rc w = CRC_2 <-> ~ legal_length (s, e)) /\
  (w_rc w = CRC_2 -> w_returned w = true).
Proof.
  unfold process_window, legal_length. simpl.
  set (len := u16 (e - s + 1)).
  destruct ((len <? 4) || (5 <? len)) eqn:Hlen.
  - intros [= <-] _. simpl. split; [|done]. split; [|done]. intros _.
    apply orb_true_iff in Hlen as [H|H]; apply Z.ltb_lt in H; lia.
  - apply orb_false_iff in Hlen as [H4 H5].
    apply Z.ltb_ge in H4. apply Z.ltb_ge in H5.
    assert (Hlegal : len = 4 \/ len = 5) by lia.
    intros Hw Hrc.
    assert (w_rc w <> CRC_2); [|tauto].
    revert Hw.
    destruct (promote_top _ _ _ _ _) as [[rc1 zz1] ret] eqn:Hp.
    pose proof (promote_top_rc _ _ _ _ _ _ _ _ Hp Hrc) as Hrc1.
    destruct ret; [intros [= <-]; done|].
    destruct (_ =? 0); [discriminate|].
    destruct (fit_flag _); [intros [= <-]; done|].
    destruct (resorber _ _ _ _ _ _) as [[[[[b z'] v'] rd'] rc']|] eqn:Hr;
      [|discriminate].
    apply resorber_rc in Hr.
    destruct b; [intros [= <-]; simpl; unfold CRC_0, CRC_18, CRC_5, CRC_2 in *; lia|].
    destruct (CRC_0 <? rc'); intros [= <-]; simpl;
      unfold CRC_0, CRC_18, CRC_5, CRC_2 in *; lia.
Qed.

Lemma untrusted_loop_rc fuel zz v ss_cat v_stop_ind ei rc log r :
  untrusted_loop fuel zz v ss_cat v_stop_ind ei rc log = inl r ->
  rc <> CRC_2 -> Forall legal_length log ->
  (r.1.1.1 = CRC_2 <-> Exists (fun w => ~ legal_length w) r.2).
Proof.
  revert zz v ss_cat ei rc log.
  induction fuel as [|fuel IH]; intros zz v ss_cat ei rc log; simpl;
    [discriminate|].
  destruct (extractor v v_stop_ind ei) as [[[found ei'] s] e].
  assert (Hnone : forall l, Forall legal_length l ->
            ~ Exists (fun w => ~ legal_length w) l).
  { intros l Hl Hex. apply Exists_exists in Hex as (w & Hin & Hw).
    rewrite Forall_forall in Hl. by apply Hw, Hl. }
  destruct found; simpl.
  2:{ intros [= <-] Hrc Hlog. simpl. split; [done|].
      intros H. by apply Hnone in H. }
  destruct (process_window zz v ss_cat s e rc) as [w|f] eqn:Hw; [|discriminate].
  intros Hr Hrc Hlog.
  destruct (process_window_rc _ _ _ _ _ _ _ Hw Hrc) as [Hiff Hret].
  destruct (w_returned w) eqn:Hwr.
  - injection Hr as <-. simpl. rewrite Hiff. split.
    + intros Hbad. apply Exists_app. right. by constructor.
    + intros Hex. apply Exists_app in Hex as [Hex|Hex];
        [by apply Hnone in Hex|].
      by inversion Hex as [? ? Hb|? ? Hb]; [|inversion Hb].
  - assert (Hok : w_rc w <> CRC_2).
    { intros H. apply Hret in H. congruence. }
    apply (IH _ _ _ _ _ _ Hr Hok).
    apply Forall_app. split; [done|]. constructor; [|done].
    destruct (classic_legal (s, e)) as [H|H]; [done|].
    apply Hiff in H. done.
Qed.

Lemma outlier_correction_rc zz v v_start_ind v_stop_ind m rc zz' v' m' ret :
  outlier_correction zz v v_start_ind v_stop_ind m = inl (rc, zz', v', m', ret) ->
  rc <> CRC_2.
Proof.
  unfold outlier_correction.
  destruct (NM <? _); [intros [= <- <- <- <- <-]; discriminate|].
  destruct (merge _ _ _ _ _) as [m1 n1].
  destruct (n1 =? 0); [intros [= <- <- <- <- <-]; discriminate|].
  destruct (scan_outliers _ _ _ _ _ _) as [st|]; [|discriminate].
  destruct (split_outliers _ _ _ _) as [zz1|]; [|discriminate].
  destruct (aggregator zz1.2 _ _) as [zh rc1] eqn:H1.
  apply aggregator_rc in H1.
  destruct (CRC_0 <? rc1).
  - intros [= <- <- <- <- <-]. destruct H1 as [->|[->| ->]]; discriminate.
  - destruct (aggregator zz1.1 _ _) as [zl rc2] eqn:H2.
    apply aggregator_rc in H2.
    intros [= <- <- <- <- <-]. destruct H2 as [->|[->| ->]]; discriminate.
Qed.

Lemma corrector_rc zz v v_length unreliable_count m rc zz' v' m' log :
  corrector zz v v_length unreliable_count m = inl (rc, zz', v', m', log) ->
  (rc = CRC_2 <-> Exists (fun w => ~ legal_length w) log).
Proof.
  unfold corrector.
  assert (Hnil : forall c, c <> CRC_2 ->
            (c = CRC_2 <-> Exists (fun w => ~ legal_length w) [])).
  { intros c Hc. split; [done|]. intros H. inversion H. }
  destruct (_ || _); [intros [= <- <- <- <- <-]; by apply Hnil|].
  match goal with |- context [match ?p with inl _ => _ | inr _ => _ end] =>
    destruct p as [[[[[rc1 zz1] v1] m1] ret]|] eqn:Hp end; [|discriminate].
  assert (Hrc1 : rc1 <> CRC_2).
  { destruct (_ || _) in Hp.
    - by apply outlier_correction_rc in Hp.
    - injection Hp as <- <- <- <- <-. discriminate. }
  destruct (ret || _); [intros [= <- <- <- <- <-]; by apply Hnil|].
  destruct (0 <? unreliable_count); [|intros [= <- <- <- <- <-]; by apply Hnil].
  destruct (untrusted_loop _ _ _ _ _ _ _ _) as [[[[rc2 zz2] v2] log2]|] eqn:Hu;
    [|discriminate].
  intros [= <- <- <- <- <-].
  apply (untrusted_loop_rc _ _ _ _ _ _ _ _ _ Hu Hrc1). constructor.
Qed.

Lemma zset_zget zz i : zset zz i (zget zz i) = zz.
Proof. unfold zset, zget. destruct zz, (_ =? _); done. Qed.

(** A window of length 4 that the loop body passes on has received the
    best-fit overwrite, whatever the flag of the best-fit evaluation. *)
Lemma process_window_quadruple zz v ss_cat s e rc w :
  process_window zz v ss_cat s e rc = inl w ->
  u16 (e - s + 1) = 4 -> w_returned w = false ->
  let n := Z.to_nat (e - s + 1) in
  exists rc1,
    promote_top n zz v s rc = (rc1, w_zz w, false) /\
    w_ss_cat w = fit_ss_cat (best_fit n (w_zz w) v s 0 (mkFit true 0 0 ss_cat)) /\
    w_v w = overwrite n v (w_ss_cat w) s 0.
Proof.
  intros Hw Hlen Hret. unfold process_window in Hw. rewrite Hlen in Hw.
  simpl in Hw.
  destruct (promote_top _ _ _ _ _) as [[rc1 zz1] ret] eqn:Hp.
  destruct ret; [injection Hw as <-; discriminate|].
  destruct (_ =? 0); [discriminate|].
  destruct (fit_flag _).
  - injection Hw as <-. simpl. by exists rc1.
  - rewrite resorber_quadruple in Hw by done.
    change (CRC_0 <? CRC_0) with false in Hw. cbv iota in Hw.
    injection Hw as <-. simpl. rewrite zset_zget. by exists rc1.
Qed.

(** C9: the corrector returns [CRC_2] exactly when a window it extracted
    has a length other than 4 or 5; a window of length 4 is refused by the
    resorber, with [v] untouched, and ends with the best-fit overwrite. *)
Theorem corrector_subsequence_length :
  (forall zz v v_length unreliable_count m rc zz' v' m' log,
     corrector zz v v_length unreliable_count m = inl (rc, zz', v', m', log) ->
     (rc = CRC_2 <-> Exists (fun w => ~ legal_length w) log)) /\
  (forall z v ss_cat s e rel_delta,
     u16 (e - s + 1) = 4 ->
     resorber z v ss_cat s e rel_delta = Some (false, z, v, rel_delta, CRC_0)) /\
  (forall zz v ss_cat s e rc w,
     process_window zz v ss_cat s e rc = inl w ->
     u16 (e - s + 1) = 4 -> w_returned w = false ->
     exists rc1,
       promote_top (Z.to_nat (e - s + 1)) zz v s rc = (rc1, w_zz w, false) /\
       w_ss_cat w
       = fit_ss_cat (best_fit (Z.to_nat (e - s + 1)) (w_zz w) v s 0
                       (mkFit true 0 0 ss_cat)) /\
       w_v w = overwrite (Z.to_nat (e - s + 1)) v (w_ss_cat w) s 0).
Proof.
  split; [apply corrector_rc|].
  split; [apply resorber_quadruple|apply process_window_quadruple].
Qed.

(** ** The categorizer *)







(** C10 fails on [single_outlier_trace]: the only merged outlier, at scan
    position 0, is correctable, and the check of the preceding outlier reads
    [m_outlier_ind[-1]]. *)
Theorem merged_scan_reads_before_buffer :
  categorizer 10 (blank_categories, blank_categories) single_outlier_trace 40 0
    blank_buffer
  = inr (OutOfBounds (-1)).
Proof. vm_compute. reflexivity. Qed.


Lemma corrector_subsequence_length_witness :
  exists zz' v' m',
    corrector levels_zz lone_unreliable_trace 40 1 blank_buffer
      = inl (CRC_2, zz', v', m', [(20, 22)]) /\
    (CRC_2 = CRC_2 <-> Exists (fun w => ~ legal_length w) [(20, 22)]).
Proof.
  do 3 eexists.
  assert (H : corrector levels_zz lone_unreliable_trace 40 1 blank_buffer
              = inl (CRC_2, _, _, _, [(20, 22)])) by (vm_compute; reflexivity).
  split; [exact H|].
  exact (proj1 corrector_subsequence_length _ _ _ _ _ _ _ _ _ _ H).
Defined.

(** C7 fails on [long_high_trace]: the only HIGH cluster is [64512, 65536),
    its 16-bit ceil is 0, the barrier loop is not entered, and
    [separator_barrier] keeps the 4020 of the previous trace, where ten
    times the fixed point reached from a ceil of 0 is 0. *)
Theorem separator_barrier_left_unassigned :
  exists z' ov buf,
    clusterer 10 stale_categories long_high_trace 1 39 false blank_buffer
      = Some (CRC_0, z', ov, buf) /\
    cluster_size z' = 1 /\
    rd (cluster_floor z') 0 = 64512 /\
    rd (cluster_ceil z') 0 = 0 /\
    separator_barrier z' = 4020 /\
    separator_of (rd (cluster_ceil z') 0) = 0.
Proof. do 3 eexists. split; [vm_compute; reflexivity|]. repeat split. Qed.

(** * The invariants of the emitted category sets *)

(** ** The bin filling *)

(** A read after a write. *)
Lemma rd_wr a i j x :
  0 <= i < Z.of_nat (length a) -> 0 <= j ->
  rd (wr a i x) j = if j =? i then x else rd a j.
Proof.
  intros Hi Hj. destruct (Z.eqb_spec j i) as [->|Hne].
  - by apply rd_wr_eq.
  - apply rd_wr_ne; lia.
Qed.

Lemma bin_of_nonneg x f w : 0 <= bin_of x f w.
Proof. unfold bin_of, u8. apply Z.mod_pos_bound. lia. Qed.

Lemma hits_in_nonneg v hits f w b n h : 0 <= hits_in v hits f w b n h.
Proof.
  revert h. induction n as [|n IH]; intros h; simpl; [lia|].
  specialize (IH (h + 1)). destruct (_ =? b); lia.
Qed.

(** Appending a hit at the end of the list. *)
Lemma hits_in_snoc v hits f w b n h x :
  0 <= h -> h + Z.of_nat n < Z.of_nat (length hits) ->
  hits_in v (wr hits (h + Z.of_nat n) x) f w b (S n) h
  = hits_in v hits f w b n h + (if bin_of (rd v x) f w =? b then 1 else 0).
Proof.
  revert h. induction n as [|n IH]; intros h Hh Hl.
  - change (Z.of_nat 0) with 0 in *. rewrite Z.add_0_r in *.
    cbn [hits_in]. rewrite rd_wr_eq by lia. lia.
  - change (hits_in v (wr hits (h + Z.of_nat (S n)) x) f w b (S (S n)) h)
      with ((if bin_of (rd v (rd (wr hits (h + Z.of_nat (S n)) x) h)) f w =? b
             then 1 else 0)
            + hits_in v (wr hits (h + Z.of_nat (S n)) x) f w b (S n) (h + 1)).
    rewrite rd_wr_ne by lia.
    replace (h + Z.of_nat (S n)) with ((h + 1) + Z.of_nat n) by lia.
    rewrite IH by lia. cbn [hits_in]. lia.
Qed.

Lemma hits_in_wr_beyond v hits f w b n h k x :
  0 <= h -> h + Z.of_nat n <= k ->
  hits_in v (wr hits k x) f w b n h = hits_in v hits f w b n h.
Proof.
  revert h. induction n as [|n IH]; intros h Hh Hk; cbn [hits_in]; [done|].
  rewrite rd_wr_ne by lia. rewrite IH by lia. done.
Qed.

Section FillStep.
Context (v : list Z) (f hc w : Z).

Lemma fill_step_inv seen st i st' :
  fill_inv v f hc w seen st ->
  fill_step v f hc w st i = (CRC_0, st') ->
  fill_inv v f hc w (seen ++ [i]) st'.
Proof.
  intros [Hlen Hrange Hocc Hhc Hhlen Hhits Hhbin Hle Hmin Hsome].
  unfold fill_step.
  assert (Hskip : ~ binned v f hc i ->
            (trusted v i = true -> f <= rd v i -> hc <= rd v i ->
             f_next_floor st <= rd v i) ->
            fill_inv v f hc w (seen ++ [i]) st).
  { intros Hnb Hnf. split; try done.
    - intros b Hb. rewrite Hocc by done. split.
      + intros (j & Hj & Hbj & Hbin). exists j. rewrite in_app_iff. auto.
      + intros (j & Hj & Hbj & Hbin). apply in_app_iff in Hj as [Hj|Hj].
        * by exists j.
        * destruct Hj as [<-|[]]. done.
    - intros j Hj. apply in_app_iff in Hj as [Hj|[<-|[]]]; [by apply Hmin|done].
    - intros Hlt. destruct (Hsome Hlt) as (j & Hj & Hrest).
      exists j. rewrite in_app_iff. auto. }
  destruct (Z.ltb_spec (rd v i) f) as [Hlow|Hlow].
  { intros [= <-]. apply Hskip; [intros [_ ?]; lia|lia]. }
  destruct (trusted v i) eqn:Htr; simpl.
  2:{ intros [= <-]. apply Hskip; [intros [? _]; congruence|congruence]. }
  destruct (Z.leb_spec hc (rd v i)) as [Hhigh|Hhigh].
  { intros [= <-].
    destruct (Z.ltb_spec (rd v i) (f_next_floor st)) as [Hnew|Hold].
    - split; simpl; try done.
      + intros b Hb. rewrite Hocc by done. split.
        * intros (j & Hj & Hbj & Hbin). exists j. rewrite in_app_iff. auto.
        * intros (j & Hj & Hbj & Hbin). apply in_app_iff in Hj as [Hj|Hj].
          -- by exists j.
          -- destruct Hj as [<-|[]]. destruct Hbj as [_ ?]. lia.
      + lia.
      + intros j Hj Ht Hf Hc. apply in_app_iff in Hj as [Hj|[<-|[]]]; [|lia].
        specialize (Hmin j Hj Ht Hf Hc). lia.
      + intros _. exists i. rewrite in_app_iff. simpl. auto 10.
    - apply Hskip; [intros [_ ?]; lia|lia]. }
  set (b0 := bin_of (rd v i) f w).
  destruct (Z.leb_spec NB b0) as [|Hb0]; [discriminate|].
  assert (Hb0r : 0 <= b0 < 32) by (pose proof (bin_of_nonneg (rd v i) f w); unfold NB in *; lia).
  assert (Hbi : binned v f hc i) by (split; [done|lia]).
  assert (Hpos : 0 < rd (f_bins st) b0 ->
            fill_inv v f hc w (seen ++ [i]) st).
  { intros Hp. split; try done.
    - intros b Hb. rewrite Hocc by done. split.
      + intros (j & Hj & Hbj & Hbin). exists j. rewrite in_app_iff. auto.
      + intros (j & Hj & Hbj & Hbin). apply in_app_iff in Hj as [Hj|Hj].
        * by exists j.
        * destruct Hj as [<-|[]]. fold b0 in Hbin. subst b.
          by apply Hocc.
    - intros j Hj Ht Hf Hc. apply in_app_iff in Hj as [Hj|[<-|[]]]; [by apply Hmin|lia].
    - intros Hlt. destruct (Hsome Hlt) as (j & Hj & Hrest).
      exists j. rewrite in_app_iff. auto. }
  destruct (Z.leb_spec 255 (rd (f_bins st) b0)) as [Hfull|Hroom].
  { intros [= <-]. apply Hpos. lia. }
  set (bins' := wr (f_bins st) b0 (rd (f_bins st) b0 + 1)).
  assert (Hrd : forall b, 0 <= b ->
            rd bins' b = if b =? b0 then rd (f_bins st) b0 + 1
                         else rd (f_bins st) b).
  { intros b Hb. unfold bins'. apply rd_wr; lia. }
  assert (Hocc' : forall b, 0 <= b < 32 ->
            (0 < rd bins' b <->
             exists j, In j (seen ++ [i]) /\ binned v f hc j /\
               bin_of (rd v j) f w = b)).
  { intros b Hb. rewrite Hrd by lia.
    destruct (Z.eqb_spec b b0) as [->|Hne].
    - split; [|pose proof (Hrange b0 Hb0r); lia].
      intros _. exists i. rewrite in_app_iff. simpl. auto.
    - rewrite Hocc by done. split.
      + intros (j & Hj & Hbj & Hbin). exists j. rewrite in_app_iff. auto.
      + intros (j & Hj & Hbj & Hbin). apply in_app_iff in Hj as [Hj|Hj].
        * by exists j.
        * destruct Hj as [<-|[]]. done. }
  assert (Hrange' : forall b, 0 <= b < 32 -> 0 <= rd bins' b <= 255).
  { intros b Hb. rewrite Hrd by lia. pose proof (Hrange b Hb).
    destruct (Z.eqb_spec b b0) as [->|]; lia. }
  assert (Hmin' : forall j, In j (seen ++ [i]) -> trusted v j = true ->
            f <= rd v j -> hc <= rd v j -> f_next_floor st <= rd v j).
  { intros j Hj Ht Hf Hc. apply in_app_iff in Hj as [Hj|[<-|[]]]; [by apply Hmin|lia]. }
  assert (Hsome' : f_next_floor st < CEIL_U ->
            exists j, In j (seen ++ [i]) /\ trusted v j = true /\
              rd v j = f_next_floor st /\ hc <= rd v j /\ f <= rd v j).
  { intros Hlt. destruct (Hsome Hlt) as (j & Hj & Hrest).
    exists j. rewrite in_app_iff. auto. }
  assert (Hlen' : length bins' = 32%nat) by (unfold bins'; by rewrite length_wr).
  destruct (Z.ltb_spec (f_h_count st) NH) as [Hh|Hh]; [|discriminate].
  unfold NH, NB in Hh.
  destruct (Z.leb_spec (rd bins' b0) FIRST_HITS) as [Hfirst|Hlater];
    intros [= <-]; split; simpl; try done.
  - unfold u8. rewrite Z.mod_small by lia. lia.
  - by rewrite length_wr.
  - intros b Hb. unfold u8. rewrite Z.mod_small by lia.
    replace (Z.to_nat (f_h_count st + 1)) with (S (Z.to_nat (f_h_count st))) by lia.
    pose proof (hits_in_snoc v (f_hits st) f w b (Z.to_nat (f_h_count st)) 0 i) as Hs.
    replace (0 + Z.of_nat (Z.to_nat (f_h_count st))) with (f_h_count st) in Hs by lia.
    rewrite Hs by lia. rewrite Hhits by done. fold b0.
    rewrite Hrd by lia. rewrite Hrd in Hfirst by lia.
    rewrite Z.eqb_refl in Hfirst. unfold FIRST_HITS in Hfirst.
    rewrite (Z.eqb_sym b0 b). pose proof (Hrange b Hb).
    destruct (Z.eqb_spec b b0) as [->|]; lia.
  - intros j Hj. unfold u8 in Hj. rewrite Z.mod_small in Hj by lia.
    rewrite rd_wr by lia.
    destruct (Z.eqb_spec j (f_h_count st)); [done|apply Hhbin; lia].
  - intros b Hb. rewrite Hhits by done. rewrite Hrd by lia.
    rewrite Hrd in Hlater by lia. rewrite Z.eqb_refl in Hlater.
    unfold FIRST_HITS in Hlater.
    destruct (Z.eqb_spec b b0) as [->|]; lia.
Qed.

Lemma fill_bins_inv n lo seen st rc st' :
  fill_inv v f hc w seen st ->
  fill_bins n v f hc w st lo = (rc, st') -> rc = CRC_0 ->
  fill_inv v f hc w (seen ++ indices lo n) st'.
Proof.
  revert lo seen st. induction n as [|n IH]; intros lo seen st Hinv; simpl.
  - intros [= <- <-] _. by rewrite app_nil_r.
  - destruct (fill_step v f hc w st lo) as [rc1 st1] eqn:Hs.
    destruct (Z.eqb_spec rc1 CRC_0) as [->|Hne].
    + intros H Hrc. replace (seen ++ lo :: indices (lo + 2) n)
        with ((seen ++ [lo]) ++ indices (lo + 2) n) by by rewrite <- app_assoc.
      apply (IH _ _ _ (fill_step_inv _ _ _ _ Hinv Hs) H Hrc).
    + intros [= <- <-] Hrc. done.
Qed.
End FillStep.

Lemma fill_inv_init v f hc w hits :
  length hits = 64%nat ->
  fill_inv v f hc w [] (mkFill (repeat 0 (Z.to_nat NB)) hits 0 CEIL_U).
Proof.
  intros Hl.
  assert (Hz : forall b, rd (repeat 0 (Z.to_nat NB)) b = 0).
  { intros b. unfold rd. rewrite nth_repeat. done. }
  split; cbn [f_bins f_hits f_h_count f_next_floor].
  - by rewrite repeat_length.
  - intros b _. rewrite Hz. lia.
  - intros b _. rewrite Hz. split; [lia|]. by intros (i & [] & _).
  - lia.
  - done.
  - intros b _. rewrite Hz. done.
  - intros j Hj. lia.
  - lia.
  - intros i [].
  - unfold CEIL_U. lia.
Qed.

(** ** The scans of the bins *)

(** The skip over the empty bins: [b1 - 1] is the first bin with a value. *)
Lemma skip_empty_spec bins n b :
  let b1 := skip_empty bins n b in
  b <= b1 <= b + Z.of_nat n /\
  (forall k, b <= k < b1 - 1 -> rd bins k = 0) /\
  (b1 < b + Z.of_nat n -> rd bins (b1 - 1) <> 0) /\
  (rd bins (b1 - 1) = 0 -> forall k, b <= k < b1 -> rd bins k = 0) /\
  ((0 < n)%nat -> b < b1).
Proof.
  revert b. induction n as [|n IH]; intros b; cbn [skip_empty].
  - cbv zeta. repeat split; try lia; intros; lia.
  - destruct (Z.eqb_spec (rd bins b) 0) as [H0|Hn0].
    + specialize (IH (b + 1)). cbv zeta in IH.
      destruct IH as (Hr & Hz & Hnz & Hall & Hpos).
      cbv zeta. repeat split; try lia.
      * intros k Hk. destruct (Z.eq_dec k b) as [->|]; [done|apply Hz; lia].
      * intros Hl k Hk. destruct (Z.eq_dec k b) as [->|]; [done|].
        apply Hall; [done|lia].
    + cbv zeta. replace (b + 1 - 1) with b by lia.
      repeat split; try lia; intros; lia.
Qed.

(** The search of the stop bin from [b] on, entered with a hole count of 0
    or 1 (1: the bin before [b] is empty). *)
Lemma find_stop_spec bins n b hole inl b2 stop inl' :
  find_stop bins n b hole inl = (b2, stop, inl') ->
  1 <= b -> b + Z.of_nat n = 32 ->
  (forall k, 0 <= k < 32 -> 0 <= rd bins k) ->
  (hole = 0 \/ (hole = 1 /\ rd bins (b - 1) = 0)) ->
  (b2 = 32 /\ stop = 32 /\ no_gap bins b /\
   (hole = 1 -> b <= 31 -> 0 < rd bins b))
  \/
  (b <= b2 <= 31 /\ stop = b2 - 1 /\ rd bins b2 = 0 /\ rd bins (b2 - 1) = 0 /\
   (hole = 0 -> b < b2) /\
   (hole = 1 -> b < b2 -> 0 < rd bins b) /\
   (forall k, b <= k -> k + 1 <= b2 - 1 ->
      0 < rd bins k \/ 0 < rd bins (k + 1))).
Proof.
  revert b hole inl. induction n as [|n IH]; intros b hole inl; cbn [find_stop].
  - intros [= <- <- <-] Hb Hn _ _. left. unfold NB. repeat split; try lia.
    intros k Hk1 Hk2. lia.
  - intros H Hb Hn Hnn Hh.
    destruct (Z.ltb_spec 0 (rd bins b)) as [Hocc|Hemp].
    + apply IH in H; [|lia|lia|done|by left].
      destruct H as [(-> & -> & Hng & _)|(Hr & -> & Hz1 & Hz2 & Hlt & _ & Hfirst)].
      * left. repeat split; try done.
        intros k Hk1 Hk2. destruct (Z.eq_dec k b) as [->|]; [by left|].
        apply Hng; lia.
      * right. repeat split; try done; try lia.
        intros k Hk1 Hk2. destruct (Z.eq_dec k b) as [->|]; [by left|].
        apply Hfirst; lia.
    + assert (Hb0 : rd bins b = 0) by (specialize (Hnn b); lia).
      destruct Hh as [->|[-> Hprev]].
      * change (u8 (0 + 1)) with 1 in H.
        change (MAX_HOLES <? 1) with false in H. cbv iota in H.
        apply IH in H; [|lia|lia|done|right; split; [done|]].
        2:{ by replace (b + 1 - 1) with b by lia. }
        destruct H as [(-> & -> & Hng & Hnext)|(Hr & -> & Hz1 & Hz2 & _ & Hnext & Hfirst)].
        -- left. repeat split; try done; try lia.
           intros k Hk1 Hk2. destruct (Z.eq_dec k b) as [->|].
           ++ right. apply Hnext; [done|lia].
           ++ apply Hng; lia.
        -- right. repeat split; try done; try lia.
           intros k Hk1 Hk2. destruct (Z.eq_dec k b) as [->|].
           ++ right. apply Hnext; [done|lia].
           ++ apply Hfirst; lia.
      * change (u8 (1 + 1)) with 2 in H.
        change (MAX_HOLES <? 2) with true in H. cbv iota in H.
        injection H as <- <- <-. right. unfold MAX_HOLES, u8.
        rewrite Z.mod_small by lia.
        repeat split; try done; try lia; intros; lia.
Qed.

Lemma overlap_scan_spec bins n b asc prev c s :
  overlap_scan bins n b asc prev c = Some s ->
  2 <= b -> b + Z.of_nat n <= 256 ->
  exists b', (if asc then b < b' else b <= b') /\ b' < b + Z.of_nat n /\
    s = b' - 2.
Proof.
  revert b asc prev c. induction n as [|n IH]; intros b asc prev c;
    cbn [overlap_scan]; [discriminate|].
  cbv zeta. intros H Hb Hn. destruct asc.
  - apply IH in H as (b' & Hb' & Hlt & ->); [|lia|lia].
    exists b'. split; [|lia]. destruct (negb _); lia.
  - destruct (_ <? _).
    + injection H as <-. exists b. unfold u8. rewrite Z.mod_small by lia. lia.
    + apply IH in H as (b' & Hb' & Hlt & ->); [|lia|lia].
      exists b'. simpl in Hb'. lia.
Qed.

Lemma count_bins_spec bins n b k c m c' m' :
  count_bins bins n b k c m = (c', m') ->
  (forall j, b <= j < b + Z.of_nat n -> 0 <= rd bins j <= 255) ->
  0 <= c -> c + 255 * Z.of_nat n < 65536 ->
  c <= c' /\ forall j, b <= j < b + Z.of_nat n -> c + rd bins j <= c'.
Proof.
  revert b k c m. induction n as [|n IH]; intros b k c m; cbn [count_bins].
  - intros [= <- <-] _ _ _. split; [lia|]. intros j Hj. lia.
  - intros H Hr Hc Hb. pose proof (Hr b ltac:(lia)) as Hrb.
    apply IH in H.
    + unfold u16 in H. rewrite Z.mod_small in H by lia.
      destruct H as [Hle Hall]. split; [lia|].
      intros j Hj. destruct (Z.eq_dec j b) as [->|]; [lia|].
      specialize (Hall j). pose proof (Hr j ltac:(lia)). lia.
    + intros j Hj. apply Hr. lia.
    + unfold u16. rewrite Z.mod_small by lia. lia.
    + unfold u16. rewrite Z.mod_small by lia. lia.
Qed.

Lemma zero_bins_spec bins n b :
  0 <= b -> b + Z.of_nat n <= Z.of_nat (length bins) ->
  length (zero_bins bins n b) = length bins /\
  forall k, 0 <= k ->
    rd (zero_bins bins n b) k
    = if (b <=? k) && (k <? b + Z.of_nat n) then 0 else rd bins k.
Proof.
  revert bins b. induction n as [|n IH]; intros bins b Hb Hl; cbn [zero_bins].
  - split; [done|]. intros k Hk.
    destruct (Z.leb_spec b k), (Z.ltb_spec k (b + Z.of_nat 0)); simpl; lia || done.
  - destruct (IH (wr bins b 0) (b + 1)) as [Hlen Hrd];
      [lia|rewrite length_wr; lia|].
    rewrite length_wr in Hlen. split; [done|].
    intros k Hk. rewrite Hrd by done. rewrite rd_wr by lia.
    destruct (Z.leb_spec (b + 1) k), (Z.ltb_spec k (b + 1 + Z.of_nat n)),
      (Z.leb_spec b k), (Z.ltb_spec k (b + Z.of_nat (S n))),
      (Z.eqb_spec k b); simpl; lia || done.
Qed.

(** ** The recorded clusters *)

Lemma clusters_good_mono z c B B' :
  clusters_good z c B -> B <= B' -> clusters_good z c B'.
Proof.
  intros [Hc Hl1 Hl2 Hl3 Hl4 Hcount Hasc Hbound] HB. split; try done.
  intros i Hi. specialize (Hbound i Hi). lia.
Qed.

Lemma clusters_good_inlier z c B n :
  clusters_good z c B -> clusters_good (set_inlier_count z n) c B.
Proof. intros [Hc Hl1 Hl2 Hl3 Hl4 Hcount Hasc Hbound]. by split. Qed.

Lemma bin_base_exact s w f :
  0 <= s -> 0 <= w -> 0 <= f -> f + s * 2 ^ w < 65536 ->
  bin_base s w f = f + s * 2 ^ w.
Proof.
  intros Hs Hw Hf Hlt. unfold bin_base, u16.
  rewrite Z.shiftl_mul_pow2 by done.
  assert (0 <= s * 2 ^ w) by (apply Z.mul_nonneg_nonneg; lia).
  rewrite Z.mod_small; lia.
Qed.

Lemma bin_base_le s w f :
  0 <= s -> 0 <= w -> 0 <= f -> bin_base s w f <= f + s * 2 ^ w.
Proof.
  intros Hs Hw Hf. unfold bin_base, u16.
  rewrite Z.shiftl_mul_pow2 by done.
  assert (0 <= s * 2 ^ w) by (apply Z.mul_nonneg_nonneg; lia).
  pose proof (Z.mod_le (s * 2 ^ w + f) 65536 ltac:(lia) ltac:(lia)). lia.
Qed.

(** Recording cluster [c] with a floor not below the ceils recorded so far. *)
Lemma clusters_good_record z c B count center floor ceil B' :
  clusters_good z c B -> c + 1 < NC -> MIN_SIZE <= count ->
  B <= floor -> ceil <= B' -> B <= B' ->
  clusters_good (record_cluster z c count center floor ceil) (c + 1) B'.
Proof.
  intros [Hc0 Hl1 Hl2 Hl3 Hl4 Hcnt Hasc Hbound] Hc Hcount Hfloor Hceil HB.
  unfold NC in *.
  split; cbn [record_cluster cluster_count cluster_ceil cluster_floor
              cluster_center]; rewrite ?length_wr; try done; try lia.
  - unfold NC. lia.
  - intros i Hi. rewrite rd_wr by lia.
    destruct (Z.eqb_spec i c); [done|apply Hcnt; lia].
  - intros i j Hi Hij Hj. rewrite !rd_wr by lia.
    destruct (Z.eqb_spec i c); [lia|].
    destruct (Z.eqb_spec j c).
    + specialize (Hbound i ltac:(lia)). lia.
    + apply Hasc; lia.
  - intros i Hi. rewrite rd_wr by lia.
    destruct (Z.eqb_spec i c); [done|].
    specialize (Hbound i ltac:(lia)). lia.
Qed.

(** ** The bin clustering loop *)

Section ClusterBins.
Context (f w bw : Z) (fb : list Z) (z0 : categories) (c0 nf0 : Z).
Hypothesis Hfb : bins_ok fb.
Hypothesis Hw : 0 <= w.
Hypothesis Hbw : bw = 2 ^ w.
Hypothesis Hf : 0 <= f.
Hypothesis Hocc : forall k, 0 <= k < 32 -> 0 < rd fb k -> f + k * bw < 65000.

Lemma bin_base_occupied s :
  0 <= s < 32 -> 0 < rd fb s -> bin_base s w f = f + s * bw.
Proof.
  intros Hs Ho. specialize (Hocc s Hs Ho). subst bw.
  apply bin_base_exact; lia.
Qed.

Lemma cluster_bins_inv fuel st b rc st' :
  cb_inv f bw fb z0 c0 nf0 st b ->
  cluster_bins fuel f w bw st b = Some (rc, st') -> rc = CRC_0 ->
  cb_final f bw fb z0 c0 nf0 st'.
Proof.
  revert st b. induction fuel as [|fuel IH]; intros st b Hinv; [discriminate|].
  destruct Hinv as [Hb Hlen Habove Hbelow Hnf Hgood Hrest Hg].
  destruct Hfb as [Hfblen Hfbr].
  assert (Hbw0 : 0 < bw) by (subst bw; apply Z.pow_pos_nonneg; lia).
  assert (Hnn : forall k, 0 <= k < 32 -> 0 <= rd (b_bins st) k <= 255).
  { intros k Hk. destruct (Z_lt_le_dec k b) as [Hlt|Hge].
    - destruct (Hbelow k ltac:(lia)) as [->|(-> & _)]; [lia|by apply Hfbr].
    - rewrite Habove by lia. by apply Hfbr. }
  cbn [cluster_bins]. unfold NB.
  destruct (Z.ltb_spec b 32) as [_|]; [|lia]. cbn [negb].
  pose proof (skip_empty_spec (b_bins st) (Z.to_nat (32 - b)) b) as Hskip.
  set (b1 := skip_empty (b_bins st) (Z.to_nat (32 - b)) b) in *.
  cbv zeta in Hskip. destruct Hskip as (Hr1 & Hz & Hnz & Hall & Hpos).
  assert (Hb1 : b < b1 <= 32) by lia.
  assert (Hu8 : u8 (b1 - 1) = b1 - 1) by (unfold u8; rewrite Z.mod_small; lia).
  rewrite Hu8.
  assert (Hgoodmono : forall B, f + b * bw <= B ->
            clusters_good (b_z st) (b_c_ind st) B).
  { intros B HB. by apply (clusters_good_mono _ _ _ _ Hgood). }
  destruct (Z.leb_spec 32 b1) as [Hend|Hnend].
  - (* the scan for the start bin reached the end of the histogram *)
    assert (b1 = 32) as Hb1e by lia. rewrite Hb1e in *.
    change (32 - 1) with 31 in *.
    assert (Hb29 : 0 < rd fb 31 -> b <= 29).
    { intros H31. destruct Hg as [(-> & _)|(e & He & He0 & He1)]; [lia|].
      destruct (Z.eq_dec (e + 1) 31) as [Heq|]; [|lia].
      rewrite Heq in He1. lia. }
    assert (Hb30 : b <= 30).
    { destruct Hg as [(-> & _)|(e & He & _)]; lia. }
    destruct (Z.ltb_spec 0 (rd (b_bins st) 31)) as [H31|H31].
    + intros [= <- <-] _.
      rewrite Habove in H31 by lia. specialize (Hb29 H31).
      split; [|split; [|split]]; cbn [b_bins b_z b_outlier_presence].
      * by rewrite length_wr.
      * intros k Hk. rewrite rd_wr by lia.
        destruct (Z.eqb_spec k 31); [by left|].
        destruct (Z_lt_le_dec k b) as [Hlt|Hge]; [apply Hbelow; lia|].
        left. apply Hz. lia.
      * done.
      * apply (out_requeue _ _ _ _ _ _ _ 31); cbn [b_next_floor b_z b_c_ind];
          [lia|apply bin_base_occupied; [lia|done]|done|].
        left. split; [lia|]. change (31 - 1) with 30. change (31 - 2) with 29.
        rewrite <- !Habove by lia. rewrite !Hz by lia.
        split_and!; try done. apply Hgoodmono. nia.
    + intros [= <- <-] _.
      assert (H31z : rd (b_bins st) 31 = 0) by (specialize (Hnn 31); lia).
      specialize (Hall H31z).
      split; [|split; [|split]]; try done.
      * intros k Hk.
        destruct (Z_lt_le_dec k b) as [Hlt|Hge]; [apply Hbelow; lia|].
        left. apply Hall. lia.
      * apply out_exit; [done| | |].
        -- rewrite <- Habove by lia. apply Hall. lia.
        -- rewrite <- Habove by lia. apply Hall. lia.
        -- apply Hgoodmono. nia.
  - (* a start bin [s] below the end of the histogram *)
    set (s := b1 - 1) in *.
    assert (Hs : b <= s <= 30) by lia.
    destruct (Z.leb_spec 32 s) as [|_]; [lia|].
    assert (Hsocc : 0 < rd (b_bins st) s).
    { specialize (Hnn s ltac:(lia)). assert (rd (b_bins st) s <> 0); [|lia].
      apply Hnz. lia. }
    assert (Hsfb : 0 < rd fb s) by (rewrite <- Habove; lia).
    assert (Hzs : forall k, b <= k < s -> rd fb k = 0).
    { intros k Hk. rewrite <- Habove by lia. apply Hz. lia. }
    destruct (find_stop (b_bins st) (Z.to_nat (32 - b1)) b1 0
                (inlier_count (b_z st))) as [[b2 stop] inl'] eqn:Hfs.
    apply find_stop_spec in Hfs; [|lia|lia|intros k Hk; by apply Hnn|by left].
    set (z1 := set_inlier_count (b_z st) inl').
    assert (Hrest1 : same_rest z0 z1) by done.
    destruct Hfs as [(-> & -> & Hng & _)|(Hr2 & -> & Hz1 & Hz2 & Hlt & _ & Hfirst)].
    + (* no stop bin: the run is handed to the next histogram *)
      change (32 =? 32) with true. cbv iota.
      intros [= <- <-] _.
      destruct (zero_bins_spec (b_bins st) (Z.to_nat (32 - s)) s) as [Hzl Hzr];
        [lia|lia|].
      assert (Hngfb : no_gap fb (s + 1)).
      { intros k Hk1 Hk2. rewrite <- !Habove by lia.
        apply Hng; [unfold s in Hk1; lia|done]. }
      split; [|split; [|split]]; cbn [b_bins b_z b_outlier_presence].
      * by rewrite Hzl.
      * intros k Hk. rewrite Hzr by lia.
        destruct (Z.leb_spec s k) as [Hsk|Hsk]; cbn [andb].
        { destruct (Z.ltb_spec k (s + Z.of_nat (Z.to_nat (32 - s))));
            [by left|lia]. }
        destruct (Z_lt_le_dec k b) as [Hlt|Hge]; [apply Hbelow; lia|].
        left. apply Hz. lia.
      * done.
      * apply (out_requeue _ _ _ _ _ _ _ s); cbn [b_next_floor b_z b_c_ind];
          [lia|apply bin_base_occupied; [lia|done]|done|].
        destruct Hg as [(Hb0 & Hc0 & Hsame)|(e & He & He0 & He1)].
        -- subst b.
           destruct (Z_le_gt_dec 2 s) as [Hs2|Hs2].
           ++ left. split_and!; [done|apply Hzs; lia|apply Hzs; lia|].
              apply clusters_good_inlier, Hgoodmono. nia.
           ++ destruct (Z.eq_dec s 1) as [Hs1|Hs1].
              ** right. left. split_and!; [done|apply Hzs; lia|done|done|].
                 apply clusters_good_inlier, Hgoodmono. lia.
              ** right. right. assert (s = 0) as Hs0 by lia.
                 split_and!; [done|done|done| |by rewrite Hs0 in Hngfb].
                 apply clusters_good_inlier, Hgoodmono. lia.
        -- assert (Hes : e + 2 <= s).
           { destruct (Z_lt_le_dec s e) as [Hse|Hes].
             - destruct (Hngfb e ltac:(lia) ltac:(lia)); lia.
             - destruct (Z.eq_dec e s) as [->|]; [lia|].
               destruct (Z.eq_dec (e + 1) s) as [Heq|]; [|lia].
               rewrite Heq in He1. lia. }
           left. split_and!; [lia|apply Hzs; lia|apply Hzs; lia|].
           apply clusters_good_inlier, Hgoodmono. nia.
    + (* a stop bin: the run [s, stop) *)
      assert (Hstop : s + 1 <= b2 - 1 <= 30) by (specialize (Hlt eq_refl); lia).
      destruct (Z.eqb_spec b2 32) as [|_]; [lia|].
      destruct (Z.leb_spec 32 (b2 - 1)) as [|_]; [lia|].
      assert (Hfb0 : rd fb (b2 - 1) = 0) by (rewrite <- Habove; [done|lia]).
      assert (Hfb1 : rd fb (b2 - 1 + 1) = 0).
      { replace (b2 - 1 + 1) with b2 by lia. rewrite <- Habove; [done|lia]. }
      cbv zeta.
      set (cut := if 6 <=? _ then _ else None).
      assert (Hcut : forall s', cut = Some s' -> s < s' < b2 - 1).
      { unfold cut. destruct (6 <=? _); [|discriminate]. intros s' H.
        apply overlap_scan_spec in H as (b' & Hb' & Hlt' & ->); lia. }
      set (stop' := match cut with Some s' => s' | None => b2 - 1 end).
      assert (Hstop' : s < stop' <= b2 - 1).
      { unfold stop'. destruct cut as [s'|]; [|lia].
        specialize (Hcut s' eq_refl). lia. }
      set (ov' := match cut with Some _ => true | None => b_overlap st end).
      assert (HG2 : exists e, stop' <= e <= 30 /\ rd fb e = 0 /\ rd fb (e + 1) = 0).
      { exists (b2 - 1). split_and!; [lia|lia|done|done]. }
      destruct (count_bins (b_bins st) (Z.to_nat (stop' - s)) s 1 0 0)
        as [c_count bin_mean] eqn:Hcb.
      apply count_bins_spec in Hcb as [Hc0 Hcall];
        [|intros j Hj; apply Hnn; lia|lia|lia].
      destruct (Z.ltb_spec c_count MIN_SIZE) as [Hlow|Hhigh].
      * (* a low density cluster: the bins are left for the sieving *)
        intros H Hrc. eapply IH; [|exact H|exact Hrc]. clear H.
        replace (Z.max s stop') with stop' by lia.
        split; cbn [b_bins b_z b_c_ind b_next_floor b_outlier_presence];
          try done.
        -- lia.
        -- intros k Hk. apply Habove. lia.
        -- intros k Hk. destruct (Z_lt_le_dec k b) as [Hkb|Hkb].
           ++ destruct (Hbelow k ltac:(lia)) as [?|(? & ? & _)]; auto.
           ++ destruct (Z_lt_le_dec k s) as [Hks|Hks]; [left; apply Hz; lia|].
              right. rewrite <- Habove by lia.
              specialize (Hcall k ltac:(lia)). unfold MIN_SIZE in Hlow.
              split_and!; [done|lia|done].
        -- apply clusters_good_inlier, Hgoodmono. nia.
        -- by right.
      * (* a cluster: its bins are emptied and it is recorded *)
        assert (Hc7 : 0 <= b_c_ind st < 8) by (destruct Hgood as [Hc _]; exact Hc).
        assert (Hu8c : u8 (b_c_ind st + 1) = b_c_ind st + 1)
          by (unfold u8; rewrite Z.mod_small; lia).
        rewrite Hu8c. unfold NC.
        destruct (Z.leb_spec 8 (b_c_ind st + 1)) as [|Hroom].
        { intros [= <- _] Hrc. discriminate Hrc. }
        destruct (zero_bins_spec (b_bins st) (Z.to_nat (stop' - s)) s)
          as [Hzl Hzr]; [lia|lia|].
        intros H Hrc. eapply IH; [|exact H|exact Hrc]. clear H.
        split; cbn [b_bins b_z b_c_ind b_next_floor b_outlier_presence];
          try done.
        -- lia.
        -- by rewrite Hzl.
        -- intros k Hk. rewrite Hzr by lia.
           destruct (Z.leb_spec s k), (Z.ltb_spec k (s + Z.of_nat (Z.to_nat (stop' - s))));
             cbn [andb]; try lia; apply Habove; lia.
        -- intros k Hk. rewrite Hzr by lia.
           destruct (Z.leb_spec s k) as [Hsk|Hsk]; cbn [andb].
           { destruct (Z.ltb_spec k (s + Z.of_nat (Z.to_nat (stop' - s))));
               [by left|lia]. }
           destruct (Z_lt_le_dec k b) as [Hkb|Hkb]; [apply Hbelow; lia|].
           left. apply Hz. lia.
        -- apply (clusters_good_record _ _ (f + b * bw)); unfold NC;
             [by apply clusters_good_inlier|lia|done| | |nia].
           ++ rewrite bin_base_occupied by (done || lia). nia.
           ++ subst bw. apply bin_base_le; lia.
        -- by right.
Qed.
End ClusterBins.

(** ** The outlier sieving *)

(** The sieve keeps the clusters and empties every bin that holds no more
    values than it has hits left. *)
Lemma sieve_spec n v hits f w z bins h rc z' bins' :
  sieve n v hits f w z bins h = (rc, z', bins') ->
  length bins = 32%nat ->
  (forall k, 0 <= k < 32 -> 0 <= rd bins k) ->
  (forall j, h <= j < h + Z.of_nat n -> 0 <= bin_of (rd v (rd hits j)) f w < 32) ->
  0 <= outlier_size z <= NO ->
  same_cl z z' /\ cluster_size z' = cluster_size z /\
  aggreg_size_1 z' = aggreg_size_1 z /\ aggreg_size_2 z' = aggreg_size_2 z /\
  0 <= outlier_size z' <= NO /\
  (rc = CRC_0 ->
   length bins' = 32%nat /\
   forall k, 0 <= k < 32 ->
     (rd bins k <= hits_in v hits f w k n h -> rd bins' k = 0) /\
     0 <= rd bins' k <= rd bins k).
Proof.
  revert z bins h. induction n as [|n IH]; intros z bins h; cbn [sieve hits_in].
  - intros [= <- <- <-] Hl Hnn _ Ho. split_and!; try done; try lia.
    intros _. split; [done|]. intros k Hk. specialize (Hnn k Hk). split; lia.
  - intros H Hl Hnn Hb Ho.
    pose proof (Hb h ltac:(lia)) as Hbh.
    set (b0 := bin_of (rd v (rd hits h)) f w) in *.
    destruct (Z.ltb_spec 0 (rd bins b0)) as [Hpos|Hzero].
    + destruct (Z.leb_spec NO (outlier_size z)) as [Hfull|Hroom].
      { injection H as <- <- <-. split_and!; try done; try lia. }
      apply IH in H; cycle 1.
      { by rewrite length_wr. }
      { intros k Hk. rewrite rd_wr by lia. specialize (Hnn k Hk).
        destruct (Z.eqb_spec k b0) as [->|]; lia. }
      { intros j Hj. apply Hb. lia. }
      { cbn [set_outliers outlier_size]. unfold u8, NO in *.
        rewrite Z.mod_small; lia. }
      destruct H as (Hsame & Hcs & Ha1 & Ha2 & Ho' & Hbins).
      split; [exact Hsame|]. split; [exact Hcs|]. split; [exact Ha1|].
      split; [exact Ha2|]. split; [exact Ho'|].
      intros Hrc. destruct (Hbins Hrc) as [Hl' Hk'].
      split; [done|]. intros k Hk. destruct (Hk' k Hk) as [Hz Hr].
      rewrite rd_wr in Hz, Hr by lia.
      rewrite (Z.eqb_sym b0 k).
      destruct (Z.eqb_spec k b0) as [->|]; split; try lia; intros; apply Hz; lia.
    + apply IH in H; cycle 1; try done.
      { intros j Hj. apply Hb. lia. }
      destruct H as (Hsame & Hcs & Ha1 & Ha2 & Ho' & Hbins).
      split; [exact Hsame|]. split; [exact Hcs|]. split; [exact Ha1|].
      split; [exact Ha2|]. split; [exact Ho'|].
      intros Hrc. destruct (Hbins Hrc) as [Hl' Hk'].
      split; [done|]. intros k Hk. destruct (Hk' k Hk) as [Hz Hr].
      rewrite (Z.eqb_sym b0 k). specialize (Hnn k Hk).
      destruct (Z.eqb_spec k b0) as [->|]; split; try lia; intros; apply Hz;
        pose proof (hits_in_nonneg v hits f w b0 n (h + 1)); lia.
Qed.

Lemma bin_of_div x f w :
  0 <= w -> f <= x -> x - f < 65536 -> (x - f) / 2 ^ w < 256 ->
  bin_of x f w = (x - f) / 2 ^ w.
Proof.
  intros Hw Hx Hr Hd. unfold bin_of, u8, u16.
  rewrite (Z.mod_small (x - f)) by lia.
  rewrite Z.shiftr_div_pow2 by done.
  apply Z.mod_small. split; [|done].
  apply Z.div_pos; [lia|]. apply Z.pow_pos_nonneg; lia.
Qed.

Lemma h_ceil_of_eq f bw :
  0 <= f < 65536 -> 0 <= bw < 65536 ->
  h_ceil_of f bw = Z.min (f + 32 * bw) CEIL_U.
Proof.
  intros Hf Hb. unfold h_ceil_of, NB, u32, CEIL_U.
  rewrite (Z.mod_small (32 * bw)) by lia.
  rewrite Z.mod_small by lia.
  destruct (Z.ltb_spec 65000 (f + 32 * bw)); lia.
Qed.

Lemma bin_interval x f bw k :
  0 < bw -> f <= x -> ((x - f) / bw = k <-> f + k * bw <= x < f + (k + 1) * bw).
Proof.
  intros Hbw Hx. split.
  - intros <-. pose proof (Z.mul_div_le (x - f) bw Hbw).
    pose proof (Z.mul_succ_div_gt (x - f) bw Hbw). nia.
  - intros [H1 H2]. symmetry. apply (Z.div_unique_pos _ _ _ (x - f - k * bw)); nia.
Qed.

Section Occupancy.
Context (v : list Z) (lo : Z) (n : nat).
Hypothesis Hv : forall i, 0 <= rd v i < 65536.
Context (f w bw hc : Z).
Hypothesis Hw : 0 <= w.
Hypothesis Hbw : bw = 2 ^ w.
Hypothesis Hf : 0 <= f.
Hypothesis Hhc : hc <= f + 32 * bw.

Lemma binned_bin i :
  f <= rd v i < hc ->
  bin_of (rd v i) f w = (rd v i - f) / bw /\ 0 <= (rd v i - f) / bw < 32.
Proof.
  intros Hi. pose proof (Hv i).
  assert (0 < bw) by (subst bw; apply Z.pow_pos_nonneg; lia).
  assert (Hd : 0 <= (rd v i - f) / bw < 32).
  { split; [apply Z.div_pos; lia|]. apply Z.div_lt_upper_bound; lia. }
  split; [|done]. subst bw. apply bin_of_div; lia.
Qed.

Lemma fill_occupied st k :
  fill_inv v f hc w (indices lo n) st -> 0 <= k < 32 ->
  (0 < rd (f_bins st) k <-> occupied v lo n f bw hc k).
Proof.
  intros Hinv Hk. rewrite (fi_occ _ _ _ _ _ _ Hinv k Hk).
  assert (0 < bw) by (subst bw; apply Z.pow_pos_nonneg; lia).
  split.
  - intros (i & Hin & [Ht Hr] & Hb). exists i.
    destruct (binned_bin i Hr) as [Heq _]. rewrite Heq in Hb.
    apply bin_interval in Hb; [|done|lia]. split_and!; try done; lia.
  - intros (i & Hin & Ht & Hr & Hlt). exists i.
    assert (Hfr : f <= rd v i < hc) by nia.
    destruct (binned_bin i Hfr) as [Heq _]. rewrite Heq.
    split_and!; try done. apply bin_interval; [done|lia|done].
Qed.

Lemma fill_empty st k :
  fill_inv v f hc w (indices lo n) st -> 0 <= k < 32 ->
  rd (f_bins st) k = 0 -> f + (k + 1) * bw <= hc ->
  empty_range v lo n (f + k * bw) (f + (k + 1) * bw).
Proof.
  intros Hinv Hk H0 Hle i Hin Ht Hr.
  assert (Ho : occupied v lo n f bw hc k).
  { exists i. split_and!; try done; lia. }
  apply (fill_occupied st k Hinv Hk) in Ho. lia.
Qed.
End Occupancy.

(** ** The widening of the bins *)

Lemma fill_inv_clean v f hc w bins hits :
  clean_bins bins -> length hits = 64%nat ->
  fill_inv v f hc w [] (mkFill bins hits 0 CEIL_U).
Proof.
  intros [Hlen Hz] Hl.
  split; cbn [f_bins f_hits f_h_count f_next_floor].
  - done.
  - intros b Hb. rewrite Hz by done. lia.
  - intros b Hb. rewrite Hz by done. split; [lia|]. by intros (i & [] & _).
  - lia.
  - done.
  - intros b Hb. rewrite Hz by done. done.
  - intros j Hj. lia.
  - lia.
  - by intros i [].
  - unfold CEIL_U. lia.
Qed.

Lemma clusters_good_same z z' c B :
  same_cl z z' -> clusters_good z c B -> clusters_good z' c B.
Proof.
  intros (H1 & H2 & H3 & H4) [Hc Hl1 Hl2 Hl3 Hl4 Hcount Hasc Hbound].
  split; rewrite ?H1, ?H2, ?H3, ?H4; done.
Qed.

Lemma clusters_good_zero z B B' :
  clusters_good z 0 B -> clusters_good z 0 B'.
Proof.
  intros [Hc Hl1 Hl2 Hl3 Hl4 Hcount Hasc Hbound].
  split; try done; intros; lia.
Qed.

Lemma same_cl_refl z : same_cl z z.
Proof. by repeat split. Qed.

Lemma same_cl_trans z1 z2 z3 : same_cl z1 z2 -> same_cl z2 z3 -> same_cl z1 z3.
Proof.
  intros (H1 & H2 & H3 & H4) (G1 & G2 & G3 & G4).
  repeat split; congruence.
Qed.

(** No widening when the next floor lies below the ceil of the histogram. *)
Lemma widen_stay fuel f1 hw w bw :
  f1 < hw -> widen (S fuel) f1 hw w bw = Some (w, bw).
Proof.
  intros H. cbn [widen]. destruct (Z.leb_spec hw f1); [lia|done].
Qed.

Lemma pow2_small w B : 0 <= w -> B = 2 ^ w -> B < 2048 -> w < 11.
Proof.
  intros Hw -> HB. destruct (Z_lt_le_dec w 11) as [|Hge]; [done|].
  pose proof (Z.pow_le_mono_r 2 11 w ltac:(lia) Hge) as H.
  change (2 ^ 11) with 2048 in H. lia.
Qed.

(** The widening loop entered at the first histogram width. *)
Lemma widen_spec fuel f bw f1 W w1 B w' bw' :
  0 <= f -> 0 < bw < 65536 -> f1 < 65536 ->
  0 <= w1 -> B = 2 ^ w1 -> bw <= B ->
  W = f + 32 * (2 * B - bw) ->
  (B = bw \/ (2 * bw <= B /\ f + 32 * (B - bw) <= f1)) ->
  widen fuel f1 W w1 B = Some (w', bw') ->
  0 <= w' /\ bw' = 2 ^ w' /\ bw <= bw' /\ bw' < 65536 /\
  (bw' = bw \/ (2 * bw <= bw' /\ f + 32 * (bw' - bw) <= f1)).
Proof.
  revert W w1 B. induction fuel as [|fuel IH]; intros W w1 B; [discriminate|].
  intros Hf Hbw Hf1 Hw1 HB Hle HW Hcase. cbn [widen].
  destruct (Z.leb_spec W f1) as [Hiter|Hstop].
  - assert (HB2 : B < 2048) by lia.
    pose proof (pow2_small w1 B Hw1 HB ltac:(lia)) as Hw11.
    rewrite Z.shiftl_mul_pow2 by lia. change (2 ^ 1) with 2.
    unfold u16 at 1 2, u8, u32, NB.
    rewrite (Z.mod_small (B * 2)) by lia.
    rewrite (Z.mod_small (w1 + 1)) by lia.
    rewrite Z.mod_small by lia.
    apply IH; try lia.
    + rewrite Z.pow_add_r by lia. subst B. change (2 ^ 1) with 2. done.
  - intros [= <- <-]. split_and!; try done. lia.
Qed.

(** ** Two special histograms: no value at all, and a chain from bin 1 *)

Lemma cluster_bins_empty fuel f w bw st :
  (forall k, 0 <= k < 32 -> rd (b_bins st) k = 0) ->
  cluster_bins (S fuel) f w bw st 0 = Some (CRC_0, st).
Proof.
  intros Hz. cbn [cluster_bins]. unfold NB.
  change (negb (0 <? 32)) with false. cbv iota.
  pose proof (skip_empty_spec (b_bins st) (Z.to_nat (32 - 0)) 0) as Hskip.
  set (b1 := skip_empty (b_bins st) (Z.to_nat (32 - 0)) 0) in *.
  cbv zeta in Hskip. destruct Hskip as (Hr1 & _ & Hnz & _ & Hpos).
  change (Z.of_nat (Z.to_nat (32 - 0))) with 32 in *.
  specialize (Hpos ltac:(simpl; lia)).
  assert (b1 = 32) as ->.
  { destruct (Z_lt_le_dec b1 32) as [Hlt|]; [|lia].
    destruct (Hnz ltac:(lia)). apply Hz. lia. }
  change (32 <=? 32) with true. cbv iota.
  change (u8 (32 - 1)) with 31. rewrite Hz by lia. done.
Qed.

Lemma cluster_bins_stuck fuel f w bw st rc st' :
  length (b_bins st) = 32%nat ->
  (forall k, 0 <= k < 32 -> 0 <= rd (b_bins st) k) ->
  rd (b_bins st) 0 = 0 -> 0 < rd (b_bins st) 1 -> no_gap (b_bins st) 1 ->
  cluster_bins (S fuel) f w bw st 0 = Some (rc, st') -> rc = CRC_0 ->
  b_c_ind st' = b_c_ind st /\ same_cl (b_z st) (b_z st') /\
  same_rest (b_z st) (b_z st') /\
  b_next_floor st' = bin_base 1 w f /\ clean_bins (b_bins st') /\
  b_outlier_presence st' = b_outlier_presence st.
Proof.
  intros Hlen Hnn H0 H1 Hgap. cbn [cluster_bins]. unfold NB.
  change (negb (0 <? 32)) with false. cbv iota.
  pose proof (skip_empty_spec (b_bins st) (Z.to_nat (32 - 0)) 0) as Hskip.
  set (b1 := skip_empty (b_bins st) (Z.to_nat (32 - 0)) 0) in *.
  cbv zeta in Hskip. destruct Hskip as (Hr1 & Hz & Hnz & _ & Hpos).
  change (Z.of_nat (Z.to_nat (32 - 0))) with 32 in *.
  specialize (Hpos ltac:(simpl; lia)).
  assert (b1 = 2) as ->.
  { destruct (Z_lt_le_dec 2 b1) as [Hlt|].
    - specialize (Hz 1 ltac:(lia)). lia.
    - destruct (Z.eq_dec b1 1) as [->|]; [|lia].
      destruct (Hnz ltac:(lia)). done. }
  change (32 <=? 2) with false. change (u8 (2 - 1)) with 1.
  change (32 <=? 1) with false. cbv iota. cbv zeta.
  destruct (find_stop _ _ _ _ _) as [[b2 stop] inl] eqn:Hfs.
  apply find_stop_spec in Hfs; [|lia|simpl; lia|done|by left].
  destruct Hfs as [(-> & -> & _)|(Hb2 & -> & Hz2 & Hz1 & Hlt & _)].
  - change (32 =? 32) with true. cbv iota.
    destruct (zero_bins_spec (b_bins st) (Z.to_nat (32 - 1)) 1) as [Hl Hk];
      [lia|rewrite Hlen; change (Z.of_nat (Z.to_nat (32 - 1))) with 31; simpl; lia|].
    set (zb := zero_bins (b_bins st) (Z.to_nat (32 - 1)) 1) in *.
    intros [= <- <-] _. cbn [b_c_ind b_z b_next_floor b_bins b_outlier_presence].
    split_and!; try done.
    split; [by rewrite Hl|]. intros k Hk'. rewrite Hk by lia.
    destruct (Z.leb_spec 1 k); cbn [andb].
    + change (Z.of_nat (Z.to_nat (32 - 1))) with 31.
      destruct (Z.ltb_spec k (1 + 31)); [done|lia].
    + replace k with 0 by lia. done.
  - specialize (Hlt eq_refl).
    destruct (Hgap (b2 - 1) ltac:(lia) ltac:(lia)) as [H|H].
    + lia.
    + replace (b2 - 1 + 1) with b2 in H by lia. lia.
Qed.

(** ** One pass of the histogram loop *)

Section Pass.
Context (v : list Z) (v_start_ind v_stop_ind lo : Z) (n : nat).
Hypothesis Hv : forall i, 0 <= rd v i < 65536.
Hypothesis Hlo : lo = v_start_ind + BORDER_WIDTH.
Hypothesis Hn : n = steps2 lo (u16 (v_stop_ind - BORDER_WIDTH)).

Lemma pass_spec st rc st' hc :
  pass_pre st -> outliers_ok (h_z st) ->
  clusters_good (h_z st) (h_c_ind st) (h_next_floor st) ->
  histogram_pass v v_start_ind v_stop_ind st = Some (rc, st', hc) ->
  rc = CRC_0 ->
  hc = Z.min (h_next_floor st + 32 * h_bin_width st) CEIL_U /\
  clean_bins (h_bins st') /\ length (h_hits st') = 64%nat /\
  h_bin_width_2log st' = h_bin_width_2log st /\
  h_bin_width st' = h_bin_width st /\
  outliers_ok (h_z st') /\
  pass_out v lo n (h_next_floor st) (h_bin_width st) hc
    (h_z st) (h_c_ind st) (h_z st') (h_c_ind st') (h_next_floor st').
Proof.
  intros [Hclean Hhits Hw Hbw Hbwlt Hf] Hout Hgood.
  destruct st as [z c bins hits f w bw ov].
  cbn [h_z h_c_ind h_bins h_hits h_next_floor h_bin_width_2log h_bin_width
       h_overlap] in *.
  assert (Hbw0 : 0 < bw) by (subst bw; apply Z.pow_pos_nonneg; lia).
  unfold histogram_pass.
  cbn [h_z h_c_ind h_bins h_hits h_next_floor h_bin_width_2log h_bin_width
       h_overlap].
  rewrite <- Hlo, <- Hn.
  pose proof (h_ceil_of_eq f bw Hf ltac:(lia)) as Hhc.
  set (hc0 := h_ceil_of f bw) in *.
  destruct (fill_bins n v f hc0 w (mkFill bins hits 0 CEIL_U) lo)
    as [rc1 fs] eqn:Hfill.
  destruct (Z.eqb_spec rc1 CRC_0) as [->|Hne]; cbn [negb];
    [|intros [= <- _ _] Hrc; contradiction].
  pose proof (fill_bins_inv v f hc0 w n lo [] _ _ _
                (fill_inv_clean v f hc0 w bins hits Hclean Hhits)
                Hfill eq_refl) as Hinv.
  cbn [app] in Hinv.
  assert (Hle : hc0 <= f + 32 * bw) by lia.
  assert (Hocc : forall k, 0 <= k < 32 ->
            (0 < rd (f_bins fs) k <-> occupied v lo n f bw hc0 k)).
  { intros k Hk.
    apply (fill_occupied v lo n Hv f w bw hc0 Hw Hbw ltac:(lia) Hle fs k Hinv Hk). }
  destruct (cluster_bins 33 f w bw _ 0) as [[rc2 bs]|] eqn:Hcb; [|discriminate].
  destruct (Z.eqb_spec rc2 CRC_0) as [->|Hne]; cbn [negb];
    [|intros [= <- _ _] Hrc; contradiction].
  assert (Hfin : cb_final f bw (f_bins fs) z c (f_next_floor fs) bs).
  { refine (cluster_bins_inv f w bw (f_bins fs) z c (f_next_floor fs)
              _ Hw Hbw ltac:(lia) _ 33 _ 0 CRC_0 bs _ Hcb eq_refl).
    - split; [apply (fi_len _ _ _ _ _ _ Hinv)|apply (fi_range _ _ _ _ _ _ Hinv)].
    - intros k Hk Hpos. apply (Hocc k Hk) in Hpos.
      destruct Hpos as (i & _ & _ & Hr & Hlt). unfold CEIL_U in Hhc. lia.
    - split; cbn [b_bins b_next_floor b_z b_c_ind b_outlier_presence].
      + lia.
      + apply (fi_len _ _ _ _ _ _ Hinv).
      + done.
      + intros k Hk. lia.
      + done.
      + by replace (f + 0 * bw) with f by lia.
      + by repeat split.
      + left. split_and!; try done. }
  destruct Hfin as (Hlen' & Hbins' & Hrest & Hcbout).
  assert (Hnn : forall k, 0 <= k < 32 -> 0 <= rd (f_bins fs) k).
  { intros k Hk. apply (fi_range _ _ _ _ _ _ Hinv k Hk). }
  assert (Hpo : forall z', same_cl (b_z bs) z' ->
            pass_out v lo n f bw hc0 z c z' (b_c_ind bs) (b_next_floor bs)).
  { intros z' Hsame.
    destruct Hcbout as [Hnf H30 H31 Hg|s Hs Hnf Hpos Hcases].
    - apply pass_exit.
      + by apply (clusters_good_same (b_z bs)).
      + rewrite Hnf. apply (fi_nf_le _ _ _ _ _ _ Hinv).
      + intros Ho. apply (Hocc 30) in Ho; lia.
      + intros Ho. apply (Hocc 31) in Ho; lia.
      + rewrite Hnf. intros Hlt.
        destruct (fi_nf_some _ _ _ _ _ _ Hinv Hlt) as (i0 & _ & _ & Hi0 & Hi1 & _).
        unfold CEIL_U in *. split; [lia|].
        intros i Hin Ht [Hr1 Hr2].
        destruct (Z_lt_le_dec (rd v i) hc0) as [Hin_h|Hout_h].
        * destruct (Z_lt_le_dec (rd v i) (f + 31 * bw)).
          -- assert (Ho : occupied v lo n f bw hc0 30)
               by (exists i; split_and!; try done; lia).
             apply (Hocc 30) in Ho; lia.
          -- assert (Ho : occupied v lo n f bw hc0 31)
               by (exists i; split_and!; try done; lia).
             apply (Hocc 31) in Ho; lia.
        * pose proof (fi_nf_min _ _ _ _ _ _ Hinv i Hin Ht ltac:(nia) Hout_h).
          lia.
      + intros Hnone.
        rewrite (cluster_bins_empty 32) in Hcb.
        * by injection Hcb as <-.
        * cbn [b_bins]. intros k Hk. specialize (Hnn k Hk).
          destruct (Z_lt_le_dec 0 (rd (f_bins fs) k)) as [Hp|]; [|lia].
          apply (Hocc k Hk) in Hp. by destruct (Hnone k Hk).
    - pose proof (proj1 (Hocc s ltac:(lia)) Hpos) as Hos.
      apply (pass_requeue _ _ _ _ _ _ _ _ _ _ _ s); try done.
      + destruct Hos as (i & _ & _ & Hr & Hlt). lia.
      + destruct Hcases as [(Hs2 & Hz1 & Hz2 & Hg)|[(-> & _ & Hc & Hsm & _)|
                            (-> & Hc & Hsm & _ & Hgap)]].
        * left. split; [done|]. split; [|by apply (clusters_good_same (b_z bs))].
          destruct Hos as (i0 & _ & _ & Hr0 & Hlt0).
          intros i Hin Ht [Hr1 Hr2].
          destruct (Z_lt_le_dec (rd v i) (f + (s - 1) * bw)).
          -- assert (Ho : occupied v lo n f bw hc0 (s - 2)).
             { exists i. split_and!; try done; lia. }
             apply (Hocc (s - 2)) in Ho; lia.
          -- assert (Ho : occupied v lo n f bw hc0 (s - 1)).
             { exists i. split_and!; try done; lia. }
             apply (Hocc (s - 1)) in Ho; lia.
        * right. left. split; [done|]. split; [done|].
          by apply (same_cl_trans _ (b_z bs)).
        * right. right. split; [done|]. split; [done|].
          split; [by apply (same_cl_trans _ (b_z bs))|].
          intros k Hk1 Hk2.
          destruct (Hgap k Hk1 Hk2) as [H|H]; [left|right];
            apply Hocc; done || lia. }
  assert (Hbnn : forall k, 0 <= k < 32 -> 0 <= rd (b_bins bs) k).
  { intros k Hk. destruct (Hbins' k Hk) as [->|(-> & _)]; [lia|by apply Hnn]. }
  destruct Hrest as (Hr1 & Hr2 & Hr3 & Hr4 & _).
  destruct Hout as (Ho1 & Ho2 & Ho3).
  destruct (b_outlier_presence bs) eqn:Hflag.
  - destruct (sieve _ _ _ _ _ _ _ _) as [[rc3 z3] bins3] eqn:Hsv.
    intros [= <- <- <-] Hrc.
    cbn [h_z h_c_ind h_bins h_hits h_next_floor h_bin_width_2log h_bin_width].
    apply sieve_spec in Hsv; try done; cycle 1.
    { intros j Hj. apply (fi_hbin _ _ _ _ _ _ Hinv).
      pose proof (fi_hcount _ _ _ _ _ _ Hinv). lia. }
    { lia. }
    destruct Hsv as (Hsame & _ & Ha1 & Ha2 & Ho' & Hb3).
    destruct (Hb3 Hrc) as [Hl3 Hk3].
    split_and!; try done.
    + split; [done|]. intros k Hk. destruct (Hk3 k Hk) as [Hz _]. apply Hz.
      rewrite (fi_hits _ _ _ _ _ _ Hinv k Hk).
      destruct (Hbins' k Hk) as [->|(-> & Hle2 & _)]; [|lia].
      specialize (Hnn k Hk). lia.
    + apply (fi_hlen _ _ _ _ _ _ Hinv).
    + split; [done|]. split; congruence.
    + by apply Hpo.
  - intros [= <- <- <-] Hrc.
    cbn [h_z h_c_ind h_bins h_hits h_next_floor h_bin_width_2log h_bin_width].
    split_and!; try done.
    + split; [done|]. intros k Hk.
      destruct (Hbins' k Hk) as [H|(_ & _ & H)]; [done|discriminate].
    + apply (fi_hlen _ _ _ _ _ _ Hinv).
    + split; [lia|]. split; congruence.
    + apply Hpo, same_cl_refl.
Qed.
End Pass.

(** ** The histogram loop *)

Lemma empty_range_mono v lo n a c a' c' :
  empty_range v lo n a c -> a <= a' -> c' <= c -> empty_range v lo n a' c'.
Proof. intros H Ha Hc i Hin Ht Hr. apply (H i Hin Ht). lia. Qed.

Lemma occupied_shift v lo n f bw k :
  0 < bw -> 0 <= k <= 30 ->
  occupied v lo n f bw (hceil f bw) k ->
  occupied v lo n (f - bw) bw (hceil (f - bw) bw) (k + 1).
Proof.
  intros Hbw Hk (i & Hin & Ht & Hr & Hlt). exists i.
  unfold hceil in *. split_and!; try done; try lia. nia.
Qed.

Lemma chained_shift v lo n f bw :
  0 < bw -> occupied v lo n f bw (hceil f bw) 0 ->
  no_gap_v v lo n f bw (hceil f bw) 1 ->
  chained v lo n (f - bw) bw.
Proof.
  intros Hbw H0 Hgap. split.
  - apply (occupied_shift v lo n f bw 0); done || lia.
  - intros k Hk1 Hk2. destruct (Z.eq_dec k 1) as [->|Hne].
    + left. apply (occupied_shift v lo n f bw 0); done || lia.
    + destruct (Hgap (k - 1) ltac:(lia) ltac:(lia)) as [H|H].
      * left. replace k with (k - 1 + 1) by lia.
        apply occupied_shift; done || lia.
      * right. replace (k - 1 + 1) with k in H by lia.
        apply occupied_shift; done || lia.
Qed.

Section Stuck.
Context (v : list Z) (v_start_ind v_stop_ind lo : Z) (n : nat).
Hypothesis Hv : forall i, 0 <= rd v i < 65536.
Hypothesis Hlo : lo = v_start_ind + BORDER_WIDTH.
Hypothesis Hn : n = steps2 lo (u16 (v_stop_ind - BORDER_WIDTH)).

Lemma stuck_pass st rc st' hc :
  stuck v lo n st ->
  histogram_pass v v_start_ind v_stop_ind st = Some (rc, st', hc) ->
  rc = CRC_0 ->
  hc = hceil (h_next_floor st) (h_bin_width st) /\
  clean_bins (h_bins st') /\ length (h_hits st') = 64%nat /\
  h_bin_width_2log st' = h_bin_width_2log st /\
  h_bin_width st' = h_bin_width st /\
  h_next_floor st' = h_next_floor st + h_bin_width st /\
  h_next_floor st + h_bin_width st < hc.
Proof.
  intros [[Hclean Hhits Hw Hbw Hbwlt Hf] Hempty [Hocc1 Hgap]].
  destruct st as [z c bins hits f w bw ov].
  cbn [h_z h_c_ind h_bins h_hits h_next_floor h_bin_width_2log h_bin_width
       h_overlap] in *.
  assert (Hbw0 : 0 < bw) by (subst bw; apply Z.pow_pos_nonneg; lia).
  unfold histogram_pass.
  cbn [h_z h_c_ind h_bins h_hits h_next_floor h_bin_width_2log h_bin_width
       h_overlap].
  rewrite <- Hlo, <- Hn.
  pose proof (h_ceil_of_eq f bw Hf ltac:(lia)) as Hhc.
  fold (hceil f bw) in Hhc.
  set (hc0 := h_ceil_of f bw) in *. rewrite <- Hhc in *.
  destruct (fill_bins n v f hc0 w (mkFill bins hits 0 CEIL_U) lo)
    as [rc1 fs] eqn:Hfill.
  destruct (Z.eqb_spec rc1 CRC_0) as [->|Hne]; cbn [negb];
    [|intros [= <- _ _] Hrc; contradiction].
  pose proof (fill_bins_inv v f hc0 w n lo [] _ _ _
                (fill_inv_clean v f hc0 w bins hits Hclean Hhits)
                Hfill eq_refl) as Hinv.
  cbn [app] in Hinv.
  assert (Hle : hc0 <= f + 32 * bw) by (unfold hceil in Hhc; lia).
  assert (Hocc : forall k, 0 <= k < 32 ->
            (0 < rd (f_bins fs) k <-> occupied v lo n f bw hc0 k)).
  { intros k Hk.
    apply (fill_occupied v lo n Hv f w bw hc0 Hw Hbw ltac:(lia) Hle fs k Hinv Hk). }
  assert (Hnn : forall k, 0 <= k < 32 -> 0 <= rd (f_bins fs) k).
  { intros k Hk. apply (fi_range _ _ _ _ _ _ Hinv k Hk). }
  destruct (cluster_bins 33 f w bw _ 0) as [[rc2 bs]|] eqn:Hcb; [|discriminate].
  destruct (Z.eqb_spec rc2 CRC_0) as [->|Hne]; cbn [negb];
    [|intros [= <- _ _] Hrc; contradiction].
  apply cluster_bins_stuck in Hcb; try done;
    cbn [b_bins b_z b_c_ind b_outlier_presence] in *; cycle 1.
  { apply (fi_len _ _ _ _ _ _ Hinv). }
  { specialize (Hnn 0 ltac:(lia)).
    destruct (Z_lt_le_dec 0 (rd (f_bins fs) 0)) as [Hp|]; [|lia].
    apply (Hocc 0) in Hp; [done|lia]. }
  { apply (Hocc 1); done || lia. }
  { intros k Hk1 Hk2. destruct (Hgap k Hk1 Hk2) as [H|H]; [left|right];
      apply Hocc; done || lia. }
  destruct Hcb as (Hc & _ & _ & Hnf & Hcl & Hflag).
  rewrite Hflag. intros [= <- <- <-] _.
  cbn [h_z h_c_ind h_bins h_hits h_next_floor h_bin_width_2log h_bin_width].
  destruct Hocc1 as (i & _ & _ & Hr & Hlt).
  assert (hc0 <= 65000) by (unfold hceil, CEIL_U in Hhc; lia).
  split_and!; try done.
  - apply (fi_hlen _ _ _ _ _ _ Hinv).
  - rewrite Hnf, bin_base_exact; subst bw; lia.
  - lia.
Qed.

Lemma loop_stuck fuel st rc st' :
  stuck v lo n st ->
  histogram_loop fuel v v_start_ind v_stop_ind st = Some (rc, st') ->
  rc <> CRC_0.
Proof.
  revert st. induction fuel as [|fuel IH]; intros st Hst; [discriminate|].
  cbn [histogram_loop].
  destruct (histogram_pass v v_start_ind v_stop_ind st)
    as [[[rc1 st1] hc]|] eqn:Hp; [|discriminate].
  destruct (Z.eqb_spec rc1 CRC_0) as [->|Hne]; cbn [negb];
    [|by intros [= <- _]].
  destruct (stuck_pass _ _ _ _ Hst Hp eq_refl)
    as (Hhc & Hcl & Hhl & Hw' & Hbw' & Hnf & Hlt).
  destruct Hst as [[Hclean Hhits Hw Hbw Hbwlt Hf] Hempty Hch].
  assert (hc <= 65000) by (unfold hceil, CEIL_U in Hhc; lia).
  destruct (Z.eqb_spec (h_next_floor st1) CEIL_U) as [He|_];
    [unfold CEIL_U in He; lia|].
  rewrite Hnf, Hw', Hbw'.
  replace (u16 (h_next_floor st + h_bin_width st - h_bin_width st))
    with (h_next_floor st) by (unfold u16; rewrite Z.mod_small; lia).
  assert (Hbw0 : 0 < h_bin_width st)
    by (rewrite Hbw; apply Z.pow_pos_nonneg; lia).
  rewrite widen_stay by lia.
  apply IH. split; [split|..]; done.
Qed.
End Stuck.

Lemma occupied_range v lo n f bw hc k :
  occupied v lo n f bw hc k -> 0 < bw -> 0 <= k ->
  f + k * bw < hc /\
  forall a c, a <= f + k * bw -> f + (k + 1) * bw <= c ->
    ~ empty_range v lo n a c.
Proof.
  intros (i & Hin & Ht & Hr & Hlt) Hbw Hk. split; [lia|].
  intros a c Ha Hc He. apply (He i Hin Ht). lia.
Qed.

Section Doomed.
Context (v : list Z) (v_start_ind v_stop_ind lo : Z) (n : nat).
Hypothesis Hv : forall i, 0 <= rd v i < 65536.
Hypothesis Hlo : lo = v_start_ind + BORDER_WIDTH.
Hypothesis Hn : n = steps2 lo (u16 (v_stop_ind - BORDER_WIDTH)).

Lemma loop_doomed fuel st rc st' :
  doomed v lo n st ->
  histogram_loop fuel v v_start_ind v_stop_ind st = Some (rc, st') ->
  rc = CRC_0 -> h_c_ind st' = 0.
Proof.
  revert st. induction fuel as [|fuel IH]; intros st Hst; [discriminate|].
  cbn [histogram_loop].
  destruct (histogram_pass v v_start_ind v_stop_ind st)
    as [[[rc1 st1] hc]|] eqn:Hp; [|discriminate].
  destruct (Z.eqb_spec rc1 CRC_0) as [->|Hne]; cbn [negb];
    [|by intros [= <- _]].
  destruct Hst as [Hpre Hout Hgood Hc Hcase].
  assert (Hgood' : clusters_good (h_z st) (h_c_ind st) (h_next_floor st)).
  { rewrite Hc. by apply (clusters_good_zero _ 0). }
  destruct (pass_spec v v_start_ind v_stop_ind lo n Hv Hlo Hn
              _ _ _ _ Hpre Hout Hgood' Hp eq_refl)
    as (Hhc & Hcl & Hhl & Hw' & Hbw' & Hout' & Hpo).
  fold (hceil (h_next_floor st) (h_bin_width st)) in Hhc.
  destruct Hpre as [Hclean Hhits Hw Hbw Hbwlt Hf].
  assert (Hbw0 : 0 < h_bin_width st)
    by (rewrite Hbw; apply Z.pow_pos_nonneg; lia).
  assert (Hhc65 : hc <= 65000) by (unfold hceil, CEIL_U in Hhc; lia).
  set (f := h_next_floor st) in *. set (bw := h_bin_width st) in *.
  destruct Hpo as [Hg Hnf H30 H31 Hlt Hnone|s Hs Hnf Hslt Hos Hcases].
  - (* no hand-over *)
    destruct Hcase as [(_ & _ & _ & Hgap)|Hhigh].
    { rewrite Hhc in *. by destruct (Hgap 30 ltac:(lia) ltac:(lia)). }
    assert (Hc' : h_c_ind st1 = 0).
    { rewrite <- Hc. apply Hnone. intros k Hk Ho.
      apply occupied_range in Ho as [Ho _]; [|done|lia].
      unfold CEIL_U in *. nia. }
    destruct (Z.eqb_spec (h_next_floor st1) CEIL_U) as [He|Hne].
    + by intros [= _ <-] _.
    + destruct (Hlt ltac:(lia)) as [Hge _]. unfold CEIL_U in *. nia.
  - (* hand-over from bin [s] *)
    destruct (Z.eqb_spec (h_next_floor st1) CEIL_U) as [He|_];
      [unfold CEIL_U in He; nia|].
    destruct Hcase as [(Hw4 & Hf34 & Ho1 & Hgap)|Hhigh];
      [|unfold CEIL_U in *; nia].
    rewrite <- Hhc in *.
    assert (Hbw16 : bw = 16) by (rewrite Hbw, Hw4; reflexivity).
    destruct Hcases as [(Hs2 & He & _)|[(-> & Hc' & Hsm)|
                        (-> & Hc' & Hsm & Hgap')]].
    + exfalso. destruct (Z.eq_dec s 2) as [->|Hs3].
      * apply occupied_range in Ho1 as [_ Ho1]; [|done|lia].
        refine (Ho1 _ _ _ _ He); lia.
      * destruct (Hgap (s - 2) ltac:(lia) ltac:(lia)) as [H|H];
          apply occupied_range in H as [_ H]; try done; try lia;
          refine (H _ _ _ _ He); lia.
    + rewrite Hnf, Hw', Hbw'. fold bw.
      replace (u16 (f + 1 * bw - bw)) with f
        by (unfold u16; rewrite Z.mod_small; lia).
      rewrite widen_stay by lia.
      apply IH. split; cbn [h_z h_c_ind h_bins h_hits h_next_floor
                            h_bin_width_2log h_bin_width]; try done.
      * apply (clusters_good_same (h_z st)); done.
      * congruence.
      * left. unfold chained. rewrite <- Hhc. done.
    + rewrite Hnf, Hw', Hbw'. fold bw.
      replace (f + 0 * bw - bw) with (f - bw) by lia.
      assert (Hgs : clusters_good (h_z st1) 0 0)
        by (apply (clusters_good_same (h_z st)); done).
      destruct (Z_le_gt_dec bw f) as [Hge|Hlt].
      * replace (u16 (f - bw)) with (f - bw)
          by (unfold u16; rewrite Z.mod_small; lia).
        rewrite widen_stay by lia.
        apply IH. split; cbn [h_z h_c_ind h_bins h_hits h_next_floor
                              h_bin_width_2log h_bin_width]; try done.
        -- split; cbn [h_z h_c_ind h_bins h_hits h_next_floor
                       h_bin_width_2log h_bin_width]; try done. lia.
        -- congruence.
        -- left. split; [done|]. split; [lia|].
           rewrite Hhc in Hos, Hgap'. by apply chained_shift.
      * replace (u16 (f - bw)) with (f - bw + 65536)
          by (unfold u16; rewrite <- (Z.mod_add _ 1) by lia;
              rewrite Z.mod_small; lia).
        destruct (widen 17 _ _ _ _) as [[w' bw']|] eqn:Hwd; [|discriminate].
        apply (widen_spec _ f bw) in Hwd; try done; try lia; cycle 1.
        { rewrite Hhc; unfold hceil, CEIL_U; lia. }
        destruct Hwd as (Hw0' & Hbw2 & _ & Hlt' & _).
        apply IH. split; cbn [h_z h_c_ind h_bins h_hits h_next_floor
                              h_bin_width_2log h_bin_width]; try done.
        -- split; cbn [h_z h_c_ind h_bins h_hits h_next_floor
                       h_bin_width_2log h_bin_width]; try done. lia.
        -- congruence.
        -- right. unfold CEIL_U. lia.
Qed.
End Doomed.

Section Regular.
Context (v : list Z) (v_start_ind v_stop_ind lo : Z) (n : nat).
Hypothesis Hv : forall i, 0 <= rd v i < 65536.
Hypothesis Hlo : lo = v_start_ind + BORDER_WIDTH.
Hypothesis Hn : n = steps2 lo (u16 (v_stop_ind - BORDER_WIDTH)).

Lemma loop_regular fuel st rc st' :
  regular v lo n st ->
  histogram_loop fuel v v_start_ind v_stop_ind st = Some (rc, st') ->
  rc = CRC_0 ->
  ((exists B, clusters_good (h_z st') (h_c_ind st') B) /\
   outliers_ok (h_z st') /\ length (h_hits st') = 64%nat)
  \/ h_c_ind st' = 0.
Proof.
  revert st. induction fuel as [|fuel IH]; intros st Hst; [discriminate|].
  cbn [histogram_loop].
  destruct (histogram_pass v v_start_ind v_stop_ind st)
    as [[[rc1 st1] hc]|] eqn:Hp; [|discriminate].
  destruct (Z.eqb_spec rc1 CRC_0) as [->|Hne]; cbn [negb];
    [|by intros [= <- _]].
  destruct Hst as [Hpre Hout Hgood Hcase].
  destruct (pass_spec v v_start_ind v_stop_ind lo n Hv Hlo Hn
              _ _ _ _ Hpre Hout Hgood Hp eq_refl)
    as (Hhc & Hcl & Hhl & Hw' & Hbw' & Hout' & Hpo).
  fold (hceil (h_next_floor st) (h_bin_width st)) in Hhc.
  destruct Hpre as [Hclean Hhits Hw Hbw Hbwlt Hf].
  assert (Hbw0 : 0 < h_bin_width st)
    by (rewrite Hbw; apply Z.pow_pos_nonneg; lia).
  assert (Hhc65 : hc <= 65000) by (unfold hceil, CEIL_U in Hhc; lia).
  set (f := h_next_floor st) in *. set (bw := h_bin_width st) in *.
  set (w := h_bin_width_2log st) in *.
  destruct Hpo as [Hg Hnf H30 H31 Hlt _|s Hs Hnf Hslt Hos Hcases].
  - (* no hand-over *)
    destruct (Z.eqb_spec (h_next_floor st1) CEIL_U) as [He|Hne].
    { intros [= _ <-] _. left. split; [by eexists|]. split; done. }
    destruct (Hlt ltac:(lia)) as [Hge Hemp].
    assert (Hhc' : hc = f + 32 * bw) by (unfold hceil, CEIL_U in *; lia).
    rewrite Hw', Hbw'.
    replace (u16 (h_next_floor st1 - bw)) with (h_next_floor st1 - bw)
      by (unfold u16, CEIL_U in *; rewrite Z.mod_small; lia).
    destruct (widen 17 _ _ _ _) as [[w' bw']|] eqn:Hwd; [|discriminate].
    apply (widen_spec _ f bw) in Hwd; try done; try lia;
      [|unfold CEIL_U in *; lia].
    destruct Hwd as (Hw0' & Hbw2 & Hle' & Hlt' & Hwc).
    apply IH. split; cbn [h_z h_c_ind h_bins h_hits h_next_floor
                          h_bin_width_2log h_bin_width]; try done.
    + split; cbn [h_z h_c_ind h_bins h_hits h_next_floor
                  h_bin_width_2log h_bin_width]; try done.
      unfold CEIL_U in *. lia.
    + apply (clusters_good_mono _ _ _ _ Hg). lia.
    + left. split; [lia|].
      apply (empty_range_mono _ _ _ _ _ _ _ Hemp); lia.
  - (* hand-over from bin [s] *)
    destruct (Z.eqb_spec (h_next_floor st1) CEIL_U) as [He|_];
      [unfold CEIL_U in He; nia|].
    rewrite Hnf, Hw', Hbw'.
    destruct Hcases as [(Hs2 & He & Hg)|[(-> & Hc' & Hsm)|
                        (-> & Hc' & Hsm & Hgap')]].
    + replace (u16 (f + s * bw - bw)) with (f + (s - 1) * bw)
        by (unfold u16; rewrite Z.mod_small; nia).
      rewrite widen_stay by nia.
      apply IH. split; cbn [h_z h_c_ind h_bins h_hits h_next_floor
                            h_bin_width_2log h_bin_width]; try done.
      * split; cbn [h_z h_c_ind h_bins h_hits h_next_floor
                    h_bin_width_2log h_bin_width]; try done. nia.
      * left. split; [nia|].
        apply (empty_range_mono _ _ _ _ _ _ _ He); lia.
    + replace (u16 (f + 1 * bw - bw)) with f
        by (unfold u16; rewrite Z.mod_small; lia).
      rewrite widen_stay by lia.
      apply IH. split; cbn [h_z h_c_ind h_bins h_hits h_next_floor
                            h_bin_width_2log h_bin_width]; try done.
      * rewrite Hc'. by apply (clusters_good_same (h_z st)).
      * destruct Hcase as [Hl|(Hr1 & Hr2 & Hr3)]; [by left|right].
        split_and!; try done. congruence.
    + replace (f + 0 * bw - bw) with (f - bw) by lia.
      rewrite Hhc in Hos, Hgap'.
      destruct Hcase as [(Hle & Hemp)|(Hr1 & Hr2 & Hr3)].
      * replace (u16 (f - bw)) with (f - bw)
          by (unfold u16; rewrite Z.mod_small; lia).
        rewrite widen_stay by lia.
        intros Hloop Hrc. exfalso. revert Hrc.
        refine (loop_stuck v v_start_ind v_stop_ind lo n Hv Hlo Hn
                  _ _ _ _ _ Hloop).
        split; cbn [h_z h_c_ind h_bins h_hits h_next_floor
                    h_bin_width_2log h_bin_width]; try done.
        -- split; cbn [h_z h_c_ind h_bins h_hits h_next_floor
                       h_bin_width_2log h_bin_width]; try done. lia.
        -- intros Ho. apply occupied_range in Ho as [_ Ho]; [|done|lia].
           refine (Ho _ _ _ _ Hemp); lia.
        -- by apply chained_shift.
      * assert (Hbw16 : bw = 16) by (rewrite Hbw, Hr2; reflexivity).
        unfold START_VAL in Hr1.
        replace (u16 (f - bw)) with (f - bw)
          by (unfold u16; rewrite Z.mod_small; lia).
        rewrite widen_stay by lia.
        intros Hloop Hrc. right. revert Hrc.
        refine (loop_doomed v v_start_ind v_stop_ind lo n Hv Hlo Hn
                  _ _ _ _ _ Hloop).
        split; cbn [h_z h_c_ind h_bins h_hits h_next_floor
                    h_bin_width_2log h_bin_width]; try done.
        -- split; cbn [h_z h_c_ind h_bins h_hits h_next_floor
                       h_bin_width_2log h_bin_width]; try done. lia.
        -- apply (clusters_good_same (h_z st)); [done|].
           rewrite Hr3 in Hgood. by apply (clusters_good_zero _ f).
        -- congruence.
        -- left. split; [done|]. split; [lia|]. by apply chained_shift.
Qed.
End Regular.

(** ** Post-clustering and corrector keep the clusters *)

Lemma kept_refl z : kept z z.
Proof. intros H. split; [done|]. split; [by repeat split|done]. Qed.

Lemma kept_trans z1 z2 z3 : kept z1 z2 -> kept z2 z3 -> kept z1 z3.
Proof.
  intros K1 K2 H. destruct (K1 H) as (H1 & (A1 & A2 & A3 & A4) & H3).
  destruct (K2 H3) as (G1 & (B1 & B2 & B3 & B4) & G3).
  split; [congruence|]. split; [repeat split; congruence|]. done.
Qed.

Lemma kept2_refl zz : kept2 zz zz.
Proof. split; apply kept_refl. Qed.

Lemma kept2_trans zz1 zz2 zz3 : kept2 zz1 zz2 -> kept2 zz2 zz3 -> kept2 zz1 zz3.
Proof. intros [H1 H2] [G1 G2]. split; eapply kept_trans; eauto. Qed.

Ltac kept_by_fields :=
  unfold kept, sizes_ok, same_cl, push_outlier, set_outliers, set_aggregs,
    set_aggreg_size_1, set_barrier, NO, NC, u8 in *;
  cbn [cluster_size cluster_count cluster_ceil cluster_center cluster_floor
       outlier_size outlier_ind aggreg_size_1 aggreg_size_2 aggreg_center
       separator_barrier inlier_count] in *;
  repeat split; try done; try (intros; lia);
  try (intros; rewrite Z.mod_small; lia).

Lemma kept_set_outliers z n o :
  0 <= n <= NO -> kept z (set_outliers z n o).
Proof. intros H. kept_by_fields. Qed.

Lemma kept_push_outlier z i :
  outlier_size z < NO -> kept z (push_outlier z i).
Proof. intros H. kept_by_fields. Qed.

Lemma kept_set_barrier z b : kept z (set_barrier z b).
Proof. kept_by_fields. Qed.

Lemma close_aggregation_frame z s c m :
  (cluster_size (close_aggregation z s c m) = cluster_size z /\
   same_cl z (close_aggregation z s c m)) /\
  outlier_size (close_aggregation z s c m) = outlier_size z /\
  aggreg_size_1 (close_aggregation z s c m) = aggreg_size_1 z /\
  (0 <= aggreg_size_2 z < NC ->
   aggreg_size_2 z <= aggreg_size_2 (close_aggregation z s c m)
     <= aggreg_size_2 z + 1).
Proof.
  unfold close_aggregation. destruct (m <? c); kept_by_fields.
Qed.

Lemma aggregate_from_kept n z v m l o s c z' rc :
  aggregate_from n z v m l o s c = (z', rc) ->
  0 <= aggreg_size_2 z < NC ->
  cluster_size z' = cluster_size z /\ same_cl z z' /\
  outlier_size z' = outlier_size z /\ aggreg_size_1 z' = aggreg_size_1 z /\
  0 <= aggreg_size_2 z' <= NC.
Proof.
  revert z o s c. induction n as [|n IH]; intros z o s c; cbn [aggregate_from].
  { intros [= <- <-] H. unfold NC in *. repeat split; lia. }
  cbv zeta.
  set (s1 := s + rd v (rd (outlier_ind z) o)). set (c1 := u8 (c + 1)).
  intros H Ha.
  destruct (close_aggregation_frame z s1 c1 m)
    as ((K1 & K2) & K3 & K4 & K5).
  specialize (K5 Ha).
  destruct (l <=? o).
  { injection H as <- <-. unfold NC in *. split_and!; try done; lia. }
  destruct (_ <? u16 _).
  { apply IH in H; done. }
  set (z1 := close_aggregation z s1 c1 m) in *.
  destruct (u8 (o + 1) <? l).
  { destruct (Z.leb_spec NC (aggreg_size_2 z1)).
    - injection H as <- <-. unfold NC in *. split_and!; try done; lia.
    - apply IH in H; [|unfold NC in *; lia].
      destruct H as (H1 & H2 & H3 & H4 & H5).
      split_and!; try congruence; try lia.
      eapply same_cl_trans; eauto. }
  destruct (u8 (o + 1) =? l).
  { destruct (Z.leb_spec NC (aggreg_size_2 z1)).
    - injection H as <- <-. unfold NC in *. split_and!; try done; lia.
    - injection H as <- <-.
      destruct (close_aggregation_frame z1
                  (rd v (rd (outlier_ind z1) (u8 (o + 1)))) 1 m)
        as ((J1 & J2) & J3 & J4 & J5).
      specialize (J5 ltac:(unfold NC in *; lia)).
      split_and!; try congruence; try (unfold NC in *; lia).
      eapply same_cl_trans; eauto. }
  injection H as <- <-. unfold NC in *. split_and!; try done; lia.
Qed.

Lemma aggregator_kept z v m z' rc :
  aggregator z v m = (z', rc) -> kept z z'.
Proof.
  unfold aggregator. cbv zeta.
  set (z1 := set_aggregs z (aggreg_size_1 z) (aggreg_center z)).
  assert (K1 : kept z z1) by (subst z1; kept_by_fields).
  destruct (outlier_size z1 <? 1); [by intros [= <- <-]|].
  set (z2 := set_outliers z1 _ _).
  assert (K2 : kept z z2) by (subst z2 z1; kept_by_fields).
  destruct (Z.leb_spec NC (aggreg_size_2 z2)) as [|Hlt]; [by intros [= <- <-]|].
  intros H Hs. destruct (K2 Hs) as (K3 & K4 & K5).
  apply aggregate_from_kept in H; [|unfold sizes_ok in K5; lia].
  destruct H as (H1 & H2 & H3 & H4 & H5).
  split; [congruence|]. split; [by eapply same_cl_trans|].
  unfold sizes_ok in *. rewrite H3, H4. lia.
Qed.

Lemma border_loop_kept fuel z v vs ve i rc z' :
  border_loop fuel z v vs ve i = Some (rc, z') -> kept z z'.
Proof.
  revert z i. induction fuel as [|fuel IH]; intros z i; [discriminate|].
  cbn [border_loop]. cbv zeta.
  destruct (ve <? i); [intros [= <- <-]; apply kept_refl|].
  set (i1 := if i =? vs + BORDER_WIDTH then _ else _).
  destruct (unreliable (rd v i1)); [apply IH|].
  destruct (_ && _); [apply IH|].
  destruct (_ && _); [apply IH|].
  destruct (classifier z (rd v i1) C_OPT_3).1.1; [apply IH|].
  destruct (1 <? i1); [|apply IH].
  destruct (Z.leb_spec NO (outlier_size z)) as [|Hroom];
    [intros [= <- <-]; apply kept_refl|].
  intros H. apply IH in H. eapply kept_trans; [|exact H].
  by apply kept_push_outlier.
Qed.

Lemma prune_outliers_bound n z v outliers k o outliers' o' :
  prune_outliers n z v outliers k o = (outliers', o') ->
  0 <= o -> o + Z.of_nat n <= 255 -> o <= o' <= o + Z.of_nat n.
Proof.
  revert outliers k o. induction n as [|n IH]; intros outliers k o;
    cbn [prune_outliers].
  { intros [= <- <-] H1 H2. lia. }
  cbv zeta. destruct (classifier _ _ _).1.1; intros H H1 H2.
  - apply IH in H; lia.
  - apply IH in H; unfold u8 in *; rewrite Z.mod_small in *; lia.
Qed.

Lemma barrier_loop_kept fuel z v a b z' :
  barrier_loop fuel z v a b = Some z' -> kept z z'.
Proof.
  revert z a b. induction fuel as [|fuel IH]; intros z a b; [discriminate|].
  cbn [barrier_loop]. cbv zeta. destruct (a <? b).
  - intros H. apply IH in H. eapply kept_trans; [|exact H].
    apply kept_set_barrier.
  - intros [= <-]. apply kept_refl.
Qed.

Lemma post_clustering_kept z v vs ve rc z' :
  post_clustering z v vs ve = Some (rc, z') -> kept z z'.
Proof.
  unfold post_clustering.
  destruct (border_loop _ _ _ _ _ _) as [[rc1 z1]|] eqn:Hb; [|discriminate].
  apply border_loop_kept in Hb.
  destruct (negb (rc1 =? CRC_0)); [by intros [= <- <-]|].
  destruct (aggregator z1 v MIN_SIZE) as [z2 rc2] eqn:Ha.
  apply aggregator_kept in Ha.
  set (z3 := set_aggreg_size_1 z2 (aggreg_size_2 z2)).
  assert (K3 : kept z2 z3) by (subst z3; kept_by_fields).
  assert (K : kept z z3) by (eapply kept_trans; [|exact K3];
                             eapply kept_trans; eauto).
  destruct (CRC_0 <? rc2); [by intros [= <- <-]|].
  destruct (prune_outliers _ _ _ _ _ _) as [outliers o] eqn:Hpr.
  set (z4 := set_outliers z3 o outliers).
  assert (K4 : kept z3 z4).
  { intros Hs. apply prune_outliers_bound in Hpr; [|lia|].
    - subst z4. revert Hs. kept_by_fields.
    - unfold sizes_ok, NO in Hs. lia. }
  destruct (find_barrier z4 v) as [z5|] eqn:Hf; [|discriminate].
  apply barrier_loop_kept in Hf.
  intros [= <- <-].
  eapply kept_trans; [exact K|]. eapply kept_trans; [exact K4|].
  eapply kept_trans; [exact Hf|]. kept_by_fields.
Qed.

Lemma kept2_zset zz i z' :
  kept (zget zz i) z' -> kept2 zz (zset zz i z').
Proof.
  unfold zget, zset, kept2. destruct (Z.land i LSB =? HIGH); cbn [fst snd];
    intros H; split; done || apply kept_refl.
Qed.

Lemma resorber_kept z v ss_cat a b rd0 flag z' v' rd' rc :
  resorber z v ss_cat a b rd0 = Some (flag, z', v', rd', rc) -> kept z z'.
Proof.
  unfold resorber. cbv zeta.
  destruct (negb _); [intros [= _ <- _ _ _]; apply kept_refl|].
  destruct (CEIL <? _); [intros [= _ <- _ _ _]; apply kept_refl|].
  destruct (classifier z _ _) as [[near cat_ind] cat_val].
  destruct (negb near); [intros [= _ <- _ _ _]; apply kept_refl|].
  destruct (sum_v v a 5 =? 0); [discriminate|].
  destruct (rd0 <? _); [intros [= _ <- _ _ _]; apply kept_refl|].
  destruct (cluster_size z <=? cat_ind);
    [|intros [= _ <- _ _ _]; apply kept_refl].
  destruct (Z.leb_spec NO (outlier_size z)) as [|Hroom];
    [intros [= _ <- _ _ _]; apply kept_refl|].
  intros [= _ <- _ _ _]. by apply kept_push_outlier.
Qed.

Lemma promote_top_kept n zz v i rc rc' zz' flag :
  promote_top n zz v i rc = (rc', zz', flag) -> kept2 zz zz'.
Proof.
  revert zz i rc. induction n as [|n IH]; intros zz i rc; cbn [promote_top].
  { intros [= _ <- _]. apply kept2_refl. }
  cbv zeta. destruct (_ <? rd v i); [|apply IH].
  destruct (Z.leb_spec NO (outlier_size (zget zz i))) as [|Hroom].
  { intros [= _ <- _]. apply kept2_refl. }
  destruct (aggregator _ v 0) as [z1 rc1] eqn:Ha.
  apply aggregator_kept in Ha. intros H. apply IH in H.
  eapply kept2_trans; [|exact H]. apply kept2_zset.
  eapply kept_trans; [|exact Ha]. by apply kept_push_outlier.
Qed.

Lemma process_window_kept zz v ss_cat a b rc w :
  process_window zz v ss_cat a b rc = inl w -> kept2 zz (w_zz w).
Proof.
  unfold process_window. cbv zeta.
  destruct (_ || _); [intros [= <-]; apply kept2_refl|].
  destruct (promote_top _ zz v a rc) as [[rc1 zz1] ret] eqn:Hp.
  apply promote_top_kept in Hp.
  destruct ret; [by intros [= <-]|].
  destruct (_ =? 0); [discriminate|].
  destruct (fit_flag _); [by intros [= <-]|].
  destruct (resorber _ _ _ _ _ _) as [[[[[flag z1] v1] rd1] rc2]|] eqn:Hr;
    [|discriminate].
  apply resorber_kept in Hr. apply kept2_zset in Hr.
  destruct flag.
  - intros [= <-]. cbn [w_zz]. by eapply kept2_trans.
  - destruct (CRC_0 <? rc2); intros [= <-]; cbn [w_zz]; by eapply kept2_trans.
Qed.

Lemma untrusted_loop_kept fuel zz v ss_cat ve e rc log rc' zz' v' log' :
  untrusted_loop fuel zz v ss_cat ve e rc log = inl (rc', zz', v', log') ->
  kept2 zz zz'.
Proof.
  revert zz v ss_cat e rc log.
  induction fuel as [|fuel IH]; intros zz v ss_cat e rc log; [discriminate|].
  cbn [untrusted_loop].
  destruct (extractor v ve e) as [[[found e1] a] b].
  destruct (negb found); [intros [= _ <- _ _]; apply kept2_refl|].
  destruct (process_window zz v ss_cat a b rc) as [w|] eqn:Hw; [|discriminate].
  apply process_window_kept in Hw.
  destruct (w_returned w); [by intros [= _ <- _ _]|].
  intros H. apply IH in H. by eapply kept2_trans.
Qed.

Lemma split_outliers_kept n zz m i zz' :
  split_outliers n zz m i = inl zz' -> kept2 zz zz'.
Proof.
  revert zz i. induction n as [|n IH]; intros zz i; cbn [split_outliers].
  { intros [= <-]. apply kept2_refl. }
  cbv zeta. destruct (rd m i =? 0); [apply IH|].
  destruct (Z.leb_spec NO (outlier_size (zget zz (rd m i)))) as [|Hroom];
    [discriminate|].
  intros H. apply IH in H. eapply kept2_trans; [|exact H].
  apply kept2_zset. by apply kept_push_outlier.
Qed.

Lemma outlier_correction_kept zz v vs ve m rc zz' v' m' flag :
  outlier_correction zz v vs ve m = inl (rc, zz', v', m', flag) ->
  kept2 zz zz'.
Proof.
  unfold outlier_correction. cbv zeta.
  destruct (NM <? _); [intros [= _ <- _ _ _]; apply kept2_refl|].
  destruct (merge _ _ _ _ _) as [m1 n1].
  destruct (n1 =? 0); [intros [= _ <- _ _ _]; apply kept2_refl|].
  destruct (scan_outliers _ _ _ _ _ _) as [st|]; [|discriminate].
  destruct (split_outliers _ _ _ _) as [zz1|] eqn:Hs; [|discriminate].
  apply split_outliers_kept in Hs.
  assert (K0 : kept2 zz (set_outliers zz.1 0 (outlier_ind zz.1),
                         set_outliers zz.2 0 (outlier_ind zz.2))).
  { split; cbn [fst snd]; apply kept_set_outliers; unfold NO; lia. }
  assert (K1 : kept2 zz zz1) by (by eapply kept2_trans).
  destruct (aggregator zz1.2 (s_v st) 0) as [zh rc1] eqn:Hah.
  apply aggregator_kept in Hah.
  destruct (CRC_0 <? rc1).
  { intros [= _ <- _ _ _]. eapply kept2_trans; [exact K1|].
    split; cbn [fst snd]; [apply kept_refl|done]. }
  destruct (aggregator zz1.1 (s_v st) 0) as [zl rc2] eqn:Hal.
  apply aggregator_kept in Hal.
  intros [= _ <- _ _ _]. eapply kept2_trans; [exact K1|]. by split.
Qed.

Lemma corrector_kept zz v len uc m rc zz' v' m' log :
  corrector zz v len uc m = inl (rc, zz', v', m', log) -> kept2 zz zz'.
Proof.
  unfold corrector. cbv zeta.
  destruct (_ || _); [intros [= _ <- _ _ _]; apply kept2_refl|].
  destruct (_ || _).
  - destruct (outlier_correction zz v 1 len m)
      as [[[[[rc1 zz1] v1] m1] ret]|] eqn:Ho; [|discriminate].
    apply outlier_correction_kept in Ho.
    destruct (ret || _); [by intros [= _ <- _ _ _]|].
    destruct (0 <? uc); [|by intros [= _ <- _ _ _]].
    destruct (untrusted_loop _ _ _ _ _ _ _ _) as [[[[rc2 zz2] v2] log2]|] eqn:Hu;
      [|discriminate].
    apply untrusted_loop_kept in Hu.
    intros [= _ <- _ _ _]. by eapply kept2_trans.
  - destruct (false || _); [intros [= _ <- _ _ _]; apply kept2_refl|].
    destruct (0 <? uc); [|intros [= _ <- _ _ _]; apply kept2_refl].
    destruct (untrusted_loop _ _ _ _ _ _ _ _) as [[[[rc2 zz2] v2] log2]|] eqn:Hu;
      [|discriminate].
    apply untrusted_loop_kept in Hu.
    by intros [= _ <- _ _ _].
Qed.

(** ** Clusterer and categorizer *)

Lemma rd_range v i :
  Forall (fun x => 0 <= x < 65536) v -> 0 <= rd v i < 65536.
Proof.
  intros H. unfold rd.
  destruct (nth_in_or_default (Z.to_nat i) v 0) as [Hin| ->]; [|lia].
  rewrite Forall_forall in H. apply H. by apply list_elem_of_In.
Qed.

Lemma histogram_clustering_spec fuel z v vs ve ov hits rc z' ov' hits' :
  Forall (fun x => 0 <= x < 65536) v -> tables_ok z -> length hits = 64%nat ->
  histogram_clustering fuel z v vs ve ov hits = Some (rc, z', ov', hits') ->
  rc = CRC_0 ->
  (exists B, clusters_good z' (cluster_size z') B) /\ sizes_ok z' /\
  length hits' = 64%nat.
Proof.
  intros Hv (T1 & T2 & T3 & T4) Hh. unfold histogram_clustering.
  destruct (histogram_loop _ _ _ _ _) as [[rc1 st]|] eqn:Hloop; [|discriminate].
  destruct (Z.eqb_spec rc1 CRC_0) as [->|Hne]; cbn [negb];
    [|intros [= <- _ _ _] Hrc; contradiction].
  cbv zeta.
  destruct (Z.eqb_spec (cluster_size (set_cluster_size (h_z st) (h_c_ind st))) 0)
    as [_|Hc]; [intros [= <- _ _ _]; discriminate|].
  intros [= _ <- _ <-] _. cbn [set_cluster_size cluster_size] in *.
  eapply (loop_regular v vs ve (vs + BORDER_WIDTH) _ (fun i => rd_range v i Hv)
            eq_refl eq_refl) in Hloop; [| |reflexivity].
  - destruct Hloop as [([B HB] & (Ho1 & Ho2 & Ho3) & Hl)|Hz]; [|done].
    split_and!; try done.
    + exists B. destruct HB as [Hcc L1 L2 L3 L4 Hcount Hasc Hbound].
      split; done.
    + unfold sizes_ok, NC, set_cluster_size.
      cbn [outlier_size aggreg_size_1 aggreg_size_2]. lia.
  - split; cbn [h_z h_c_ind h_bins h_hits h_next_floor h_bin_width_2log
                h_bin_width]; try done.
    + split; cbn [h_z h_c_ind h_bins h_hits h_next_floor h_bin_width_2log
                  h_bin_width]; try done.
      split; [by rewrite repeat_length|].
      intros k Hk. unfold rd. by rewrite nth_repeat.
    + split; unfold init_categories, NC;
        cbn [cluster_count cluster_ceil cluster_floor cluster_center];
        try done; try (intros; lia).
    + right. done.
Qed.

Lemma good_kept_invariant z z' B :
  clusters_good z (cluster_size z) B -> sizes_ok z -> kept z z' ->
  category_invariant z' /\ sizes_ok z'.
Proof.
  intros [Hc L1 L2 L3 L4 Hcount Hasc Hbound] Hs K.
  destruct (K Hs) as (K1 & (S1 & S2 & S3 & S4) & K3).
  split; [|done]. unfold category_invariant, clusters_ascending.
  rewrite K1, S1, S2, S3. unfold sizes_ok in K3.
  split_and!; try done; lia.
Qed.

Lemma invariant_kept z z' :
  category_invariant z -> sizes_ok z -> kept z z' ->
  category_invariant z' /\ sizes_ok z'.
Proof.
  intros (I1 & I2 & I3 & _) Hs K.
  destruct (K Hs) as (K1 & (S1 & S2 & S3 & S4) & K3).
  split; [|done]. unfold category_invariant, clusters_ascending.
  rewrite K1, S1, S2, S3. unfold sizes_ok in K3.
  split_and!; try done; lia.
Qed.

Lemma clusterer_spec fuel z v vs ve ov hits rc z' ov' hits' :
  Forall (fun x => 0 <= x < 65536) v -> tables_ok z -> length hits = 64%nat ->
  clusterer fuel z v vs ve ov hits = Some (rc, z', ov', hits') ->
  rc = CRC_0 ->
  category_invariant z' /\ sizes_ok z' /\ length hits' = 64%nat.
Proof.
  intros Hv Ht Hh. unfold clusterer.
  destruct (histogram_clustering _ _ _ _ _ _ _) as [[[[rc1 z1] ov1] hits1]|]
    eqn:Hc; [|discriminate].
  destruct (Z.eqb_spec rc1 CRC_0) as [->|Hne]; cbn [negb];
    [|intros [= <- _ _ _] Hrc; contradiction].
  destruct (histogram_clustering_spec _ _ _ _ _ _ _ _ _ _ _ Hv Ht Hh Hc eq_refl)
    as ([B HB] & Hs & Hl).
  destruct (post_clustering z1 v vs ve) as [[rc2 z2]|] eqn:Hp; [|discriminate].
  apply post_clustering_kept in Hp.
  intros [= _ <- _ <-] _.
  destruct (good_kept_invariant _ _ _ HB Hs Hp). done.
Qed.

(** C1: whenever the categorizer returns code 0, the category set of each
    polarity has its clusters ascending and disjoint, each cluster with at
    least [MIN_SIZE] values, and [cluster_size <= NC], [aggreg_size_2 <= NC],
    [outlier_size <= NO].  The signal values are 16-bit, the cluster tables
    have their [NC] elements and the buffer its [DIM_64]. *)
Theorem categorizer_invariants fuel zz signal_duration sequence_length
    unreliable_count uint16buf64 r :
  Forall (fun x => 0 <= x < 65536) signal_duration ->
  tables_ok zz.1 -> tables_ok zz.2 -> length uint16buf64 = 64%nat ->
  categorizer fuel zz signal_duration sequence_length unreliable_count
    uint16buf64 = inl r ->
  c_rc r = CRC_0 ->
  category_invariant (c_zz r).1 /\ category_invariant (c_zz r).2.
Proof.
  intros Hv Ht1 Ht2 Hb. unfold categorizer.
  destruct (clusterer fuel zz.2 _ _ _ _ _) as [[[[rc1 zh] ov1] buf1]|] eqn:Hh;
    [|discriminate].
  destruct (Z.eqb_spec rc1 CRC_0) as [->|Hne]; cbn [negb];
    [|intros [= <-] Hrc; contradiction].
  destruct (clusterer_spec _ _ _ _ _ _ _ _ _ _ _ Hv Ht2 Hb Hh eq_refl)
    as (Ih & Sh & Lh).
  destruct (clusterer fuel zz.1 _ _ _ _ _) as [[[[rc2 zl] ov2] buf2]|] eqn:Hl;
    [|discriminate].
  destruct (Z.eqb_spec rc2 CRC_0) as [->|Hne]; cbn [negb];
    [|intros [= <-] Hrc; contradiction].
  destruct (clusterer_spec _ _ _ _ _ _ _ _ _ _ _ Hv Ht1 Lh Hl eq_refl)
    as (Il & Sl & Ll).
  destruct (negb ov2).
  - destruct (corrector _ _ _ _ _) as [[[[[rc3 zz3] v3] buf3] log]|] eqn:Hc;
      [|discriminate].
    apply corrector_kept in Hc. destruct Hc as [K1 K2]. cbn [fst snd] in *.
    destruct (invariant_kept _ _ Il Sl K1) as [J1 _].
    destruct (invariant_kept _ _ Ih Sh K2) as [J2 _].
    destruct (negb (rc3 =? CRC_0)); intros [= <-] _; done.
  - intros [= <-] _. done.
Qed.

Lemma categorizer_invariants_witness :
  exists r,
    categorizer 10 (blank_categories, blank_categories) two_high_trace 40 0
      blank_buffer = inl r /\
    c_rc r = CRC_0 /\
    category_invariant (c_zz r).1 /\ category_invariant (c_zz r).2.
Proof.
  eexists. split; [vm_compute; reflexivity|]. split; [reflexivity|].
  eapply (categorizer_invariants 10 (blank_categories, blank_categories)
            two_high_trace 40 0 blank_buffer).
  - apply (bool_decide_unpack _); vm_compute; exact I.
  - repeat split.
  - repeat split.
  - reflexivity.
  - vm_compute. reflexivity.
  - reflexivity.
Defined.

(** * Further properties of the code *)

(** ** sort and index_sort *)

(** Writing [x] one place further down, over the element that moved up, is
    an exchange of two neighbours. *)
Lemma wr_shift_perm (s : list Z) j x :
  1 <= j < Z.of_nat (length s) ->
  wr (wr s j (rd s (j - 1))) (j - 1) x ≡ₚ wr s j x.
Proof.
  intros Hj. unfold wr, rd.
  destruct (Z.leb_spec 0 j) as [_|]; [|lia].
  destruct (Z.leb_spec 0 (j - 1)) as [_|]; [|lia].
  replace (Z.to_nat j) with (S (Z.to_nat (j - 1))) by lia.
  assert (Hlt : (S (Z.to_nat (j - 1)) < length s)%nat) by lia.
  generalize dependent (Z.to_nat (j - 1)). clear Hj j.
  intros k Hk. revert k Hk.
  induction s as [|a s IH]; intros k Hk; [simpl in Hk; lia|].
  destruct k as [|k].
  - destruct s as [|b s]; [simpl in Hk; lia|]. simpl. apply perm_swap.
  - simpl. apply perm_skip. apply IH. simpl in Hk. lia.
Qed.

Section InsertionSort.
Context (key : Z -> Z).

(** The shifting loop entered at [j] with the element below [j] greater
    than [tmp]: [s] with its place [j] left out ascends up to [i], and
    everything above [j] is greater than [tmp]. *)
Lemma insert_shift_spec (s0 : list Z) tmp i n s j :
  0 <= i < Z.of_nat (length s) -> 0 < j <= i -> j <= Z.of_nat n ->
  key tmp < key (rd s (j - 1)) ->
  (forall a b, 0 <= a -> a <= b -> b <= i -> a <> j -> b <> j ->
     key (rd s a) <= key (rd s b)) ->
  (forall b, j < b <= i -> key tmp < key (rd s b)) ->
  wr s j tmp ≡ₚ s0 ->
  let s' := insert_shift key s tmp n j in
  ascending_by key s' (i + 1) /\ s' ≡ₚ s0 /\ length s' = length s /\
  forall b, i < b -> rd s' b = rd s b.
Proof.
  revert s j. induction n as [|n IH]; intros s j Hi Hj Hn Hgt Hsort Habove Hperm;
    [lia|].
  cbn [insert_shift]. cbv zeta.
  set (s1 := wr s j (rd s (j - 1))).
  assert (Hl1 : length s1 = length s) by apply length_wr.
  assert (Hrd1 : forall a, 0 <= a ->
            rd s1 a = if a =? j then rd s (j - 1) else rd s a).
  { intros a Ha. subst s1. destruct (Z.eqb_spec a j) as [->|Hne].
    - apply rd_wr_eq. lia.
    - apply rd_wr_ne; lia. }
  assert (Hsort1 : forall a b, 0 <= a -> a <= b -> b <= i ->
            a <> j - 1 -> b <> j - 1 -> key (rd s1 a) <= key (rd s1 b)).
  { intros a b Ha Hab Hb Hna Hnb. rewrite !Hrd1 by lia.
    destruct (Z.eqb_spec a j) as [->|Haj], (Z.eqb_spec b j) as [->|Hbj];
      try lia.
    - apply Hsort; lia.
    - apply Hsort; lia.
    - apply Hsort; lia. }
  assert (Habove1 : forall b, j - 1 < b <= i -> key tmp < key (rd s1 b)).
  { intros b Hb. rewrite Hrd1 by lia.
    destruct (Z.eqb_spec b j) as [->|Hbj]; [done|]. apply Habove. lia. }
  assert (Hperm1 : wr s1 (j - 1) tmp ≡ₚ s0).
  { rewrite <- Hperm. subst s1. apply wr_shift_perm. lia. }
  destruct (Z.ltb_spec 0 (j - 1)) as [Hpos|Hzero]; cbn [andb].
  - destruct (Z.ltb_spec (key tmp) (key (rd s1 (j - 1 - 1)))) as [Hlt|Hge].
    + destruct (IH s1 (j - 1)) as (H1 & H2 & H3 & H4); try done; try lia.
      split_and!; try done; [congruence|].
      intros b Hb. rewrite H4 by done. rewrite Hrd1 by lia.
      destruct (Z.eqb_spec b j); [lia|done].
    + split_and!; try done.
      * intros a b Ha Hab Hb.
        assert (Hw : forall c, 0 <= c <= i ->
                  rd (wr s1 (j - 1) tmp) c
                  = if c =? j - 1 then tmp else rd s1 c).
        { intros c Hc. destruct (Z.eqb_spec c (j - 1)) as [->|Hne].
          - apply rd_wr_eq. lia.
          - apply rd_wr_ne; lia. }
        rewrite !Hw by lia.
        destruct (Z.eqb_spec a (j - 1)) as [->|Haj],
                 (Z.eqb_spec b (j - 1)) as [->|Hbj]; try lia.
        -- specialize (Habove1 b ltac:(lia)). lia.
        -- assert (key (rd s1 a) <= key (rd s1 (j - 1 - 1)))
             by (destruct (Z.eq_dec a (j - 1 - 1)) as [->|];
                 [lia|apply Hsort1; lia]).
           lia.
        -- apply Hsort1; lia.
      * rewrite length_wr. done.
      * intros b Hb. rewrite rd_wr_ne by lia. rewrite Hrd1 by lia.
        destruct (Z.eqb_spec b j); [lia|done].
  - assert (j = 1) as -> by lia. change (1 - 1) with 0 in *.
    split_and!; try done.
    + intros a b Ha Hab Hb.
      assert (Hw : forall c, 0 <= c <= i ->
                rd (wr s1 0 tmp) c = if c =? 0 then tmp else rd s1 c).
      { intros c Hc. destruct (Z.eqb_spec c 0) as [->|Hne].
        - apply rd_wr_eq. lia.
        - apply rd_wr_ne; lia. }
      rewrite !Hw by lia.
      destruct (Z.eqb_spec a 0) as [->|Haj], (Z.eqb_spec b 0) as [->|Hbj];
        try lia.
      * specialize (Habove1 b ltac:(lia)). lia.
      * apply Hsort1; lia.
    + rewrite length_wr. done.
    + intros b Hb. rewrite rd_wr_ne by lia. rewrite Hrd1 by lia.
      destruct (Z.eqb_spec b 1); [lia|done].
Qed.

Lemma insertion_sort_from_spec m s i :
  1 <= i -> i + Z.of_nat m <= Z.of_nat (length s) ->
  ascending_by key s i ->
  let s' := insertion_sort_from key s m i in
  ascending_by key s' (i + Z.of_nat m) /\ s' ≡ₚ s /\ length s' = length s /\
  forall b, i + Z.of_nat m <= b -> rd s' b = rd s b.
Proof.
  revert s i. induction m as [|m IH]; intros s i Hi Hlen Hsort.
  { cbn [insertion_sort_from]. cbv zeta. split_and!; try done.
    replace (i + Z.of_nat 0) with i by lia. done. }
  cbn [insertion_sort_from]. cbv zeta.
  set (tmp := rd s i).
  set (s1 := if key tmp <? key (rd s (i - 1))
             then insert_shift key s tmp (Z.to_nat i) i else s).
  assert (H1 : ascending_by key s1 (i + 1) /\ s1 ≡ₚ s /\
               length s1 = length s /\ forall b, i < b -> rd s1 b = rd s b).
  { subst s1. destruct (Z.ltb_spec (key tmp) (key (rd s (i - 1)))) as [Hlt|Hge].
    - apply (insert_shift_spec s tmp i); try done; try lia.
      + intros a b Ha Hab Hb Hna Hnb. apply Hsort; lia.
      + subst tmp. unfold wr, rd.
        destruct (Z.leb_spec 0 i); [|lia].
        rewrite list_insert_id; [done|].
        destruct (lookup_lt_is_Some_2 s (Z.to_nat i)) as [x Hx]; [lia|].
        by rewrite (nth_lookup_Some _ _ 0 _ Hx).
    - split_and!; try done. intros a b Ha Hab Hb.
      destruct (Z.eq_dec b i) as [->|Hne]; [|apply Hsort; lia].
      destruct (Z.eq_dec a i) as [->|Hna]; [lia|].
      assert (key (rd s a) <= key (rd s (i - 1))) by (apply Hsort; lia).
      fold tmp. lia. }
  destruct H1 as (A1 & A2 & A3 & A4).
  destruct (IH s1 (i + 1)) as (B1 & B2 & B3 & B4); try done; try lia.
  split_and!.
  - replace (i + Z.of_nat (S m)) with (i + 1 + Z.of_nat m) by lia. done.
  - by rewrite B2.
  - congruence.
  - intros b Hb. rewrite B4 by lia. apply A4. lia.
Qed.
End InsertionSort.

Lemma insertion_sort_spec key s n :
  n <= Z.of_nat (length s) ->
  let s' := insertion_sort_from key s (Z.to_nat (n - 1)) 1 in
  ascending_by key s' n /\ s' ≡ₚ s /\ length s' = length s /\
  forall b, n <= b -> rd s' b = rd s b.
Proof.
  intros Hn. destruct (Z_le_gt_dec n 1) as [Hle|Hgt].
  - replace (Z.to_nat (n - 1)) with 0%nat by lia. cbn [insertion_sort_from].
    cbv zeta. split_and!; try done.
    intros i j Hi Hij Hj. replace j with i by lia. lia.
  - destruct (insertion_sort_from_spec key (Z.to_nat (n - 1)) s 1)
      as (H1 & H2 & H3 & H4); try lia.
    { intros i j Hi Hij Hj. replace j with i by lia. lia. }
    cbv zeta. replace (1 + Z.of_nat (Z.to_nat (n - 1))) with n in * by lia.
    done.
Qed.

(** A permutation that leaves everything from [n] on in place permutes the
    first [n] elements. *)
Lemma prefix_perm (s s' : list Z) n :
  s' ≡ₚ s -> length s' = length s ->
  (forall b, n <= b -> rd s' b = rd s b) -> 0 <= n ->
  take (Z.to_nat n) s' ≡ₚ take (Z.to_nat n) s /\
  drop (Z.to_nat n) s' = drop (Z.to_nat n) s.
Proof.
  intros Hp Hl Hrd Hn.
  assert (Hd : drop (Z.to_nat n) s' = drop (Z.to_nat n) s).
  { apply list_eq. intros k. rewrite !lookup_drop.
    destruct (decide (Z.to_nat n + k < length s)%nat) as [Hlt|Hge].
    - destruct (lookup_lt_is_Some_2 s (Z.to_nat n + k)) as [x Hx]; [done|].
      destruct (lookup_lt_is_Some_2 s' (Z.to_nat n + k)) as [y Hy]; [lia|].
      rewrite Hx, Hy. f_equal.
      specialize (Hrd (Z.of_nat (Z.to_nat n + k)) ltac:(lia)).
      unfold rd in Hrd. rewrite Nat2Z.id in Hrd.
      by rewrite (nth_lookup_Some _ _ 0 _ Hx), (nth_lookup_Some _ _ 0 _ Hy) in Hrd.
    - rewrite !lookup_ge_None_2; [done|lia|lia]. }
  split; [|done].
  rewrite <- (take_drop (Z.to_nat n) s'), <- (take_drop (Z.to_nat n) s) in Hp.
  rewrite Hd in Hp. by apply Permutation_app_inv_r in Hp.
Qed.

(** X1: [sort] puts the first [n] elements in ascending order, as a
    permutation of what they were, and leaves the others in place. *)
Theorem sort_ascending_permutation (s : list Z) (n : Z) :
  0 <= n <= Z.of_nat (length s) ->
  (forall i j, 0 <= i -> i <= j -> j < n -> rd (sort s n) i <= rd (sort s n) j)
  /\ take (Z.to_nat n) (sort s n) ≡ₚ take (Z.to_nat n) s
  /\ drop (Z.to_nat n) (sort s n) = drop (Z.to_nat n) s.
Proof.
  intros Hn. unfold sort.
  destruct (insertion_sort_spec (fun x => x) s n) as (H1 & H2 & H3 & H4); [lia|].
  split; [exact H1|]. apply prefix_perm; done || lia.
Qed.

Lemma sort_ascending_permutation_witness :
  0 <= 4 <= Z.of_nat (length [5; 3; 9; 1; 7]) /\
  sort [5; 3; 9; 1; 7] 4 = [1; 3; 5; 9; 7] /\
  take 4 (sort [5; 3; 9; 1; 7] 4) ≡ₚ take 4 [5; 3; 9; 1; 7].
Proof.
  split; [simpl; lia|]. split; [reflexivity|].
  apply (sort_ascending_permutation [5; 3; 9; 1; 7] 4). simpl. lia.
Defined.

(** X2: [index_sort] puts the first [n] indices in the ascending order of
    the values they point to, as a permutation of what they were, and leaves
    the others in place. *)
Theorem index_sort_ascending_permutation (v v_ind : list Z) (n : Z) :
  0 <= n <= Z.of_nat (length v_ind) ->
  (forall i j, 0 <= i -> i <= j -> j < n ->
     rd v (rd (index_sort v v_ind n) i) <= rd v (rd (index_sort v v_ind n) j))
  /\ take (Z.to_nat n) (index_sort v v_ind n) ≡ₚ take (Z.to_nat n) v_ind
  /\ drop (Z.to_nat n) (index_sort v v_ind n) = drop (Z.to_nat n) v_ind.
Proof.
  intros Hn. unfold index_sort.
  destruct (insertion_sort_spec (fun i => rd v i) v_ind n)
    as (H1 & H2 & H3 & H4); [lia|].
  split; [exact H1|]. apply prefix_perm; done || lia.
Qed.

Lemma index_sort_ascending_permutation_witness :
  0 <= 3 <= Z.of_nat (length [2; 0; 1; 3]) /\
  index_sort [40; 10; 30; 20] [2; 0; 1; 3] 3 = [1; 2; 0; 3] /\
  take 3 (index_sort [40; 10; 30; 20] [2; 0; 1; 3] 3) ≡ₚ take 3 [2; 0; 1; 3].
Proof.
  split; [simpl; lia|]. split; [reflexivity|].
  apply (index_sort_ascending_permutation [40; 10; 30; 20] [2; 0; 1; 3] 3).
  simpl. lia.
Defined.

(** ** merge *)

Lemma rd_lookup (l : list Z) i :
  0 <= i < Z.of_nat (length l) -> l !! Z.to_nat i = Some (rd l i).
Proof.
  intros Hi. destruct (lookup_lt_is_Some_2 l (Z.to_nat i)) as [x Hx]; [lia|].
  unfold rd. by rewrite (nth_lookup_Some _ _ 0 _ Hx).
Qed.

(** The elements [i .. n - 1] of an array, as a list. *)
Lemma slice_cons (l : list Z) i n :
  0 <= i < n -> n <= Z.of_nat (length l) ->
  take (Z.to_nat (n - i)) (drop (Z.to_nat i) l)
  = rd l i :: take (Z.to_nat (n - (i + 1))) (drop (Z.to_nat (i + 1)) l).
Proof.
  intros Hi Hn. rewrite (drop_S l (rd l i) (Z.to_nat i)) by (apply rd_lookup; lia).
  replace (Z.to_nat (n - i)) with (S (Z.to_nat (n - (i + 1)))) by lia.
  replace (Z.to_nat (i + 1)) with (S (Z.to_nat i)) by lia. done.
Qed.

Lemma slice_nil (l : list Z) i n :
  n <= i -> take (Z.to_nat (n - i)) (drop (Z.to_nat i) l) = [].
Proof. intros H. by replace (Z.to_nat (n - i)) with 0%nat by lia. Qed.

Lemma wr_split (c : list Z) k x :
  0 <= k < Z.of_nat (length c) ->
  wr c k x = take (Z.to_nat k) c ++ x :: drop (Z.to_nat (k + 1)) c.
Proof.
  intros Hk. unfold wr. destruct (Z.leb_spec 0 k); [|lia].
  replace (Z.to_nat (k + 1)) with (S (Z.to_nat k)) by lia.
  apply insert_take_drop. lia.
Qed.

Section Merge.
Context (a : list Z) (na : Z) (b : list Z) (nb : Z).
Hypothesis Hna : 0 <= na <= Z.of_nat (length a).
Hypothesis Hnb : 0 <= nb <= Z.of_nat (length b).

(** The loops of [merge] entered at [i], [j] and [k = i + j]: the places
    [k ..] of [c] receive the remaining elements of [a] and [b], in order
    if [a] and [b] are. *)
Lemma merge_from_spec n c i j :
  0 <= i <= na -> 0 <= j <= nb -> na + nb <= Z.of_nat (length c) ->
  Z.of_nat n = (na - i) + (nb - j) ->
  exists l,
    merge_from a na b nb c n i j (i + j)
    = take (Z.to_nat (i + j)) c ++ l ++ drop (Z.to_nat (na + nb)) c /\
    l ≡ₚ take (Z.to_nat (na - i)) (drop (Z.to_nat i) a)
         ++ take (Z.to_nat (nb - j)) (drop (Z.to_nat j) b) /\
    (StronglySorted Z.le (take (Z.to_nat (na - i)) (drop (Z.to_nat i) a)) ->
     StronglySorted Z.le (take (Z.to_nat (nb - j)) (drop (Z.to_nat j) b)) ->
     StronglySorted Z.le l).
Proof.
  revert c i j. induction n as [|n IH]; intros c i j Hi Hj Hc Hn.
  { exists []. cbn [merge_from]. assert (i = na) as -> by lia.
    assert (j = nb) as -> by lia. rewrite !slice_nil by lia.
    split_and!; [|done|constructor]. by rewrite app_nil_l, take_drop. }
  assert (Hstep : forall x i' j' la lb,
            i' + j' = i + j + 1 -> 0 <= i' <= na -> 0 <= j' <= nb ->
            Z.of_nat n = (na - i') + (nb - j') ->
            x :: la ++ lb ≡ₚ
              take (Z.to_nat (na - i)) (drop (Z.to_nat i) a)
              ++ take (Z.to_nat (nb - j)) (drop (Z.to_nat j) b) ->
            la = take (Z.to_nat (na - i')) (drop (Z.to_nat i') a) ->
            lb = take (Z.to_nat (nb - j')) (drop (Z.to_nat j') b) ->
            (StronglySorted Z.le (take (Z.to_nat (na - i)) (drop (Z.to_nat i) a)) ->
             StronglySorted Z.le (take (Z.to_nat (nb - j)) (drop (Z.to_nat j) b)) ->
             StronglySorted Z.le la /\ StronglySorted Z.le lb /\
             Forall (Z.le x) (la ++ lb)) ->
            exists l,
              merge_from a na b nb (wr c (i + j) x) n i' j' (i + j + 1)
              = take (Z.to_nat (i + j)) c ++ l ++ drop (Z.to_nat (na + nb)) c /\
              l ≡ₚ take (Z.to_nat (na - i)) (drop (Z.to_nat i) a)
                   ++ take (Z.to_nat (nb - j)) (drop (Z.to_nat j) b) /\
              (StronglySorted Z.le (take (Z.to_nat (na - i)) (drop (Z.to_nat i) a)) ->
               StronglySorted Z.le (take (Z.to_nat (nb - j)) (drop (Z.to_nat j) b)) ->
               StronglySorted Z.le l)).
  { intros x i' j' la lb Hk Hi' Hj' Hn' Hperm -> -> Hsorted.
    destruct (IH (wr c (i + j) x) i' j') as (l & Heq & Hp & Hs);
      try done; [rewrite length_wr; lia|].
    exists (x :: l). split_and!.
    - rewrite <- Hk, Heq, Hk.
      replace (Z.to_nat (i + j + 1)) with (S (Z.to_nat (i + j))) by lia.
      unfold wr. destruct (Z.leb_spec 0 (i + j)); [|lia].
      rewrite (take_S_r _ _ x) by (apply list_lookup_insert_eq; lia).
      rewrite take_insert_ge by lia. rewrite drop_insert_lt by lia.
      by rewrite <- app_assoc.
    - by rewrite Hp.
    - intros Sa Sb. destruct (Hsorted Sa Sb) as (S1 & S2 & Hall).
      constructor; [by apply Hs|]. by rewrite Hp. }
  cbn [merge_from].
  destruct (Z.ltb_spec i na) as [Hia|Hia], (Z.ltb_spec j nb) as [Hjb|Hjb];
    cbn [andb]; try lia.
  - pose proof (slice_cons a i na ltac:(lia) ltac:(lia)) as Ea.
    pose proof (slice_cons b j nb ltac:(lia) ltac:(lia)) as Eb.
    destruct (Z.ltb_spec (rd a i) (rd b j)) as [Hlt|Hge].
    + eapply (Hstep (rd a i) (i + 1) j); try reflexivity; try lia.
      * by rewrite Ea.
      * rewrite Ea. intros Sa Sb. apply StronglySorted_inv in Sa as [Sa Fa].
        split_and!; try done. apply Forall_app. split; [done|].
        rewrite Eb in Sb |- *. apply StronglySorted_inv in Sb as [Sb Fb].
        constructor; [lia|]. eapply Forall_impl; [exact Fb|].
        intros y Hy. simpl in *. lia.
    + eapply (Hstep (rd b j) i (j + 1)); try reflexivity; try lia.
      * rewrite Eb. apply Permutation_middle.
      * rewrite Eb. intros Sa Sb. apply StronglySorted_inv in Sb as [Sb Fb].
        split_and!; try done. apply Forall_app. split; [|done].
        rewrite Ea in Sa |- *. apply StronglySorted_inv in Sa as [Sa Fa].
        constructor; [lia|]. eapply Forall_impl; [exact Fa|].
        intros y Hy. simpl in *. lia.
  - pose proof (slice_cons a i na ltac:(lia) ltac:(lia)) as Ea.
    eapply (Hstep (rd a i) (i + 1) j); try reflexivity; try lia.
    + by rewrite Ea.
    + rewrite Ea. intros Sa Sb. apply StronglySorted_inv in Sa as [Sa Fa].
      split_and!; try done. rewrite (slice_nil b j nb) by lia. by rewrite app_nil_r.
  - pose proof (slice_cons b j nb ltac:(lia) ltac:(lia)) as Eb.
    eapply (Hstep (rd b j) i (j + 1)); try reflexivity; try lia.
    + rewrite Eb. apply Permutation_middle.
    + rewrite Eb. intros Sa Sb. apply StronglySorted_inv in Sb as [Sb Fb].
      split_and!; try done. rewrite (slice_nil a i na) by lia. done.
Qed.
End Merge.

(** X3: [merge] stores the [na + nb] elements of [a] and [b] in the first
    places of [c], every element as often as it occurs, in ascending order
    if [a] and [b] are ascending; the rest of [c] stays, and [nc] is
    [na + nb]. *)
Theorem merge_sorted_permutation (a : list Z) (na : Z) (b : list Z) (nb : Z)
    (c : list Z) :
  0 <= na <= Z.of_nat (length a) -> 0 <= nb <= Z.of_nat (length b) ->
  na + nb <= Z.of_nat (length c) -> na + nb < 256 ->
  let c' := (merge a na b nb c).1 in
  take (Z.to_nat (na + nb)) c'
    ≡ₚ take (Z.to_nat na) a ++ take (Z.to_nat nb) b /\
  drop (Z.to_nat (na + nb)) c' = drop (Z.to_nat (na + nb)) c /\
  (StronglySorted Z.le (take (Z.to_nat na) a) ->
   StronglySorted Z.le (take (Z.to_nat nb) b) ->
   StronglySorted Z.le (take (Z.to_nat (na + nb)) c')) /\
  (merge a na b nb c).2 = na + nb.
Proof.
  intros Hna Hnb Hc Hlt. unfold merge. cbn [fst snd]. cbv zeta.
  destruct (merge_from_spec a na b nb Hna Hnb (Z.to_nat (na + nb)) c 0 0)
    as (l & Heq & Hp & Hs); try lia.
  change (0 + 0) with 0 in Heq. change (Z.to_nat 0) with 0%nat in *.
  rewrite !Z.sub_0_r in *. rewrite !drop_0 in *. rewrite take_0 in Heq.
  cbn [app] in Heq. rewrite Heq.
  assert (Hl : length l = Z.to_nat (na + nb)).
  { rewrite Hp, length_app, !length_take. lia. }
  rewrite <- Hl at 1 2 3. rewrite take_app_length, drop_app_length.
  split_and!; try done.
  - rewrite <- Hl, take_app_length. done.
  - unfold u8. rewrite Z.mod_small; lia.
Qed.

Lemma merge_sorted_permutation_witness :
  merge [3; 20; 21] 3 [4; 20; 30] 3 (repeat 0 8)
    = ([3; 4; 20; 20; 21; 30; 0; 0], 6) /\
  StronglySorted Z.le
    (take 6 (merge [3; 20; 21] 3 [4; 20; 30] 3 (repeat 0 8)).1).
Proof.
  split; [reflexivity|].
  apply (merge_sorted_permutation [3; 20; 21] 3 [4; 20; 30] 3 (repeat 0 8));
    try (simpl; lia);
    repeat (constructor; [|repeat (constructor; try lia)]); constructor.
Defined.

(** ** extractor *)

Lemma find_from_Some p v n i j :
  find_from p v n i = Some j ->
  i <= j < i + Z.of_nat n /\ p (rd v j) = true /\
  forall k, i <= k < j -> p (rd v k) = false.
Proof.
  revert i. induction n as [|n IH]; intros i; cbn [find_from]; [discriminate|].
  destruct (p (rd v i)) eqn:Hp.
  - intros [= <-]. split_and!; try done; try lia.
  - intros H. apply IH in H as (H1 & H2 & H3). split_and!; try done; try lia.
    intros k Hk. destruct (Z.eq_dec k i) as [->|]; [done|]. apply H3. lia.
Qed.

Lemma find_from_None p v n i :
  find_from p v n i = None ->
  forall k, i <= k < i + Z.of_nat n -> p (rd v k) = false.
Proof.
  revert i. induction n as [|n IH]; intros i; cbn [find_from].
  - intros _ k Hk. lia.
  - destruct (p (rd v i)) eqn:Hp; [discriminate|].
    intros H k Hk. destruct (Z.eq_dec k i) as [->|]; [done|].
    apply (IH _ H). lia.
Qed.

Lemma reliable_unreliable x : reliable x = negb (unreliable x).
Proof.
  unfold reliable, unreliable, LSB, RELIABLE, UNRELIABLE.
  assert (Z.land x 1 = x mod 2) as ->
    by (change 1 with (Z.ones 1); rewrite Z.land_ones by lia; done).
  pose proof (Z.mod_pos_bound x 2 ltac:(lia)).
  destruct (Z.eqb_spec (x mod 2) 0), (Z.eqb_spec (x mod 2) 1); simpl;
    first [reflexivity | lia].
Qed.

(** X4: a window the extractor finds starts one place before the first
    unreliable value from [v_ind] on, ends at the first reliable value after
    it, holds only unreliable values in between, and the scan goes on behind
    it. *)
Theorem extractor_window (v : list Z) (v_stop_ind v_ind v_ind' s e : Z) :
  2 <= v_stop_ind < 65536 -> 1 <= v_ind ->
  extractor v v_stop_ind v_ind = (true, v_ind', s, e) ->
  v_ind <= s + 1 <= v_stop_ind - 2 /\
  (forall k, v_ind <= k <= s -> unreliable (rd v k) = false) /\
  (forall k, s < k < e -> unreliable (rd v k) = true) /\
  s + 1 < e <= v_stop_ind /\ reliable (rd v e) = true /\
  v_ind' = e + 1.
Proof.
  intros Hstop Hind. unfold extractor. cbv zeta.
  replace (u16 (v_stop_ind - 2)) with (v_stop_ind - 2)
    by (unfold u16; rewrite Z.mod_small; lia).
  destruct (find_from unreliable v _ v_ind) as [i|] eqn:Hf1; [|discriminate].
  apply find_from_Some in Hf1 as (Hi & Hu & Hbefore).
  destruct (find_from reliable v _ i) as [j|] eqn:Hf2; [|discriminate].
  apply find_from_Some in Hf2 as (Hj & Hr & Hbetween).
  intros [= <- <- <-].
  replace (u16 (i - 1)) with (i - 1) by (unfold u16; rewrite Z.mod_small; lia).
  assert (i <> j).
  { intros ->. rewrite reliable_unreliable, Hu in Hr. discriminate. }
  split_and!; try done; try lia.
  - intros k Hk. apply Hbefore. lia.
  - intros k Hk. specialize (Hbetween k ltac:(lia)).
    rewrite reliable_unreliable in Hbetween. by destruct (unreliable (rd v k)).
Qed.

Lemma extractor_window_witness :
  extractor [0; 400; 1200; 401; 1201; 400; 1200; 400; 1200] 8 3
    = (true, 6, 2, 5) /\
  reliable (rd [0; 400; 1200; 401; 1201; 400; 1200; 400; 1200] 5) = true.
Proof.
  split; [reflexivity|].
  eapply (extractor_window [0; 400; 1200; 401; 1201; 400; 1200; 400; 1200]
            8 3 6 2 5); [lia|lia|reflexivity].
Defined.

(** X5: the extractor finds a window exactly when an unreliable value lies
    in [v_ind .. v_stop_ind - 2] and a reliable one follows the first of
    them, not after [v_stop_ind]. *)
Theorem extractor_finds_iff (v : list Z) (v_stop_ind v_ind : Z) :
  2 <= v_stop_ind < 65536 -> 1 <= v_ind ->
  ((extractor v v_stop_ind v_ind).1.1.1 = true <->
   exists i, v_ind <= i <= v_stop_ind - 2 /\ unreliable (rd v i) = true /\
     (forall k, v_ind <= k < i -> unreliable (rd v k) = false) /\
     exists j, i < j <= v_stop_ind /\ reliable (rd v j) = true).
Proof.
  intros Hstop Hind. unfold extractor. cbv zeta.
  replace (u16 (v_stop_ind - 2)) with (v_stop_ind - 2)
    by (unfold u16; rewrite Z.mod_small; lia).
  destruct (find_from unreliable v _ v_ind) as [i|] eqn:Hf1.
  - apply find_from_Some in Hf1 as (Hi & Hu & Hbefore).
    destruct (find_from reliable v _ i) as [j|] eqn:Hf2.
    + apply find_from_Some in Hf2 as (Hj & Hr & Hbetween). cbn [fst].
      split; [intros _|done]. exists i. split_and!; try done; try lia.
      exists j. split; [|done].
      assert (i <> j); [|lia].
      intros ->. rewrite reliable_unreliable, Hu in Hr. discriminate.
    + cbn [fst]. split; [done|]. intros (i' & Hi' & Hu' & Hb' & j & Hj & Hr).
      assert (i' = i) as ->.
      { destruct (Z.lt_trichotomy i' i) as [Hlt|[->|Hgt]]; [|done|].
        - rewrite Hbefore in Hu' by lia. discriminate.
        - rewrite Hb' in Hu by lia. discriminate. }
      rewrite (find_from_None _ _ _ _ Hf2 j) in Hr by lia. discriminate.
  - cbn [fst]. split; [done|]. intros (i & Hi & Hu & _).
    rewrite (find_from_None _ _ _ _ Hf1 i) in Hu by lia. discriminate.
Qed.

Lemma extractor_finds_iff_witness :
  (extractor [0; 400; 1200; 401; 1201; 400; 1200; 400; 1200] 8 3).1.1.1 = true
  <-> exists i, 3 <= i <= 8 - 2 /\
        unreliable (rd [0; 400; 1200; 401; 1201; 400; 1200; 400; 1200] i)
          = true /\
        (forall k, 3 <= k < i ->
           unreliable (rd [0; 400; 1200; 401; 1201; 400; 1200; 400; 1200] k)
             = false) /\
        exists j, i < j <= 8 /\
          reliable (rd [0; 400; 1200; 401; 1201; 400; 1200; 400; 1200] j)
            = true.
Proof.
  apply (extractor_finds_iff [0; 400; 1200; 401; 1201; 400; 1200; 400; 1200]
           8 3); lia.
Defined.

(** ** The loops of the corrector end *)

Lemma scan_outlier_step zz vs ve st m :
  match scan_outlier zz vs ve st m with
  | inl (_, m') => m' <= m
  | inr f => f <> OutOfFuel
  end.
Proof.
  unfold scan_outlier. cbv zeta.
  destruct (_ <? rd (s_v st) _); [lia|].
  destruct (_ =? 0); [done|].
  destruct (_ || _); [lia|].
  destruct (_ || _); [done|].
  destruct (_ =? _); lia.
Qed.

Lemma scan_outliers_ends fuel zz vs ve st m :
  m < Z.of_nat fuel -> scan_outliers fuel zz vs ve st m <> inr OutOfFuel.
Proof.
  revert st m. induction fuel as [|fuel IH]; intros st m Hm;
    cbn [scan_outliers].
  - destruct (Z.ltb_spec m 0); [done|lia].
  - destruct (m <? 0); [done|].
    pose proof (scan_outlier_step zz vs ve st m) as Hs.
    destruct (scan_outlier zz vs ve st m) as [[st' m']|f].
    + apply IH. lia.
    + congruence.
Qed.

Lemma extractor_progress v v_stop_ind v_ind v_ind' s e :
  extractor v v_stop_ind v_ind = (true, v_ind', s, e) ->
  v_ind + 2 <= v_ind' <= v_stop_ind + 1.
Proof.
  unfold extractor. cbv zeta.
  destruct (find_from unreliable v _ v_ind) as [i|] eqn:Hf1; [|discriminate].
  apply find_from_Some in Hf1 as (Hi & Hu & _).
  destruct (find_from reliable v _ i) as [j|] eqn:Hf2; [|discriminate].
  apply find_from_Some in Hf2 as (Hj & Hr & _).
  intros [= <- _ _].
  assert (i <> j); [|lia].
  intros ->. rewrite reliable_unreliable, Hu in Hr. discriminate.
Qed.

Lemma process_window_fault zz v ss_cat s e rc f :
  process_window zz v ss_cat s e rc = inr f -> f <> OutOfFuel.
Proof.
  unfold process_window. cbv zeta.
  destruct (_ || _); [discriminate|].
  destruct (promote_top _ _ _ _ _) as [[rc1 zz1] ret].
  destruct ret; [discriminate|].
  destruct (_ =? 0); [by intros [= <-]|].
  destruct (fit_flag _); [discriminate|].
  destruct (resorber _ _ _ _ _ _) as [[[[[flag z1] v1] rd1] rc2]|];
    [|by intros [= <-]].
  destruct flag; [discriminate|]. destruct (CRC_0 <? rc2); discriminate.
Qed.

Lemma untrusted_loop_ends fuel zz v ss_cat v_stop_ind ei rc log :
  v_stop_ind - ei + 2 <= Z.of_nat fuel -> (1 <= fuel)%nat ->
  untrusted_loop fuel zz v ss_cat v_stop_ind ei rc log <> inr OutOfFuel.
Proof.
  revert zz v ss_cat ei rc log.
  induction fuel as [|fuel IH]; intros zz v ss_cat ei rc log Hf H1; [lia|].
  cbn [untrusted_loop].
  destruct (extractor v v_stop_ind ei) as [[[found ei'] s] e] eqn:He.
  destruct found; cbn [negb]; [|done].
  apply extractor_progress in He.
  destruct (process_window zz v ss_cat s e rc) as [w|f] eqn:Hw.
  - destruct (w_returned w); [done|]. apply IH; lia.
  - apply process_window_fault in Hw. congruence.
Qed.

Lemma split_outliers_fault n zz m i f :
  split_outliers n zz m i = inr f -> f <> OutOfFuel.
Proof.
  revert zz i. induction n as [|n IH]; intros zz i; cbn [split_outliers];
    [discriminate|].
  cbv zeta. destruct (_ =? 0); [apply IH|].
  destruct (NO <=? _); [by intros [= <-]|apply IH].
Qed.

(** X6: the loops of the corrector end: the scan of the merged outliers goes
    down by at least one place per pass and the extractor goes on by at
    least two, so the corrector never runs out of its passes. *)
Theorem corrector_terminates (zz : category_pair) (v : list Z)
    (v_length unreliable_count : Z) (m_outlier_ind : list Z) :
  corrector zz v v_length unreliable_count m_outlier_ind <> inr OutOfFuel.
Proof.
  unfold corrector. cbv zeta.
  destruct (_ || _); [done|].
  assert (Hloop : forall zz1 v1 rc1 log,
            untrusted_loop (S (Z.to_nat v_length)) zz1 v1 (repeat 0 5) v_length
              (1 + BORDER_WIDTH) rc1 log <> inr OutOfFuel).
  { intros. apply untrusted_loop_ends; unfold BORDER_WIDTH; lia. }
  assert (Hpart : outlier_correction zz v 1 v_length m_outlier_ind
                  <> inr OutOfFuel).
  { unfold outlier_correction. cbv zeta.
    destruct (NM <? _); [done|].
    destruct (merge _ _ _ _ _) as [m1 n1] eqn:Hm.
    assert (Hn1 : 0 <= n1).
    { unfold merge in Hm. injection Hm as _ <-. unfold u8.
      apply Z.mod_pos_bound. lia. }
    destruct (Z.eqb_spec n1 0); [done|].
    pose proof (scan_outliers_ends (Z.to_nat n1) zz 1 v_length (mkScan v m1)
                  (n1 - 1)) as Hs.
    destruct (scan_outliers _ _ _ _ _ _) as [st|f].
    - destruct (split_outliers _ _ _ _) as [zz1|f] eqn:Hsp.
      + destruct (aggregator _ _ _) as [zh rc1]. destruct (CRC_0 <? rc1); [done|].
        destruct (aggregator _ _ _) as [zl rc2]. done.
      + apply split_outliers_fault in Hsp. congruence.
    - intros [= ->]. apply Hs; [lia|done]. }
  destruct (_ || _).
  - destruct (outlier_correction zz v 1 v_length m_outlier_ind)
      as [[[[[rc1 zz1] v1] m1] ret]|f]; [|congruence].
    destruct (ret || _); [done|]. destruct (0 <? unreliable_count); [|done].
    specialize (Hloop zz1 v1 rc1 []).
    destruct (untrusted_loop _ _ _ _ _ _ _ _) as [[[[rc2 zz2] v2] log2]|f];
      [done|congruence].
  - destruct (false || _); [done|]. destruct (0 <? unreliable_count); [|done].
    specialize (Hloop zz v CRC_0 []).
    destruct (untrusted_loop _ _ _ _ _ _ _ _) as [[[[rc2 zz2] v2] log2]|f];
      [done|congruence].
Qed.

(** ** classifier *)

Lemma nearest_cluster_index z v :
  1 <= cluster_size z <= 256 ->
  match nearest_cluster z v with
  | inl k => 0 <= k < cluster_size z
  | inr (k, _) => 0 <= k < cluster_size z
  end.
Proof.
  intros Hc. unfold nearest_cluster.
  destruct (scan_ceil _ _ _ _) as [k|] eqn:Hs.
  - apply scan_ceil_first in Hs as (Hk & _).
    destruct (_ <=? v); [lia|]. destruct (Z.eqb_spec k 0); [lia|].
    cbv zeta. destruct (_ <? _); lia.
  - cbv zeta. unfold u8. rewrite Z.mod_small; lia.
Qed.

Lemma scan_aggreg_category z v n a st :
  1 <= cluster_size z -> cluster_size z + aggreg_size_2 z <= 256 ->
  0 <= a -> a + Z.of_nat n <= aggreg_size_2 z ->
  category_center z st.1.1 = Some st.1.2 ->
  let st' := scan_aggreg z v n a st in
  category_center z st'.1.1 = Some st'.1.2.
Proof.
  intros Hc Hsum. revert a st. induction n as [|n IH]; intros a st Ha Hn Hst;
    cbn [scan_aggreg]; [done|].
  destruct st as [[ci cv] d]. cbv zeta. apply IH; try lia.
  destruct (_ <? d); [|done]. cbn [fst snd].
  unfold category_center, u8. rewrite Z.mod_small by lia.
  destruct (Z.ltb_spec (cluster_size z + a) (cluster_size z)); [lia|].
  rewrite andb_false_r.
  destruct (Z.leb_spec (cluster_size z) (cluster_size z + a)); [|lia].
  destruct (Z.ltb_spec (cluster_size z + a) (cluster_size z + aggreg_size_2 z));
    [|lia].
  cbn [andb]. do 2 f_equal. lia.
Qed.

(** X7: with at least one cluster, the classifier always reports a category
    of the set with its center, when it returns false too: [cat_ind] is a
    cluster index, or [cluster_size] plus an aggregation index, and
    [cat_val] is the center stored there. *)
Theorem classifier_reports_category (z : categories) (v_val option : Z) :
  1 <= cluster_size z -> 0 <= aggreg_size_2 z ->
  cluster_size z + aggreg_size_2 z <= 256 ->
  category_center z (classifier z v_val option).1.2
  = Some (classifier z v_val option).2.
Proof.
  intros Hc Ha Hsum. unfold classifier.
  pose proof (nearest_cluster_index z v_val ltac:(lia)) as Hk.
  destruct (nearest_cluster z v_val) as [k|[k d]].
  - cbn [fst snd]. unfold category_center.
    destruct (Z.leb_spec 0 k), (Z.ltb_spec k (cluster_size z)); try lia. done.
  - cbv zeta.
    assert (Hcat : category_center z k = Some (rd (cluster_center z) k)).
    { unfold category_center.
      destruct (Z.leb_spec 0 k), (Z.ltb_spec k (cluster_size z)); try lia.
      done. }
    destruct (d <? _); [done|].
    pose proof (scan_aggreg_category z v_val (Z.to_nat (aggreg_size_2 z)) 0
                  (k, rd (cluster_center z) k, d) Hc Hsum ltac:(lia)
                  ltac:(lia) Hcat) as Hs.
    cbv zeta in Hs.
    destruct (scan_aggreg _ _ _ _ _) as [[ci cv] d']. done.
Qed.

Lemma classifier_reports_category_witness :
  classifier two_level_z 800 C_OPT_3 = (false, 2, 640) /\
  category_center two_level_z (classifier two_level_z 800 C_OPT_3).1.2
    = Some (classifier two_level_z 800 C_OPT_3).2.
Proof.
  split; [vm_compute; reflexivity|].
  apply (classifier_reports_category two_level_z 800 C_OPT_3);
    vm_compute; discriminate.
Defined.

Lemma rd_nonneg (l : list Z) k : Forall (fun x => 0 <= x) l -> 0 <= rd l k.
Proof.
  intros H. unfold rd.
  destruct (nth_in_or_default (Z.to_nat k) l 0) as [Hin| ->]; [|lia].
  rewrite Forall_forall in H. apply H. by apply list_elem_of_In.
Qed.

Lemma shiftr_antitone c o o' :
  0 <= c -> 0 <= o' <= o -> Z.shiftr c o <= Z.shiftr c o'.
Proof.
  intros Hc Ho. rewrite !Z.shiftr_div_pow2 by lia.
  apply Z.div_le_compat_l; [done|]. split.
  - apply Z.pow_pos_nonneg; lia.
  - apply Z.pow_le_mono_r; lia.
Qed.

Lemma scan_aggreg_nonneg z v n a st :
  Forall (fun x => 0 <= x) (aggreg_center z) -> 0 <= st.1.2 ->
  0 <= (scan_aggreg z v n a st).1.2.
Proof.
  intros Hagg. revert a st. induction n as [|n IH]; intros a st Hst;
    cbn [scan_aggreg]; [done|].
  destruct st as [[ci cv] d]. cbv zeta. apply IH.
  destruct (_ <? d); [|done]. cbn [fst snd]. by apply rd_nonneg.
Qed.

(** X8: a value the classifier accepts under a tightness option is accepted
    under every looser (smaller) option. *)
Theorem classifier_option_monotone (z : categories) (v_val option option' : Z) :
  Forall (fun x => 0 <= x) (cluster_center z) ->
  Forall (fun x => 0 <= x) (aggreg_center z) ->
  0 <= option' <= option ->
  (classifier z v_val option).1.1 = true ->
  (classifier z v_val option').1.1 = true.
Proof.
  intros Hcl Hagg Ho. unfold classifier.
  destruct (nearest_cluster z v_val) as [k|[k d]]; [done|]. cbv zeta.
  pose proof (rd_nonneg (cluster_center z) k Hcl) as Hk.
  pose proof (shiftr_antitone (rd (cluster_center z) k) option option' Hk Ho).
  destruct (Z.ltb_spec d (Z.shiftr (rd (cluster_center z) k) option)) as [Hlt|Hge].
  - intros _. destruct (Z.ltb_spec d (Z.shiftr (rd (cluster_center z) k) option'));
      [done|lia].
  - destruct (Z.ltb_spec d (Z.shiftr (rd (cluster_center z) k) option'));
      [done|].
    pose proof (scan_aggreg_nonneg z v_val (Z.to_nat (aggreg_size_2 z)) 0
                  (k, rd (cluster_center z) k, d) Hagg Hk) as Hnn.
    destruct (scan_aggreg _ _ _ _ _) as [[ci cv] d']. cbn [fst snd] in *.
    pose proof (shiftr_antitone cv option option' Hnn Ho).
    destruct (Z.ltb_spec d' (Z.shiftr cv option)); [|done]. intros _.
    destruct (Z.ltb_spec d' (Z.shiftr cv option')); [done|lia].
Qed.

Lemma classifier_option_monotone_witness :
  (classifier two_level_z 420 C_OPT_4).1.1 = true /\
  (classifier two_level_z 420 C_OPT_2).1.1 = true.
Proof.
  split; [vm_compute; reflexivity|].
  apply (classifier_option_monotone two_level_z 420 C_OPT_4 C_OPT_2).
  - apply (bool_decide_unpack _); vm_compute; exact I.
  - apply (bool_decide_unpack _); vm_compute; exact I.
  - vm_compute. split; discriminate.
  - vm_compute. reflexivity.
Defined.

(** ** aggregator *)

Lemma land_MSB_reliable c :
  reliable (Z.land c MSB) = true /\ 0 <= Z.land c MSB < 65536.
Proof.
  split.
  - unfold reliable, LSB, RELIABLE, MSB.
    rewrite <- Z.land_assoc. change (Z.land 65534 1) with 0.
    by rewrite Z.land_0_r.
  - unfold MSB. change 65534 with (Z.land 65534 (Z.ones 16)).
    rewrite Z.land_assoc, Z.land_ones by lia.
    apply Z.mod_pos_bound. lia.
Qed.

Lemma close_aggregation_ok z0 z s c m :
  aggregs_ok z0 z -> aggreg_size_2 z < NC ->
  aggregs_ok z0 (close_aggregation z s c m).
Proof.
  intros (Hl & H1 & H2 & H3 & Hlow & Hnew) Hlt. unfold close_aggregation.
  cbv zeta. destruct (m <? c); [|done].
  unfold aggregs_ok, set_aggregs, NC, u8 in *.
  cbn [aggreg_center aggreg_size_1 aggreg_size_2].
  rewrite Z.mod_small by lia.
  split_and!; try done; try lia.
  - by rewrite length_wr.
  - intros k Hk. rewrite rd_wr_ne by lia. by apply Hlow.
  - intros k Hk. destruct (Z.eq_dec k (aggreg_size_2 z)) as [->|Hne].
    + rewrite rd_wr_eq by lia. apply land_MSB_reliable.
    + rewrite rd_wr_ne by lia. apply Hnew. lia.
Qed.

Lemma aggregate_from_ok n z0 z v m l o s c z' rc :
  aggregs_ok z0 z -> aggreg_size_2 z < NC ->
  aggregate_from n z v m l o s c = (z', rc) -> aggregs_ok z0 z'.
Proof.
  revert z o s c. induction n as [|n IH]; intros z o s c Hok Hlt;
    cbn [aggregate_from]; [by intros [= <- <-]|].
  cbv zeta.
  set (z1 := close_aggregation z _ _ m).
  assert (Hok1 : aggregs_ok z0 z1) by (by apply close_aggregation_ok).
  destruct (l <=? o); [by intros [= <- <-]|].
  destruct (_ <? u16 _); [by apply IH|].
  destruct (u8 (o + 1) <? l).
  { destruct (Z.leb_spec NC (aggreg_size_2 z1)); [by intros [= <- <-]|].
    by apply IH. }
  destruct (u8 (o + 1) =? l); [|by intros [= <- <-]].
  destruct (Z.leb_spec NC (aggreg_size_2 z1)); [by intros [= <- <-]|].
  intros [= <- <-]. by apply close_aggregation_ok.
Qed.

(** X9: whatever its return code, the aggregator leaves the aggregations
    below [aggreg_size_1] as they were and at most [NC] aggregations in all,
    and every center it stores is a 16-bit value flagged reliable. *)
Theorem aggregator_aggregations (z : categories) (v : list Z)
    (v_min_count : Z) :
  length (aggreg_center z) = 8%nat -> 0 <= aggreg_size_1 z <= NC ->
  aggregs_ok z (aggregator z v v_min_count).1.
Proof.
  intros Hl Ha. unfold aggregator. cbv zeta.
  set (z1 := set_aggregs z (aggreg_size_1 z) (aggreg_center z)).
  assert (H1 : aggregs_ok z z1).
  { unfold aggregs_ok, z1, set_aggregs.
    cbn [aggreg_center aggreg_size_1 aggreg_size_2].
    split_and!; try done; try lia. }
  destruct (outlier_size z1 <? 1); [done|].
  set (z2 := set_outliers z1 _ _).
  assert (H2 : aggregs_ok z z2) by exact H1.
  destruct (Z.leb_spec NC (aggreg_size_2 z2)); [done|].
  destruct (aggregate_from _ _ _ _ _ _ _ _) as [z' rc] eqn:Hagg.
  cbn [fst]. by eapply aggregate_from_ok.
Qed.

Lemma aggregator_aggregations_witness :
  aggreg_size_2
    (aggregator (set_outliers blank_categories 3 [1; 3; 5]) 
       [0; 2000; 0; 2010; 0; 3000] 0).1 = 2 /\
  aggregs_ok (set_outliers blank_categories 3 [1; 3; 5])
    (aggregator (set_outliers blank_categories 3 [1; 3; 5])
       [0; 2000; 0; 2010; 0; 3000] 0).1.
Proof.
  split; [reflexivity|].
  apply (aggregator_aggregations (set_outliers blank_categories 3 [1; 3; 5])
           [0; 2000; 0; 2010; 0; 3000] 0); [reflexivity|].
  vm_compute. split; discriminate.
Defined.

Lemma aggregate_from_code n z v m l o s c z' rc :
  0 <= o <= l -> l <= 254 -> l - o < Z.of_nat n ->
  aggregate_from n z v m l o s c = (z', rc) ->
  rc = CRC_0 \/ (rc = CRC_4 /\ NC <= aggreg_size_2 z').
Proof.
  revert z o s c. induction n as [|n IH]; intros z o s c Ho Hl Hn; [lia|].
  cbn [aggregate_from]. cbv zeta.
  destruct (Z.leb_spec l o); [intros [= <- <-]; by left|].
  replace (u8 (o + 1)) with (o + 1) by (unfold u8; rewrite Z.mod_small; lia).
  destruct (_ <? u16 _); [apply IH; lia|].
  set (z1 := close_aggregation z _ _ m).
  destruct (Z.ltb_spec (o + 1) l).
  { destruct (Z.leb_spec NC (aggreg_size_2 z1));
      [intros [= <- <-]; by right|apply IH; lia]. }
  destruct (Z.eqb_spec (o + 1) l); [|lia].
  destruct (Z.leb_spec NC (aggreg_size_2 z1));
    intros [= <- <-]; [by right|by left].
Qed.

(** X10: the aggregator never ends with the fatal code 17: it returns 0, or
    4 with the aggregation table full. *)
Theorem aggregator_never_fatal (z : categories) (v : list Z)
    (v_min_count : Z) :
  outlier_size z <= 255 ->
  (aggregator z v v_min_count).2 = CRC_0 \/
  ((aggregator z v v_min_count).2 = CRC_4 /\
   NC <= aggreg_size_2 (aggregator z v v_min_count).1).
Proof.
  intros Hs. unfold aggregator. cbv zeta.
  cbn [set_aggregs outlier_size outlier_ind].
  destruct (Z.ltb_spec (outlier_size z) 1); [by left|].
  match goal with |- context [if ?c then _ else _] => destruct c eqn:Hfull end.
  { right. split; [done|]. cbn [fst]. by apply Z.leb_le in Hfull. }
  destruct (aggregate_from _ _ _ _ _ _ _ _) as [z' rc] eqn:Hagg.
  cbn [fst snd]. apply aggregate_from_code in Hagg; try done.
  - unfold u8. cbn [set_outliers outlier_size]. rewrite Z.mod_small; lia.
  - unfold u8. cbn [set_outliers outlier_size]. rewrite Z.mod_small; lia.
  - unfold u8. cbn [set_outliers outlier_size]. rewrite Z.mod_small; lia.
Qed.

Lemma aggregator_never_fatal_witness :
  (aggregator (set_aggreg_size_1 (set_outliers blank_categories 2 [1; 3]) 8)
     [0; 2000; 0; 3000] 0).2 = CRC_4 /\
  ((aggregator (set_aggreg_size_1 (set_outliers blank_categories 2 [1; 3]) 8)
      [0; 2000; 0; 3000] 0).2 = CRC_0 \/
   ((aggregator (set_aggreg_size_1 (set_outliers blank_categories 2 [1; 3]) 8)
       [0; 2000; 0; 3000] 0).2 = CRC_4 /\
    NC <= aggreg_size_2
            (aggregator
               (set_aggreg_size_1 (set_outliers blank_categories 2 [1; 3]) 8)
               [0; 2000; 0; 3000] 0).1)).
Proof.
  split; [reflexivity|].
  apply (aggregator_never_fatal
           (set_aggreg_size_1 (set_outliers blank_categories 2 [1; 3]) 8)
           [0; 2000; 0; 3000] 0).
  vm_compute. discriminate.
Defined.

(** ** The number of clusters *)

Lemma histogram_clustering_nonempty fuel z v vs ve ov hits z' ov' hits' :
  histogram_clustering fuel z v vs ve ov hits = Some (CRC_0, z', ov', hits') ->
  cluster_size z' <> 0.
Proof.
  unfold histogram_clustering.
  destruct (histogram_loop _ _ _ _ _) as [[rc1 st]|]; [|discriminate].
  destruct (Z.eqb_spec rc1 CRC_0) as [->|Hne]; cbn [negb].
  - cbv zeta. destruct (Z.eqb_spec (cluster_size (set_cluster_size (h_z st)
                                                    (h_c_ind st))) 0);
      [discriminate|]. by intros [= <- _ _].
  - intros [= -> _ _ _]. done.
Qed.

(** X11: when the clusterer returns 0 it has found at least one cluster and
    at most [NC - 1]: the last place of the cluster tables is never used. *)
Theorem clusterer_cluster_count (fuel : nat) (z : categories) (v : list Z)
    (v_start_ind v_stop_ind : Z) (overlap_flag : bool) (h_hit_ind : list Z)
    (z' : categories) (overlap_flag' : bool) (h_hit_ind' : list Z) :
  Forall (fun x => 0 <= x < 65536) v -> tables_ok z ->
  length h_hit_ind = 64%nat ->
  clusterer fuel z v v_start_ind v_stop_ind overlap_flag h_hit_ind
    = Some (CRC_0, z', overlap_flag', h_hit_ind') ->
  1 <= cluster_size z' <= NC - 1.
Proof.
  intros Hv Ht Hh. unfold clusterer.
  destruct (histogram_clustering _ _ _ _ _ _ _) as [[[[rc1 z1] ov1] hits1]|]
    eqn:Hc; [|discriminate].
  destruct (Z.eqb_spec rc1 CRC_0) as [->|Hne]; cbn [negb];
    [|intros [= -> _ _ _]; done].
  destruct (histogram_clustering_spec _ _ _ _ _ _ _ _ _ _ _ Hv Ht Hh Hc eq_refl)
    as ([B HB] & Hs & Hl).
  apply histogram_clustering_nonempty in Hc.
  destruct (post_clustering z1 v v_start_ind v_stop_ind) as [[rc2 z2]|] eqn:Hp;
    [|discriminate].
  apply post_clustering_kept in Hp. destruct (Hp Hs) as (K1 & _).
  intros [= _ <- _ _]. rewrite K1.
  pose proof (cg_c _ _ _ HB). lia.
Qed.

Lemma clusterer_cluster_count_witness :
  exists z' ov hits,
    clusterer 10 blank_categories two_high_trace 1 39 false blank_buffer
      = Some (CRC_0, z', ov, hits) /\
    cluster_size z' = 2 /\ 1 <= cluster_size z' <= NC - 1.
Proof.
  do 3 eexists. split; [vm_compute; reflexivity|]. split; [reflexivity|].
  eapply (clusterer_cluster_count 10 blank_categories two_high_trace 1 39
            false blank_buffer).
  - apply (bool_decide_unpack _); vm_compute; exact I.
  - repeat split.
  - reflexivity.
  - vm_compute. reflexivity.
Defined.

(** ** The order of the outliers *)

Lemma insert_shift_length key s tmp n j :
  length (insert_shift key s tmp n j) = length s.
Proof.
  revert s j. induction n as [|n IH]; intros s j; cbn [insert_shift].
  - apply length_wr.
  - cbv zeta. destruct (_ && _).
    + rewrite IH. apply length_wr.
    + rewrite !length_wr. done.
Qed.

Lemma insertion_sort_from_length key s m i :
  length (insertion_sort_from key s m i) = length s.
Proof.
  revert s i. induction m as [|m IH]; intros s i; cbn [insertion_sort_from];
    [done|].
  cbv zeta. rewrite IH. destruct (_ <? _); [apply insert_shift_length|done].
Qed.

Lemma cluster_bins_outliers fuel hf w bw st b rc st' :
  cluster_bins fuel hf w bw st b = Some (rc, st') ->
  outlier_ind (b_z st') = outlier_ind (b_z st).
Proof.
  revert st b. induction fuel as [|fuel IH]; intros st b; [discriminate|].
  cbn [cluster_bins].
  destruct (negb (b <? NB)); [intros [= <- <-]; done|].
  set (b1 := skip_empty _ _ _).
  destruct (NB <=? b1).
  { destruct (0 <? _); intros [= <- <-]; done. }
  destruct (NB <=? u8 (b1 - 1)); [intros [= <- <-]; done|].
  destruct (find_stop _ _ _ _ _) as [[b2 stop] inl].
  destruct (b2 =? NB).
  { destruct (stop =? NB); intros [= <- <-]; done. }
  destruct (NB <=? stop); [intros [= <- <-]; done|].
  set (cut := if 6 <=? _ then _ else None).
  destruct (count_bins _ _ _ _ _ _) as [c_count bin_mean].
  destruct (c_count <? MIN_SIZE).
  { intros H. by rewrite (IH _ _ H). }
  destruct (NC <=? _).
  { intros [= <- <-]. done. }
  intros H. by rewrite (IH _ _ H).
Qed.

Lemma sieve_outliers_length n v hits f w z bins h rc z' bins' :
  sieve n v hits f w z bins h = (rc, z', bins') ->
  length (outlier_ind z') = length (outlier_ind z).
Proof.
  revert z bins h. induction n as [|n IH]; intros z bins h; cbn [sieve].
  - by intros [= _ <- _].
  - cbv zeta. destruct (0 <? _); [|apply IH].
    destruct (NO <=? _); [by intros [= _ <- _]|].
    intros H. rewrite (IH _ _ _ H). cbn [set_outliers outlier_ind].
    apply length_wr.
Qed.

Lemma histogram_pass_outliers_length v s e st rc st' c :
  histogram_pass v s e st = Some (rc, st', c) ->
  length (outlier_ind (h_z st')) = length (outlier_ind (h_z st)).
Proof.
  unfold histogram_pass.
  destruct (fill_bins _ _ _ _ _ _ _) as [rc1 fs].
  destruct (negb _); [intros [= <- <- <-]; done|].
  destruct (cluster_bins _ _ _ _ _ _) as [[rc2 bs]|] eqn:Hc; [|discriminate].
  apply cluster_bins_outliers in Hc. cbn [b_z] in Hc.
  destruct (negb _); [intros [= <- <- <-]; cbn [h_z]; by rewrite Hc|].
  destruct (b_outlier_presence bs);
    [|intros [= <- <- <-]; cbn [h_z]; by rewrite Hc].
  destruct (sieve _ _ _ _ _ _ _ _) as [[rc3 z3] bins3] eqn:Hs.
  apply sieve_outliers_length in Hs.
  intros [= <- <- <-]. cbn [h_z]. by rewrite Hs, Hc.
Qed.

Lemma histogram_loop_outliers_length fuel v s e st rc st' :
  histogram_loop fuel v s e st = Some (rc, st') ->
  length (outlier_ind (h_z st')) = length (outlier_ind (h_z st)).
Proof.
  revert st. induction fuel as [|fuel IH]; intros st; [discriminate|].
  cbn [histogram_loop].
  destruct (histogram_pass v s e st) as [[[rc1 st1] c1]|] eqn:Hp; [|discriminate].
  apply histogram_pass_outliers_length in Hp.
  destruct (negb _); [by intros [= <- <-]|].
  destruct (_ =? CEIL_U); [by intros [= <- <-]|].
  destruct (widen _ _ _ _ _) as [[w bw]|]; [|discriminate].
  intros H. apply IH in H. cbn [h_z] in H. congruence.
Qed.

Lemma histogram_clustering_outliers_length fuel z v s e ov hits rc z' ov' hits' :
  histogram_clustering fuel z v s e ov hits = Some (rc, z', ov', hits') ->
  length (outlier_ind z') = length (outlier_ind z).
Proof.
  unfold histogram_clustering.
  destruct (histogram_loop _ _ _ _ _) as [[rc1 st]|] eqn:Hl; [|discriminate].
  apply histogram_loop_outliers_length in Hl. cbn [h_z init_categories
    outlier_ind] in Hl.
  destruct (negb _); [by intros [= _ <- _ _]|]. cbv zeta.
  destruct (_ =? 0); by intros [= _ <- _ _].
Qed.

Lemma border_loop_outliers_length fuel z v vs ve i rc z' :
  border_loop fuel z v vs ve i = Some (rc, z') ->
  length (outlier_ind z') = length (outlier_ind z).
Proof.
  revert z i. induction fuel as [|fuel IH]; intros z i; [discriminate|].
  cbn [border_loop]. cbv zeta.
  destruct (ve <? i); [by intros [= _ <-]|].
  set (i1 := if i =? vs + BORDER_WIDTH then _ else _).
  destruct (unreliable (rd v i1)); [apply IH|].
  destruct (_ && _); [apply IH|].
  destruct (_ && _); [apply IH|].
  destruct (classifier z (rd v i1) C_OPT_3).1.1; [apply IH|].
  destruct (1 <? i1); [|apply IH].
  destruct (NO <=? outlier_size z); [by intros [= _ <-]|].
  intros H. apply IH in H. rewrite H. apply length_wr.
Qed.

Lemma close_aggregation_outliers z s c m :
  outlier_ind (close_aggregation z s c m) = outlier_ind z /\
  outlier_size (close_aggregation z s c m) = outlier_size z.
Proof. unfold close_aggregation. cbv zeta. by destruct (m <? c). Qed.

Lemma aggregate_from_outliers n z v m l o s c z' rc :
  aggregate_from n z v m l o s c = (z', rc) ->
  outlier_ind z' = outlier_ind z /\ outlier_size z' = outlier_size z.
Proof.
  revert z o s c. induction n as [|n IH]; intros z o s c;
    cbn [aggregate_from]; [by intros [= <- <-]|].
  cbv zeta.
  set (z1 := close_aggregation z _ _ m).
  pose proof (close_aggregation_outliers z (s + rd v (rd (outlier_ind z) o))
                (u8 (c + 1)) m) as [E1 E2]. fold z1 in E1, E2.
  destruct (l <=? o); [by intros [= <- <-]|].
  destruct (_ <? u16 _); [apply IH|].
  destruct (u8 (o + 1) <? l).
  { destruct (NC <=? _); [by intros [= <- <-]|].
    intros H. apply IH in H as [H1 H2]. split; congruence. }
  destruct (u8 (o + 1) =? l); [|by intros [= <- <-]].
  destruct (NC <=? _); [by intros [= <- <-]|].
  intros [= <- <-].
  destruct (close_aggregation_outliers z1
              (rd v (rd (outlier_ind z1) (u8 (o + 1)))) 1 m) as [F1 F2].
  split; congruence.
Qed.

Lemma aggregator_outliers_length z v m z' rc :
  aggregator z v m = (z', rc) ->
  length (outlier_ind z') = length (outlier_ind z) /\
  outlier_size z' = outlier_size z.
Proof.
  unfold aggregator. cbv zeta.
  destruct (_ <? 1); [by intros [= <- <-]|].
  set (z2 := set_outliers _ _ _).
  assert (H2 : length (outlier_ind z2) = length (outlier_ind z) /\
               outlier_size z2 = outlier_size z).
  { subst z2. cbn [set_outliers set_aggregs outlier_ind outlier_size].
    split; [|done]. apply insertion_sort_from_length. }
  destruct (NC <=? _); [by intros [= <- <-]|].
  intros H. apply aggregate_from_outliers in H as [H3 H4].
  destruct H2. split; congruence.
Qed.

Lemma prune_outliers_length n z v outliers k o outliers' o' :
  prune_outliers n z v outliers k o = (outliers', o') ->
  length outliers' = length outliers.
Proof.
  revert outliers k o. induction n as [|n IH]; intros outliers k o;
    cbn [prune_outliers]; [by intros [= <- _]|].
  cbv zeta. destruct (classifier _ _ _).1.1; [apply IH|].
  intros H. apply IH in H. by rewrite H, length_wr.
Qed.

Lemma barrier_loop_outliers fuel z v a b z' :
  barrier_loop fuel z v a b = Some z' ->
  outlier_ind z' = outlier_ind z /\ outlier_size z' = outlier_size z.
Proof.
  revert z a b. induction fuel as [|fuel IH]; intros z a b; [discriminate|].
  cbn [barrier_loop]. cbv zeta. destruct (a <? b); [|by intros [= <-]].
  intros H. by apply IH in H.
Qed.

(** The post-clustering ends with the sort of the outlier indices. *)
Lemma post_clustering_sorted z v vs ve z' :
  post_clustering z v vs ve = Some (CRC_0, z') ->
  sizes_ok z ->
  Z.of_nat (length (outlier_ind z)) = NO ->
  ascending_by (fun x => x) (outlier_ind z') (outlier_size z') /\
  Z.of_nat (length (outlier_ind z')) = NO.
Proof.
  unfold post_clustering. intros H Hs Hlen. revert H.
  destruct (border_loop _ _ _ _ _ _) as [[rc1 z1]|] eqn:Hb; [|discriminate].
  pose proof (border_loop_kept _ _ _ _ _ _ _ _ Hb) as K1.
  apply border_loop_outliers_length in Hb.
  destruct (Z.eqb_spec rc1 CRC_0) as [->|]; cbn [negb];
    [|by intros [= -> _]].
  destruct (aggregator z1 v MIN_SIZE) as [z2 rc2] eqn:Ha.
  pose proof (aggregator_kept _ _ _ _ _ Ha) as K2.
  apply aggregator_outliers_length in Ha as [Ha1 Ha2].
  destruct (Z.ltb_spec CRC_0 rc2); [intros [= -> _]; lia|].
  destruct (prune_outliers _ _ _ _ _ _) as [outliers o] eqn:Hpr.
  pose proof (prune_outliers_bound _ _ _ _ _ _ _ _ Hpr) as Hbound.
  apply prune_outliers_length in Hpr.
  destruct (find_barrier _ v) as [z5|] eqn:Hf; [|discriminate].
  apply barrier_loop_outliers in Hf as [Hf1 Hf2].
  cbn [set_outliers set_aggreg_size_1 outlier_ind outlier_size] in *.
  intros [= <-]. cbn [outlier_ind outlier_size].
  destruct (K1 Hs) as (_ & _ & S1). destruct (K2 S1) as (_ & _ & S2).
  assert (Ho : 0 <= o <= NO).
  { unfold sizes_ok, NO in *. lia. }
  assert (Hl5 : Z.of_nat (length (outlier_ind z5)) = NO) by congruence.
  rewrite Hf2.
  destruct (insertion_sort_spec (fun x => x) (outlier_ind z5) o)
    as (H1 & _ & H3 & _); [lia|].
  cbn [set_outliers outlier_ind outlier_size]. unfold sort.
  split; [exact H1|]. by rewrite H3.
Qed.

(** X12: when the clusterer returns 0, the outlier indices it leaves are in
    ascending order. *)
Theorem clusterer_outliers_ascending (fuel : nat) (z : categories)
    (v : list Z) (v_start_ind v_stop_ind : Z) (overlap_flag : bool)
    (h_hit_ind : list Z) (z' : categories) (overlap_flag' : bool)
    (h_hit_ind' : list Z) :
  Forall (fun x => 0 <= x < 65536) v -> tables_ok z ->
  length h_hit_ind = 64%nat -> length (outlier_ind z) = 16%nat ->
  clusterer fuel z v v_start_ind v_stop_ind overlap_flag h_hit_ind
    = Some (CRC_0, z', overlap_flag', h_hit_ind') ->
  forall i j, 0 <= i -> i <= j -> j < outlier_size z' ->
    rd (outlier_ind z') i <= rd (outlier_ind z') j.
Proof.
  intros Hv Ht Hh Ho. unfold clusterer.
  destruct (histogram_clustering _ _ _ _ _ _ _) as [[[[rc1 z1] ov1] hits1]|]
    eqn:Hc; [|discriminate].
  destruct (Z.eqb_spec rc1 CRC_0) as [->|Hne]; cbn [negb];
    [|intros [= -> _ _ _]; done].
  destruct (histogram_clustering_spec _ _ _ _ _ _ _ _ _ _ _ Hv Ht Hh Hc eq_refl)
    as (_ & Hs & _).
  apply histogram_clustering_outliers_length in Hc.
  destruct (post_clustering z1 v v_start_ind v_stop_ind) as [[rc2 z2]|] eqn:Hp;
    [|discriminate].
  intros [= -> <- _ _].
  apply post_clustering_sorted in Hp as [Hp _]; [exact Hp|done|].
  rewrite Hc, Ho. reflexivity.
Qed.

Lemma clusterer_outliers_ascending_witness :
  exists z' ov hits,
    clusterer 10 blank_categories two_outlier_trace 1 39 false blank_buffer
      = Some (CRC_0, z', ov, hits) /\
    outlier_size z' = 2 /\
    rd (outlier_ind z') 0 = 3 /\ rd (outlier_ind z') 1 = 21 /\
    forall i j, 0 <= i -> i <= j -> j < outlier_size z' ->
      rd (outlier_ind z') i <= rd (outlier_ind z') j.
Proof.
  do 3 eexists. split; [vm_compute; reflexivity|].
  split; [reflexivity|]. split; [reflexivity|]. split; [reflexivity|].
  eapply (clusterer_outliers_ascending 10 blank_categories
            two_outlier_trace 1 39 false blank_buffer).
  - apply (bool_decide_unpack _); vm_compute; exact I.
  - repeat split.
  - reflexivity.
  - reflexivity.
  - vm_compute. reflexivity.
Defined.

(** ** The separator barrier *)

Lemma highest_below_spec n v outliers barrier o r0 :
  let r := highest_below n v outliers barrier o r0 in
  r0 <= r /\
  (forall k, o <= k < o + Z.of_nat n ->
     rd v (rd outliers k) < barrier -> rd v (rd outliers k) <= r) /\
  (r = r0 \/ exists k, o <= k < o + Z.of_nat n /\ r = rd v (rd outliers k)).
Proof.
  revert o r0. induction n as [|n IH]; intros o r0; cbn [highest_below].
  { cbv zeta. split_and!; [lia| |by left]. intros k Hk. lia. }
  cbv zeta.
  set (x := rd v (rd outliers o)).
  set (r1 := if (x <? barrier) && (r0 <? x) then x else r0).
  destruct (IH (o + 1) r1) as (H1 & H2 & H3).
  assert (Hr1 : r0 <= r1 /\ (x < barrier -> x <= r1) /\ (r1 = r0 \/ r1 = x)).
  { subst r1. destruct (Z.ltb_spec x barrier), (Z.ltb_spec r0 x); cbn [andb];
      lia. }
  split_and!.
  - lia.
  - intros k Hk Hlt. destruct (Z.eq_dec k o) as [->|Hne].
    + fold x in Hlt |- *. lia.
    + apply H2; [lia|done].
  - destruct H3 as [->|(k & Hk & ->)].
    + destruct Hr1 as (_ & _ & [->| ->]); [by left|].
      right. exists o. split; [lia|done].
    + right. exists k. split; [lia|done].
Qed.

Lemma barrier_loop_spec fuel z0 v c z b z' :
  outlier_size z = outlier_size z0 -> outlier_ind z = outlier_ind z0 ->
  separator_barrier z = separator_of b ->
  0 < c -> c <= b ->
  (b = c \/ exists o, 0 <= o < outlier_size z0 /\ b = outlier_value z0 v o) ->
  barrier_loop fuel z v b
    (highest_below (Z.to_nat (outlier_size z)) v (outlier_ind z)
       (separator_barrier z) 0 0) = Some z' ->
  exists b', separator_barrier z' = separator_of b' /\
    barrier_fixed_point z0 v c b'.
Proof.
  revert z b. induction fuel as [|fuel IH]; intros z b Hsz Hind Hsep Hc Hcb Hb;
    [discriminate|].
  cbn [barrier_loop]. cbv zeta.
  pose proof (highest_below_spec (Z.to_nat (outlier_size z)) v (outlier_ind z)
                (separator_barrier z) 0 0) as Hh.
  set (r := highest_below _ _ _ _ _ _) in *. cbv zeta in Hh.
  destruct Hh as (Hr0 & Hall & Hsome).
  destruct (Z.ltb_spec b r) as [Hlt|Hge].
  - cbn [set_barrier outlier_size outlier_ind separator_barrier].
    intros H.
    apply (IH (set_barrier z (separator_of r)) r) in H; try done; try lia.
    right. destruct Hsome as [->|(k & Hk & Hrk)].
    + lia.
    + exists k. rewrite Hsz in Hk. split; [lia|].
      unfold outlier_value. by rewrite <- Hind.
  - intros [= <-]. exists b. split; [done|]. split_and!; try done.
    intros o Ho Hlt. unfold outlier_value in *. rewrite <- Hind, <- Hsz in *.
    rewrite <- Hsep in Hlt. specialize (Hall o ltac:(lia) Hlt). lia.
Qed.

Lemma outliers_above_le n v outliers o b :
  (outliers_above n v outliers o b <= n)%nat.
Proof.
  revert o. induction n as [|n IH]; intros o; cbn [outliers_above]; [lia|].
  specialize (IH (o + 1)). destruct (_ <? _); lia.
Qed.

Lemma outliers_above_mono n v outliers o b b' :
  b <= b' ->
  (outliers_above n v outliers o b' <= outliers_above n v outliers o b)%nat.
Proof.
  intros Hb. revert o. induction n as [|n IH]; intros o; cbn [outliers_above];
    [lia|].
  specialize (IH (o + 1)).
  destruct (Z.ltb_spec b' (rd v (rd outliers o))),
           (Z.ltb_spec b (rd v (rd outliers o))); lia.
Qed.

Lemma outliers_above_lt n v outliers o b r :
  b < r ->
  (exists k, o <= k < o + Z.of_nat n /\ r = rd v (rd outliers k)) ->
  (outliers_above n v outliers o r < outliers_above n v outliers o b)%nat.
Proof.
  intros Hb. revert o. induction n as [|n IH]; intros o (k & Hk & Hr);
    cbn [outliers_above]; [lia|].
  pose proof (outliers_above_mono n v outliers (o + 1) b r ltac:(lia)) as Hm.
  destruct (Z.eq_dec k o) as [->|Hne].
  - rewrite <- Hr.
    destruct (Z.ltb_spec r r), (Z.ltb_spec b r); lia.
  - specialize (IH (o + 1) ltac:(exists k; split; [lia|done])).
    destruct (Z.ltb_spec r (rd v (rd outliers o))),
             (Z.ltb_spec b (rd v (rd outliers o))); lia.
Qed.

(** The barrier search ends: every further pass needs an outlier above the
    last barrier value. *)
Lemma barrier_loop_ends fuel z v v_old v_new :
  0 <= v_old ->
  (v_new <= v_old /\ (1 <= fuel)%nat) \/
  (outliers_above (Z.to_nat (outlier_size z)) v (outlier_ind z) 0 v_new + 2
   <= fuel)%nat ->
  exists z', barrier_loop fuel z v v_old v_new = Some z'.
Proof.
  revert z v_old v_new. induction fuel as [|fuel IH]; intros z v_old v_new Hold H;
    [lia|].
  cbn [barrier_loop]. cbv zeta.
  destruct (Z.ltb_spec v_old v_new) as [Hlt|Hge]; [|by eexists].
  destruct H as [[H _]|H]; [lia|].
  cbn [set_barrier outlier_size outlier_ind separator_barrier].
  pose proof (highest_below_spec (Z.to_nat (outlier_size z)) v (outlier_ind z)
                (separator_of v_new) 0 0) as Hh.
  set (r := highest_below _ _ _ _ _ _) in *. cbv zeta in Hh.
  destruct Hh as (_ & _ & Hsome).
  apply IH; [lia|].
  cbn [set_barrier outlier_size outlier_ind].
  destruct (Z_le_gt_dec r v_new) as [Hle|Hgt]; [left; lia|right].
  destruct Hsome as [Hr0|Hk]; [lia|].
  pose proof (outliers_above_lt _ v (outlier_ind z) 0 v_new r ltac:(lia) Hk).
  lia.
Qed.

Lemma find_barrier_ends z v : exists z', find_barrier z v = Some z'.
Proof.
  unfold find_barrier. apply barrier_loop_ends; [lia|]. right.
  pose proof (outliers_above_le (Z.to_nat (outlier_size z)) v (outlier_ind z) 0
                (rd (cluster_ceil z) (u8 (cluster_size z - 1)))).
  lia.
Qed.

Lemma find_barrier_fixed z v z' :
  0 < rd (cluster_ceil z) (u8 (cluster_size z - 1)) ->
  find_barrier z v = Some z' ->
  separator_barrier z' <= CEIL_U /\
  exists b,
    separator_barrier z' = separator_of b /\
    barrier_fixed_point z v (rd (cluster_ceil z) (u8 (cluster_size z - 1))) b.
Proof.
  intros Hc. unfold find_barrier.
  set (c := rd (cluster_ceil z) (u8 (cluster_size z - 1))) in *.
  replace (Z.to_nat (outlier_size z) + 2)%nat
    with (S (Z.to_nat (outlier_size z) + 1)) by lia.
  generalize (Z.to_nat (outlier_size z) + 1)%nat. intros fuel.
  cbn [barrier_loop]. cbv zeta.
  destruct (Z.ltb_spec 0 c) as [_|]; [|lia].
  intros H.
  apply (barrier_loop_spec _ z v c) in H; try done; try lia; try (by left).
  destruct H as (b & Hsep & Hfix). split; [|by exists b].
  rewrite Hsep. unfold separator_of, CEIL_U.
  change (65000 / 10) with 6500.
  destruct (Z.ltb_spec b 6500); [|lia].
  destruct Hfix as (Hcb & _). unfold u16. rewrite Z.mod_small; lia.
Qed.

(** X13: when the ceil of the last cluster is not 0, the barrier search ends,
    within the passes its outliers allow, with the separator barrier of a
    fixed point: the barrier is [separator_of b] for a [b] that is the last
    ceil or the value of an outlier, and every outlier below the barrier is
    at most [b]; the barrier is at most [CEIL_U]. *)
Theorem find_barrier_fixed_point (z : categories) (v : list Z) :
  0 < rd (cluster_ceil z) (u8 (cluster_size z - 1)) ->
  exists z',
    find_barrier z v = Some z' /\
    separator_barrier z' <= CEIL_U /\
    exists b,
      separator_barrier z' = separator_of b /\
      barrier_fixed_point z v (rd (cluster_ceil z) (u8 (cluster_size z - 1))) b.
Proof.
  intros Hc. destruct (find_barrier_ends z v) as (z' & Hz).
  exists z'. split; [done|]. by apply (find_barrier_fixed z v z').
Qed.

Lemma find_barrier_fixed_point_witness :
  (exists z',
     find_barrier (set_outliers stale_categories 2 [3; 5])
       [0; 400; 1200; 900; 1200; 9500] = Some z' /\
     separator_barrier z' <= CEIL_U /\
     exists b,
       separator_barrier z' = separator_of b /\
       barrier_fixed_point (set_outliers stale_categories 2 [3; 5])
         [0; 400; 1200; 900; 1200; 9500] 402 b) /\
  option_map separator_barrier
    (find_barrier (set_outliers stale_categories 2 [3; 5])
       [0; 400; 1200; 900; 1200; 9500]) = Some 9000.
Proof.
  split; [|vm_compute; reflexivity].
  apply (find_barrier_fixed_point (set_outliers stale_categories 2 [3; 5])
           [0; 400; 1200; 900; 1200; 9500]).
  vm_compute. reflexivity.
Defined.

(** ** The corrector keeps the clusters; the printed digit *)

(** X14: the corrector leaves the clusters of both polarities as the
    clusterer made them, and the sizes of the outlier and aggregation tables
    within their bounds, whatever code it returns. *)
Theorem corrector_keeps_clusters (zz : category_pair) (v : list Z)
    (v_length unreliable_count : Z) (m_outlier_ind : list Z) (rc : Z)
    (zz' : category_pair) (v' m' : list Z) (log : list (Z * Z)) :
  sizes_ok zz.1 -> sizes_ok zz.2 ->
  corrector zz v v_length unreliable_count m_outlier_ind
    = inl (rc, zz', v', m', log) ->
  same_clusters zz.1 zz'.1 /\ same_clusters zz.2 zz'.2 /\
  sizes_ok zz'.1 /\ sizes_ok zz'.2.
Proof.
  intros H1 H2 Hc. apply corrector_kept in Hc as [K1 K2].
  destruct (K1 H1) as (A1 & (A2 & A3 & A4 & A5) & A6).
  destruct (K2 H2) as (B1 & (B2 & B3 & B4 & B5) & B6).
  unfold same_clusters. split_and!; done.
Qed.

Lemma corrector_keeps_clusters_witness :
  exists zz' v' m',
    corrector levels_zz lone_unreliable_trace 40 1 blank_buffer
      = inl (CRC_2, zz', v', m', [(20, 22)]) /\
    same_clusters levels_zz.1 zz'.1 /\ same_clusters levels_zz.2 zz'.2.
Proof.
  do 3 eexists. split; [vm_compute; reflexivity|].
  assert (H : sizes_ok levels_zz.1 /\ sizes_ok levels_zz.2)
    by (vm_compute; repeat split; discriminate).
  destruct (corrector_keeps_clusters levels_zz lone_unreliable_trace 40 1
              blank_buffer _ _ _ _ _ (proj1 H) (proj2 H) eq_refl)
    as (A & B & _).
  split; [exact A|exact B].
Defined.

Lemma classifier_inside z v_val option k :
  clusters_ascending z -> 0 <= k < cluster_size z ->
  rd (cluster_floor z) k <= v_val < rd (cluster_ceil z) k ->
  classifier z v_val option = (true, k, rd (cluster_center z) k).
Proof.
  intros Hasc Hk Hv. unfold classifier, nearest_cluster.
  destruct (scan_ceil _ _ _ _) as [i|] eqn:Hs.
  - apply scan_ceil_first in Hs as (Hr & Hlt & Hb).
    assert (i = k) as ->.
    { destruct (Z_lt_le_dec k i) as [Hki|Hik].
      - specialize (Hb k). lia.
      - destruct (Z.eq_dec i k) as [|Hne]; [done|].
        specialize (Hasc i k). lia. }
    destruct (Z.leb_spec (rd (cluster_floor z) k) v_val); [done|lia].
  - pose proof (scan_ceil_none _ _ _ _ Hs k) as Hn. lia.
Qed.

(** X15: under a value inside cluster [k], not 0 and below the separator
    barrier, the sequence printer prints the digit [k]. *)
Theorem category_char_inside_cluster (z : categories) (v_val k : Z) :
  clusters_ascending z -> 0 <= k < cluster_size z -> k < 10 ->
  rd (cluster_floor z) k <= v_val < rd (cluster_ceil z) k ->
  v_val <> 0 -> v_val < separator_barrier z ->
  category_char z v_val = [48 + k].
Proof.
  intros Hasc Hk H10 Hv Hnz Hbar. unfold category_char.
  destruct (Z.eqb_spec v_val 0); [done|].
  destruct (Z.leb_spec (separator_barrier z) v_val); [lia|].
  rewrite (classifier_inside z v_val C_OPT_3 k) by done.
  destruct (Z.ltb_spec k 10); [|lia].
  unfold Serial_print. cbn [print_digits].
  rewrite Z.mod_small, Z.div_small by lia. done.
Qed.

Lemma category_char_inside_cluster_witness :
  category_char two_level_z 1190 = [49].
Proof.
  apply (category_char_inside_cluster two_level_z 1190 1).
  - intros i j Hi Hij Hj. change (cluster_size two_level_z) with 2 in Hj.
    assert (i = 0) as -> by lia. assert (j = 1) as -> by lia.
    vm_compute. discriminate.
  - vm_compute. split; [discriminate|reflexivity].
  - lia.
  - vm_compute. split; [discriminate|reflexivity].
  - discriminate.
  - vm_compute. reflexivity.
Defined.

(** ** The bins after the filling *)

(** X16: a bin filling that ends with code 0 after the values [lo],
    [lo + 2], ... into clean bins leaves bin [k] occupied exactly when a
    trusted value among them lies in the range of bin [k] below the ceil of
    the histogram, and the next floor at the least trusted value at or above
    the ceil ([CEIL_U] if there is none). *)
Theorem fill_bins_occupancy (v : list Z) (lo : Z) (n : nat)
    (h_floor_val h_ceil_val bin_width_2log : Z) (bins hits : list Z)
    (fs : fill_state) :
  Forall (fun x => 0 <= x < 65536) v ->
  0 <= bin_width_2log -> 0 <= h_floor_val ->
  h_ceil_val <= h_floor_val + 32 * 2 ^ bin_width_2log ->
  clean_bins bins -> length hits = 64%nat ->
  fill_bins n v h_floor_val h_ceil_val bin_width_2log
    (mkFill bins hits 0 CEIL_U) lo = (CRC_0, fs) ->
  (forall k, 0 <= k < 32 ->
     (0 < rd (f_bins fs) k <->
      occupied v lo n h_floor_val (2 ^ bin_width_2log) h_ceil_val k)) /\
  f_next_floor fs <= CEIL_U /\
  (forall i, In i (indices lo n) -> trusted v i = true ->
     h_floor_val <= rd v i -> h_ceil_val <= rd v i ->
     f_next_floor fs <= rd v i) /\
  (f_next_floor fs < CEIL_U ->
   exists i, In i (indices lo n) /\ trusted v i = true /\
     rd v i = f_next_floor fs /\ h_ceil_val <= rd v i).
Proof.
  intros Hv Hw Hf Hc Hclean Hhits Hfill.
  pose proof (fill_bins_inv v h_floor_val h_ceil_val bin_width_2log n lo []
                _ _ _ (fill_inv_clean v h_floor_val h_ceil_val bin_width_2log
                         bins hits Hclean Hhits) Hfill eq_refl) as Hinv.
  cbn [app] in Hinv. split_and!.
  - intros k Hk.
    apply (fill_occupied v lo n (fun i => rd_range v i Hv) h_floor_val
             bin_width_2log (2 ^ bin_width_2log) h_ceil_val Hw eq_refl Hf Hc
             fs k Hinv Hk).
  - apply (fi_nf_le _ _ _ _ _ _ Hinv).
  - apply (fi_nf_min _ _ _ _ _ _ Hinv).
  - intros Hlt. destruct (fi_nf_some _ _ _ _ _ _ Hinv Hlt)
      as (i & H1 & H2 & H3 & H4 & _).
    by exists i.
Qed.

Lemma fill_bins_occupancy_witness :
  exists fs,
    fill_bins 3 [0; 400; 1200; 400; 1200; 950; 1200; 400; 1200; 0] 386 898 4
      (mkFill (repeat 0 32) blank_buffer 0 CEIL_U) 3 = (CRC_0, fs) /\
    rd (f_bins fs) 0 = 2 /\ f_next_floor fs = 950 /\
    (0 < rd (f_bins fs) 0 <->
     occupied [0; 400; 1200; 400; 1200; 950; 1200; 400; 1200; 0] 3 3 386
       (2 ^ 4) 898 0).
Proof.
  eexists. split; [vm_compute; reflexivity|]. split; [reflexivity|].
  split; [reflexivity|].
  eapply (fill_bins_occupancy
            [0; 400; 1200; 400; 1200; 950; 1200; 400; 1200; 0] 3 3 386 898 4
            (repeat 0 32) blank_buffer).
  - repeat constructor; discriminate.
  - lia.
  - lia.
  - vm_compute. discriminate.
  - split; [reflexivity|]. intros k Hk. unfold rd. by rewrite nth_repeat.
  - reflexivity.
  - vm_compute. reflexivity.
  - lia.
Defined.

(** ** The best-fit overwrite *)

Lemma best_fit_spec n zz v i j st :
  0 <= j -> j + Z.of_nat n <= Z.of_nat (length (fit_ss_cat st)) ->
  j + Z.of_nat n <= 255 ->
  let fit := best_fit n zz v i j st in
  length (fit_ss_cat fit) = length (fit_ss_cat st) /\
  (forall k, 0 <= k < Z.of_nat n ->
     rd (fit_ss_cat fit) (j + k)
     = (classifier (zget zz (i + k)) (rd v (i + k)) C_OPT_3).2) /\
  (forall p, 0 <= p < j -> rd (fit_ss_cat fit) p = rd (fit_ss_cat st) p) /\
  (fit_flag fit = true <->
   fit_flag st = true /\
   forall k, 0 <= k < Z.of_nat n ->
     (classifier (zget zz (i + k)) (rd v (i + k)) C_OPT_3).1.1 = true).
Proof.
  revert i j st. induction n as [|n IH]; intros i j st Hj Hlen H255;
    cbn [best_fit].
  { cbv zeta. split_and!; try done; try (intros; lia).
    split; [intros H; split; [done|intros; lia]|by intros [H _]]. }
  destruct (classifier (zget zz i) (rd v i) C_OPT_3) as [[near ci] cv] eqn:Hc.
  replace (u8 (j + 1)) with (j + 1) by (unfold u8; rewrite Z.mod_small; lia).
  set (st1 := mkFit _ _ _ _).
  destruct (IH (i + 1) (j + 1) st1) as (H1 & H2 & H3 & H4);
    try (subst st1; cbn [fit_ss_cat]; rewrite ?length_wr; lia).
  subst st1. cbn [fit_ss_cat fit_flag] in *. rewrite length_wr in H1.
  cbv zeta. split_and!.
  - done.
  - intros k Hk. destruct (Z.eq_dec k 0) as [->|Hne].
    + rewrite !Z.add_0_r, H3 by lia. rewrite rd_wr_eq by lia. by rewrite Hc.
    + replace (j + k) with (j + 1 + (k - 1)) by lia.
      replace (i + k) with (i + 1 + (k - 1)) by lia. apply H2. lia.
  - intros p Hp. rewrite H3 by lia. apply rd_wr_ne; lia.
  - rewrite H4. rewrite andb_true_iff. split.
    + intros [[Hn Hf] Hall]. split; [done|]. intros k Hk.
      destruct (Z.eq_dec k 0) as [->|Hne].
      * by rewrite Z.add_0_r, Hc.
      * replace (i + k) with (i + 1 + (k - 1)) by lia. apply Hall. lia.
    + intros [Hf Hall]. split.
      * split; [|done]. specialize (Hall 0 ltac:(lia)).
        by rewrite Z.add_0_r, Hc in Hall.
      * intros k Hk. replace (i + 1 + k) with (i + (k + 1)) by lia.
        apply Hall. lia.
Qed.

Lemma overwrite_spec n v ss_cat i j :
  0 <= i -> i + Z.of_nat n <= Z.of_nat (length v) -> 0 <= j ->
  j + Z.of_nat n <= 255 ->
  let v' := overwrite n v ss_cat i j in
  length v' = length v /\
  (forall k, 0 <= k < Z.of_nat n -> rd v' (i + k) = rd ss_cat (j + k)) /\
  (forall p, 0 <= p -> p < i \/ i + Z.of_nat n <= p -> rd v' p = rd v p).
Proof.
  revert v i j. induction n as [|n IH]; intros v i j Hi Hlen Hj H255;
    cbn [overwrite].
  { cbv zeta. split_and!; try done. intros k Hk. lia. }
  replace (u8 (j + 1)) with (j + 1) by (unfold u8; rewrite Z.mod_small; lia).
  destruct (IH (wr v i (rd ss_cat j)) (i + 1) (j + 1)) as (H1 & H2 & H3);
    try (rewrite ?length_wr; lia).
  rewrite length_wr in H1. cbv zeta. split_and!.
  - done.
  - intros k Hk. destruct (Z.eq_dec k 0) as [->|Hne].
    + rewrite !Z.add_0_r, H3 by lia. apply rd_wr_eq. lia.
    + replace (i + k) with (i + 1 + (k - 1)) by lia.
      replace (j + k) with (j + 1 + (k - 1)) by lia. apply H2. lia.
  - intros p Hp0 Hp. rewrite H3 by lia. apply rd_wr_ne; lia.
Qed.

(** X17: the best-fit overwrite of a window of [n <= 5] values replaces each
    value by the center of the category the classifier reports for it under
    [C_OPT_3], leaves the rest of [v] as it is, and the best-fit flag tells
    whether the classifier accepted every value of the window. *)
Theorem best_fit_overwrite (zz : category_pair) (v ss_cat : list Z)
    (ss_start_ind : Z) (n : nat) :
  0 <= ss_start_ind ->
  ss_start_ind + Z.of_nat n <= Z.of_nat (length v) ->
  (n <= 5)%nat -> length ss_cat = 5%nat ->
  let fit := best_fit n zz v ss_start_ind 0 (mkFit true 0 0 ss_cat) in
  let v' := overwrite n v (fit_ss_cat fit) ss_start_ind 0 in
  length v' = length v /\
  (forall k, 0 <= k < Z.of_nat n ->
     rd v' (ss_start_ind + k)
     = (classifier (zget zz (ss_start_ind + k)) (rd v (ss_start_ind + k))
          C_OPT_3).2) /\
  (forall p, 0 <= p -> p < ss_start_ind \/ ss_start_ind + Z.of_nat n <= p ->
     rd v' p = rd v p) /\
  (fit_flag fit = true <->
   forall k, 0 <= k < Z.of_nat n ->
     (classifier (zget zz (ss_start_ind + k)) (rd v (ss_start_ind + k))
        C_OPT_3).1.1 = true).
Proof.
  intros Hs Hlen Hn Hss.
  destruct (best_fit_spec n zz v ss_start_ind 0 (mkFit true 0 0 ss_cat))
    as (B1 & B2 & _ & B4); cbn [fit_ss_cat fit_flag]; try lia.
  set (fit := best_fit _ _ _ _ _ _) in *.
  destruct (overwrite_spec n v (fit_ss_cat fit) ss_start_ind 0)
    as (O1 & O2 & O3); try lia.
  cbv zeta. split_and!; try done.
  - intros k Hk. rewrite O2 by done. by apply B2.
  - rewrite B4. cbn [fit_flag]. split; [by intros [_ H]|by split].
Qed.

Lemma best_fit_overwrite_witness :
  overwrite 4 lone_unreliable_trace
    (fit_ss_cat (best_fit 4 levels_zz lone_unreliable_trace 20 0
                   (mkFit true 0 0 (repeat 0 5)))) 20 0
  = <[21%nat := 394]> (<[23%nat := 394]> lone_unreliable_trace) /\
  length (overwrite 4 lone_unreliable_trace
            (fit_ss_cat (best_fit 4 levels_zz lone_unreliable_trace 20 0
                           (mkFit true 0 0 (repeat 0 5)))) 20 0)
  = length lone_unreliable_trace.
Proof.
  split; [vm_compute; reflexivity|].
  apply (best_fit_overwrite levels_zz lone_unreliable_trace (repeat 0 5) 20 4);
    [lia|vm_compute; discriminate|lia|reflexivity].
Defined.

(** ** The checksum of the trace *)

Lemma checksum_add_range sums d :
  0 <= (checksum_add sums d).1 < 255 /\ 0 <= (checksum_add sums d).2 < 255.
Proof.
  unfold checksum_add. cbv zeta. cbn [fst snd].
  split; apply Z.mod_pos_bound; lia.
Qed.

Lemma checksum_from_range duration n ind sums :
  0 <= sums.1 < 255 /\ 0 <= sums.2 < 255 ->
  0 <= (checksum_from duration n ind sums).1 < 255 /\
  0 <= (checksum_from duration n ind sums).2 < 255.
Proof.
  revert ind sums. induction n as [|n IH]; intros ind sums H;
    cbn [checksum_from]; [done|].
  apply IH, checksum_add_range.
Qed.

Lemma lor_bytes hi lo :
  0 <= hi < 256 -> 0 <= lo < 256 ->
  Z.lor (u16 (Z.shiftl hi 8)) lo = 256 * hi + lo.
Proof.
  intros Hhi Hlo. rewrite Z.shiftl_mul_pow2 by lia. change (2 ^ 8) with 256.
  unfold u16. rewrite Z.mod_small by lia.
  rewrite <- Z.add_nocarry_lor; [lia|].
  apply Z.bits_inj'. intros n Hn. rewrite Z.land_spec, Z.bits_0.
  destruct (Z_lt_le_dec n 8) as [Hlt|Hge].
  - replace (hi * 256) with (hi * 2 ^ 8) by lia.
    rewrite Z.mul_pow2_bits_low by lia. done.
  - rewrite (Z.bits_above_log2 lo n); [apply andb_false_r|lia|].
    destruct (Z.eq_dec lo 0) as [->|]; [simpl; lia|].
    apply Z.log2_lt_pow2; [lia|].
    assert (2 ^ 8 <= 2 ^ n) by (apply Z.pow_le_mono_r; lia).
    change (2 ^ 8) with 256 in *. lia.
Qed.

(** X18: the checksum of a trace is [256 * sum2 + sum1] with both sums
    below 255: neither of its bytes is ever 255, and it is below 65279. *)
Theorem trace_checksum_bytes (duration : list Z) (count : Z) :
  0 <= trace_checksum duration count < 65279 /\
  trace_checksum duration count mod 256 < 255 /\
  trace_checksum duration count / 256 < 255.
Proof.
  unfold trace_checksum. cbv zeta.
  destruct (checksum_from_range duration (Z.to_nat (count + 2)) 1 (0, 0))
    as [H1 H2]; [cbn; lia|].
  set (sums := checksum_from _ _ _ _) in *.
  rewrite lor_bytes by lia.
  replace (256 * sums.2 + sums.1) with (sums.1 + sums.2 * 256) by lia.
  rewrite Z.mod_add, Z.div_add by lia.
  rewrite Z.mod_small, Z.div_small by lia. lia.
Qed.

Lemma checksum_add_congruent sums d d' :
  0 <= sums.1 < 255 -> 0 <= d <= 65281 -> 0 <= d' <= 65281 ->
  d mod 255 = d' mod 255 ->
  checksum_add sums d = checksum_add sums d'.
Proof.
  intros Hs Hd Hd' Hm. unfold checksum_add. cbv zeta.
  assert (E : u16 (sums.1 + d) mod 255 = u16 (sums.1 + d') mod 255).
  { unfold u16.
    rewrite (Z.mod_small (sums.1 + d) 65536),
      (Z.mod_small (sums.1 + d') 65536) by lia.
    rewrite (Z.add_mod _ d), (Z.add_mod _ d') by lia. by rewrite Hm. }
  by rewrite E.
Qed.

(** X19: the checksum does not see a change of durations by multiples of
    255: two traces whose durations up to the end record are at most 65281
    and agree modulo 255 have the same checksum. *)
Theorem trace_checksum_blind (a b : list Z) (count : Z) :
  (forall i, 1 <= i <= count + 2 ->
     0 <= rd a i <= 65281 /\ 0 <= rd b i <= 65281 /\
     rd a i mod 255 = rd b i mod 255) ->
  trace_checksum a count = trace_checksum b count.
Proof.
  intros H. unfold trace_checksum. cbv zeta.
  assert (E : forall n ind sums,
            1 <= ind -> ind + Z.of_nat n <= count + 3 ->
            0 <= sums.1 < 255 ->
            checksum_from a n ind sums = checksum_from b n ind sums).
  { induction n as [|n IH]; intros ind sums Hi Hn Hs; cbn [checksum_from];
      [done|].
    destruct (H ind ltac:(lia)) as (Ha & Hb & Hm).
    rewrite (checksum_add_congruent sums _ _ Hs Ha Hb Hm).
    apply IH; try lia. apply checksum_add_range. }
  destruct (Z_lt_le_dec (count + 2) 0) as [Hneg|Hnn].
  - replace (Z.to_nat (count + 2)) with 0%nat by lia. done.
  - rewrite E; [done|lia|lia|cbn; lia].
Qed.

Lemma trace_checksum_blind_witness :
  trace_checksum [0; 400; 1200; 400; 65000] 2 = 28350 /\
  trace_checksum [0; 400; 1200; 400; 65000] 2
  = trace_checksum [0; 655; 1200; 400; 65000] 2.
Proof.
  split; [reflexivity|].
  apply (trace_checksum_blind [0; 400; 1200; 400; 65000]
           [0; 655; 1200; 400; 65000] 2).
  intros i Hi.
  assert (i = 1 \/ i = 2 \/ i = 3 \/ i = 4) as [->|[->|[->| ->]]] by lia;
    vm_compute; repeat split; discriminate.
Defined.

(** ** The histogram that is handed on forever *)

Lemma hit_total_wr_above bins b x m :
  0 <= b -> Z.of_nat m <= b -> hit_total (wr bins b x) m = hit_total bins m.
Proof.
  intros Hb. induction m as [|m IH]; intros Hm; [done|].
  cbn [hit_total]. rewrite rd_wr_ne by lia. rewrite IH by lia. done.
Qed.

Lemma hit_total_wr bins b x m :
  0 <= b < Z.of_nat m -> Z.of_nat m <= Z.of_nat (length bins) ->
  hit_total (wr bins b x) m
  = hit_total bins m - Z.min (rd bins b) FIRST_HITS + Z.min x FIRST_HITS.
Proof.
  induction m as [|m IH]; intros Hb Hm; [lia|].
  cbn [hit_total]. destruct (Z.eq_dec b (Z.of_nat m)) as [->|Hne].
  - rewrite rd_wr_eq by lia. rewrite hit_total_wr_above by lia. lia.
  - rewrite rd_wr_ne by lia. rewrite IH by lia. lia.
Qed.

Lemma hit_total_bound bins m :
  rd bins 0 <= 0 -> hit_total bins (S m) <= 2 * Z.of_nat m.
Proof.
  intros H0. induction m as [|m IH].
  - cbn [hit_total]. change (Z.of_nat 0) with 0. unfold FIRST_HITS. lia.
  - change (hit_total bins (S (S m)))
      with (Z.min (rd bins (Z.of_nat (S m))) FIRST_HITS + hit_total bins (S m)).
    unfold FIRST_HITS. lia.
Qed.

Section FillOk.
Context (v : list Z) (f hc w bw : Z).
Hypothesis Hv : forall i, 0 <= rd v i < 65536.
Hypothesis Hw : 0 <= w.
Hypothesis Hbw : bw = 2 ^ w.
Hypothesis Hf : 0 <= f.
Hypothesis Hhc : hc <= f + 32 * bw.

Lemma fill_step_ok seen st i :
  fill_inv v f hc w seen st ->
  f_h_count st = hit_total (f_bins st) 32 ->
  (forall j, In j (seen ++ [i]) -> binned v f hc j -> bin_of (rd v j) f w <> 0) ->
  exists st', fill_step v f hc w st i = (CRC_0, st') /\
    f_h_count st' = hit_total (f_bins st') 32.
Proof.
  intros Hinv Hcount H0. unfold fill_step.
  destruct (Z.ltb_spec (rd v i) f) as [Hlow|Hlow]; [by exists st|].
  destruct (trusted v i) eqn:Ht; cbn [negb]; [|by exists st].
  destruct (Z.leb_spec hc (rd v i)) as [Hhigh|Hhigh].
  { eexists. split; [done|]. by destruct (_ <? _). }
  destruct (binned_bin v Hv f w bw hc Hw Hbw Hf Hhc i ltac:(lia)) as [Hbin Hr].
  set (b := bin_of (rd v i) f w) in *. rewrite <- Hbin in Hr.
  unfold NB. destruct (Z.leb_spec 32 b) as [|_]; [lia|].
  destruct (Z.leb_spec 255 (rd (f_bins st) b)) as [|Hfull]; [by exists st|].
  pose proof (fi_len _ _ _ _ _ _ Hinv) as Hlen.
  pose proof (fi_range _ _ _ _ _ _ Hinv b Hr) as Hrange.
  assert (Hz : rd (f_bins st) 0 <= 0).
  { destruct (Z_lt_le_dec 0 (rd (f_bins st) 0)) as [Hp|]; [|done].
    apply (fi_occ _ _ _ _ _ _ Hinv 0) in Hp; [|lia].
    destruct Hp as (j & Hj & Hbj & Hb0).
    destruct (H0 j); [rewrite in_app_iff; by left|done|done]. }
  assert (Hb0 : b <> 0).
  { apply (H0 i); [rewrite in_app_iff; right; by left|done]. }
  pose proof (hit_total_bound (f_bins st) 31 Hz) as Hbound.
  change (S 31) with 32%nat in Hbound. change (Z.of_nat 31) with 31 in Hbound.
  destruct (Z.ltb_spec (f_h_count st) NH) as [_|Hge]; [|unfold NH, NB in Hge; lia].
  rewrite rd_wr_eq by lia.
  pose proof (hit_total_wr (f_bins st) b (rd (f_bins st) b + 1) 32
                ltac:(lia) ltac:(lia)) as Hwr.
  unfold FIRST_HITS in *.
  destruct (Z.leb_spec (rd (f_bins st) b + 1) 2); eexists; (split; [done|]);
    cbn [f_h_count f_bins]; rewrite Hwr.
  - pose proof (fi_hcount _ _ _ _ _ _ Hinv). unfold u8.
    rewrite Z.mod_small by lia. lia.
  - lia.
Qed.

Lemma fill_bins_ok n lo seen st :
  fill_inv v f hc w seen st ->
  f_h_count st = hit_total (f_bins st) 32 ->
  (forall j, In j (seen ++ indices lo n) -> binned v f hc j ->
     bin_of (rd v j) f w <> 0) ->
  exists st', fill_bins n v f hc w st lo = (CRC_0, st').
Proof.
  revert lo seen st. induction n as [|n IH]; intros lo seen st Hinv Hcount H0.
  { by exists st. }
  cbn [fill_bins]. cbn [indices] in H0.
  destruct (fill_step_ok seen st lo Hinv Hcount) as (st1 & Hstep & Hcount1).
  { intros j Hj. apply H0. rewrite in_app_iff in *. cbn [In].
    destruct Hj as [|[<-|[]]]; auto. }
  rewrite Hstep. change (CRC_0 =? CRC_0) with true. cbv iota.
  apply (IH (lo + 2) (seen ++ [lo]) st1);
    [by apply (fill_step_inv v f hc w seen st)|done|].
  intros j Hj. apply H0. rewrite <- app_assoc in Hj. done.
Qed.
End FillOk.

Lemma cluster_bins_stuck_ok fuel f w bw st :
  (forall k, 0 <= k < 32 -> 0 <= rd (b_bins st) k) ->
  rd (b_bins st) 0 = 0 -> 0 < rd (b_bins st) 1 -> no_gap (b_bins st) 1 ->
  exists st', cluster_bins (S fuel) f w bw st 0 = Some (CRC_0, st').
Proof.
  intros Hnn H0 H1 Hgap. cbn [cluster_bins]. unfold NB.
  change (negb (0 <? 32)) with false. cbv iota.
  pose proof (skip_empty_spec (b_bins st) (Z.to_nat (32 - 0)) 0) as Hskip.
  set (b1 := skip_empty (b_bins st) (Z.to_nat (32 - 0)) 0) in *.
  cbv zeta in Hskip. destruct Hskip as (Hr1 & Hz & Hnz & _ & Hpos).
  change (Z.of_nat (Z.to_nat (32 - 0))) with 32 in *.
  specialize (Hpos ltac:(simpl; lia)).
  assert (b1 = 2) as ->.
  { destruct (Z_lt_le_dec 2 b1) as [Hlt|].
    - specialize (Hz 1 ltac:(lia)). lia.
    - destruct (Z.eq_dec b1 1) as [->|]; [|lia].
      destruct (Hnz ltac:(lia)). done. }
  change (32 <=? 2) with false. change (u8 (2 - 1)) with 1.
  change (32 <=? 1) with false. cbv iota. cbv zeta.
  destruct (find_stop _ _ _ _ _) as [[b2 stop] inl] eqn:Hfs.
  apply find_stop_spec in Hfs; [|lia|simpl; lia|done|by left].
  destruct Hfs as [(-> & -> & _)|(Hb2 & -> & Hz2 & Hz1 & Hlt & _)].
  - change (32 =? 32) with true. cbv iota. by eexists.
  - exfalso. specialize (Hlt eq_refl).
    destruct (Hgap (b2 - 1) ltac:(lia) ltac:(lia)) as [H|H].
    + lia.
    + replace (b2 - 1 + 1) with b2 in H by lia. lia.
Qed.

Lemma hit_total_clean bins m :
  (forall k, 0 <= k < Z.of_nat m -> rd bins k = 0) -> hit_total bins m = 0.
Proof.
  induction m as [|m IH]; intros Hz; [done|].
  cbn [hit_total]. rewrite Hz by lia. rewrite IH; [done|].
  intros k Hk. apply Hz. lia.
Qed.

Section Diverge.
Context (v : list Z) (v_start_ind v_stop_ind lo : Z) (n : nat).
Hypothesis Hv : forall i, 0 <= rd v i < 65536.
Hypothesis Hlo : lo = v_start_ind + BORDER_WIDTH.
Hypothesis Hn : n = steps2 lo (u16 (v_stop_ind - BORDER_WIDTH)).

Lemma stuck_pass_ok st :
  stuck v lo n st ->
  exists st' hc, histogram_pass v v_start_ind v_stop_ind st
                 = Some (CRC_0, st', hc).
Proof.
  intros [[Hclean Hhits Hw Hbw Hbwlt Hf] Hempty [Hocc1 Hgap]].
  destruct st as [z c bins hits f w bw ov].
  cbn [h_z h_c_ind h_bins h_hits h_next_floor h_bin_width_2log h_bin_width
       h_overlap] in *.
  assert (Hbw0 : 0 < bw) by (subst bw; apply Z.pow_pos_nonneg; lia).
  unfold histogram_pass.
  cbn [h_z h_c_ind h_bins h_hits h_next_floor h_bin_width_2log h_bin_width
       h_overlap].
  rewrite <- Hlo, <- Hn.
  pose proof (h_ceil_of_eq f bw Hf ltac:(lia)) as Hhc.
  fold (hceil f bw) in Hhc.
  set (hc0 := h_ceil_of f bw) in *. rewrite <- Hhc in *.
  assert (Hle : hc0 <= f + 32 * bw) by (unfold hceil in Hhc; lia).
  pose proof (fill_inv_clean v f hc0 w bins hits Hclean Hhits) as Hinv0.
  destruct (fill_bins_ok v f hc0 w bw Hv Hw Hbw ltac:(lia) Hle n lo []
              (mkFill bins hits 0 CEIL_U) Hinv0) as (fs & Hfill).
  { cbn [f_h_count f_bins]. destruct Hclean as [_ Hz].
    rewrite hit_total_clean; [done|]. intros k Hk. apply Hz. lia. }
  { cbn [app]. intros j Hj [Ht Hr] Hb. apply Hempty. exists j.
    destruct (binned_bin v Hv f w bw hc0 Hw Hbw ltac:(lia) Hle j Hr)
      as [Heq _].
    rewrite Heq in Hb. apply bin_interval in Hb; [|done|lia].
    split_and!; try done; lia. }
  rewrite Hfill. change (negb (CRC_0 =? CRC_0)) with false. cbv iota.
  pose proof (fill_bins_inv v f hc0 w n lo [] _ _ _ Hinv0 Hfill eq_refl)
    as Hinv.
  cbn [app] in Hinv.
  assert (Hocc : forall k, 0 <= k < 32 ->
            (0 < rd (f_bins fs) k <-> occupied v lo n f bw hc0 k)).
  { intros k Hk.
    apply (fill_occupied v lo n Hv f w bw hc0 Hw Hbw ltac:(lia) Hle fs k
             Hinv Hk). }
  assert (Hnn : forall k, 0 <= k < 32 -> 0 <= rd (f_bins fs) k).
  { intros k Hk. apply (fi_range _ _ _ _ _ _ Hinv k Hk). }
  set (bs0 := mkBins z c (f_bins fs) (f_next_floor fs) ov false).
  assert (Hz0 : rd (b_bins bs0) 0 = 0).
  { cbn [b_bins bs0]. specialize (Hnn 0 ltac:(lia)).
    destruct (Z_lt_le_dec 0 (rd (f_bins fs) 0)) as [Hp|]; [|lia].
    apply (Hocc 0) in Hp; [done|lia]. }
  assert (Hp1 : 0 < rd (b_bins bs0) 1).
  { apply (Hocc 1); done || lia. }
  assert (Hng : no_gap (b_bins bs0) 1).
  { intros k Hk1 Hk2. destruct (Hgap k Hk1 Hk2) as [H|H]; [left|right];
      apply Hocc; done || lia. }
  destruct (cluster_bins_stuck_ok 32 f w bw bs0 Hnn Hz0 Hp1 Hng)
    as (bs & Hcb).
  rewrite Hcb. change (negb (CRC_0 =? CRC_0)) with false. cbv iota.
  apply cluster_bins_stuck in Hcb; try done;
    [|apply (fi_len _ _ _ _ _ _ Hinv)].
  destruct Hcb as (_ & _ & _ & _ & _ & Hflag).
  rewrite Hflag. cbn [b_outlier_presence bs0]. by eexists _, _.
Qed.

(** From a stuck histogram no number of passes ends the loop. *)
Lemma loop_stuck_none fuel st :
  stuck v lo n st -> histogram_loop fuel v v_start_ind v_stop_ind st = None.
Proof.
  revert st. induction fuel as [|fuel IH]; intros st Hst; [done|].
  cbn [histogram_loop].
  destruct (stuck_pass_ok st Hst) as (st1 & hc & Hp). rewrite Hp.
  change (negb (CRC_0 =? CRC_0)) with false. cbv iota.
  destruct (stuck_pass v v_start_ind v_stop_ind lo n Hv Hlo Hn _ _ _ _ Hst Hp
              eq_refl)
    as (Hhc & Hcl & Hhl & Hw' & Hbw' & Hnf & Hlt).
  destruct Hst as [[Hclean Hhits Hw Hbw Hbwlt Hf] Hempty Hch].
  assert (hc <= 65000) by (unfold hceil, CEIL_U in Hhc; lia).
  destruct (Z.eqb_spec (h_next_floor st1) CEIL_U) as [He|_];
    [unfold CEIL_U in He; lia|].
  rewrite Hnf, Hw', Hbw'.
  replace (u16 (h_next_floor st + h_bin_width st - h_bin_width st))
    with (h_next_floor st) by (unfold u16; rewrite Z.mod_small; lia).
  assert (Hbw0 : 0 < h_bin_width st)
    by (rewrite Hbw; apply Z.pow_pos_nonneg; lia).
  rewrite widen_stay by lia.
  apply IH. split; [split|..]; done.
Qed.
End Diverge.

(** A histogram is stuck if its bin filling says so. *)
Lemma stuck_by_bins v lo n st fs :
  Forall (fun x => 0 <= x < 65536) v ->
  pass_pre st ->
  fill_bins n v (h_next_floor st)
    (hceil (h_next_floor st) (h_bin_width st)) (h_bin_width_2log st)
    (mkFill (h_bins st) (h_hits st) 0 CEIL_U) lo = (CRC_0, fs) ->
  rd (f_bins fs) 0 = 0 -> 0 < rd (f_bins fs) 1 ->
  forallb (fun k => (0 <? rd (f_bins fs) k) || (0 <? rd (f_bins fs) (k + 1)))
    (map Z.of_nat (seq 1 30)) = true ->
  stuck v lo n st.
Proof.
  intros Hv Hpre Hfill H0 H1 Hall.
  pose proof Hpre as [Hclean Hhits Hw Hbw Hbwlt Hf].
  set (f := h_next_floor st) in *. set (bw := h_bin_width st) in *.
  set (w := h_bin_width_2log st) in *.
  pose proof (fill_bins_inv v f (hceil f bw) w n lo [] _ _ _
                (fill_inv_clean v f _ w _ _ Hclean Hhits) Hfill eq_refl)
    as Hinv.
  cbn [app] in Hinv.
  assert (Hocc : forall k, 0 <= k < 32 ->
            (0 < rd (f_bins fs) k <-> occupied v lo n f bw (hceil f bw) k)).
  { intros k Hk.
    assert (Hle : hceil f bw <= f + 32 * bw) by (unfold hceil; lia).
    apply (fill_occupied v lo n (fun i => rd_range v i Hv) f w bw _ Hw Hbw
             ltac:(lia) Hle fs k Hinv Hk). }
  split; [done| |split].
  - intros Ho. apply (Hocc 0) in Ho; lia.
  - apply (Hocc 1); done || lia.
  - intros k Hk1 Hk2. rewrite forallb_forall in Hall.
    specialize (Hall k).
    assert (Hin : In k (map Z.of_nat (seq 1 30))).
    { rewrite in_map_iff. exists (Z.to_nat k). split; [lia|].
      apply in_seq. lia. }
    apply Hall in Hin. apply orb_true_iff in Hin as [H|H];
      apply Z.ltb_lt in H; [left|right]; apply Hocc; done || lia.
Qed.

(** X20: the histogram loop of the clusterer does not end from a histogram
    whose first bin is without a value, whose second bin holds one, and in
    which no two neighbouring bins up to the last are both without a value:
    the bin clustering hands the histogram on from its second bin, the next
    histogram has the same floor and bin width, and no number of passes
    yields a return code. *)
Theorem histogram_loop_never_ends (v : list Z) (v_start_ind v_stop_ind : Z)
    (st : histo_state) :
  Forall (fun x => 0 <= x < 65536) v ->
  stuck v (v_start_ind + BORDER_WIDTH)
    (steps2 (v_start_ind + BORDER_WIDTH) (u16 (v_stop_ind - BORDER_WIDTH)))
    st ->
  forall fuel, histogram_loop fuel v v_start_ind v_stop_ind st = None.
Proof.
  intros Hv Hst fuel.
  apply (loop_stuck_none v v_start_ind v_stop_ind _ _
           (fun i => rd_range v i Hv) eq_refl eq_refl fuel st Hst).
Qed.

Lemma histogram_loop_never_ends_witness :
  histogram_loop 1000 spread_trace 1 47
    (mkHisto (init_categories blank_categories) 0 (repeat 0 32) blank_buffer
       370 4 16 false) = None.
Proof.
  apply histogram_loop_never_ends.
  - apply (bool_decide_unpack _); vm_compute; exact I.
  - eapply stuck_by_bins.
    + apply (bool_decide_unpack _); vm_compute; exact I.
    + split; try done.
      split; [reflexivity|]. intros k Hk. cbn [h_bins]. unfold rd.
      by rewrite nth_repeat.
    + vm_compute. reflexivity.
    + reflexivity.
    + reflexivity.
    + vm_compute. reflexivity.
Defined.
